(** * Relative matrix constraints: the constraint-network lifecycle

    A shallow embedding of [relativeMatrixConstraints.py].  The module is a
    client of a host application (the scene graph, its attribute and
    connection system, the keyframe baker, the viewport).  The host is not
    part of the module, so the commands the module calls are given a small
    executable model first; the module's own functions are then transcribed
    statement by statement on top of that model, in a state-and-exception
    monad that plays the role of the Python interpreter. *)

From Stdlib Require Import Floats ZArith.
From stdpp Require Import gmap strings list fin_maps pretty.

Local Open Scope string_scope.
Local Open Scope list_scope.

(** ** Python control flow: mutable state and exceptions *)

(** The two exception classes the host commands raise. *)
Inductive exn : Type :=
  | RuntimeError
  | ValueError.

(** How a call ends: it returns a value or it raises. *)
Inductive outcome (A : Type) : Type :=
  | Returned (a : A)
  | Raised (e : exn).
Arguments Returned {A} a.
Arguments Raised {A} e.

(** A computation over a mutable state [S].  A raise keeps every state
    change made before it: nothing is rolled back. *)
Definition py (S A : Type) : Type := S → S * outcome A.

Definition ret {S A} (a : A) : py S A := λ s, (s, Returned a).

Definition raise {S A} (e : exn) : py S A := λ s, (s, Raised e).

Definition bind {S A B} (c : py S A) (k : A → py S B) : py S B :=
  λ s, match c s with
       | (s', Returned a) => k a s'
       | (s', Raised e) => (s', Raised e)
       end.

Declare Scope py_scope.
Delimit Scope py_scope with py.
Bind Scope py_scope with py.
Notation "'let!' x ':=' c 'in' k" := (bind c (λ x, k))
  (at level 10, x pattern, c at level 100, k at level 200, only parsing) : py_scope.
Notation "'do!' c 'in' k" := (bind c (λ _, k))
  (at level 10, c at level 100, k at level 200, only parsing) : py_scope.
Local Open Scope py_scope.

(** [try: body  except exc: pass]: a raise of class [exc] is swallowed. *)
Definition try_except_pass {S} (exc : exn → bool) (body : py S unit) : py S unit :=
  λ s, match body s with
       | (s', Returned _) => (s', Returned tt)
       | (s', Raised e) => if exc e then (s', Returned tt) else (s', Raised e)
       end.

(** [try: body  except Exception as e: handler(e)]. *)
Definition try_except {S A} (body : py S A) (handler : exn → py S A) : py S A :=
  λ s, match body s with
       | (s', Returned a) => (s', Returned a)
       | (s', Raised e) => handler e s'
       end.

(** [try: body  finally: cleanup]: the cleanup runs on both exits; the
    body's outcome is kept unless the cleanup itself raises. *)
Definition try_finally {S A} (body : py S A) (cleanup : py S unit) : py S A :=
  λ s, match body s with
       | (s', r) =>
           match cleanup s' with
           | (s'', Returned _) => (s'', r)
           | (s'', Raised e) => (s'', Raised e)
           end
       end.

(** [for x in xs: acc = body(acc, x)]: a loop that threads the variables it
    assigns through its iterations and stops at the first raise. *)
Fixpoint for_each {S A B} (xs : list B) (acc : A) (body : A → B → py S A) : py S A :=
  match xs with
  | [] => ret acc
  | x :: xs' => let! acc' := body acc x in for_each xs' acc' body
  end.

(** Pure reads and writes of the state. *)
Definition query {S A} (f : S → A) : py S A := λ s, (s, Returned (f s)).
Definition update {S} (f : S → S) : py S unit := λ s, (f s, Returned tt).

(** ** The host scene

    The part of the host's state that the module reads or writes: the
    dependency nodes with their dynamic attributes and keyframes, the
    attribute-to-attribute connections, and the viewport switches that the
    bake decorator toggles. *)

(** A plug is an attribute of a node; the source spells it ["node.attr"]. *)
Abbreviation plug := (string * string)%type.

(** Modelled from the spec: the three kinds of attribute the persisted
    layout uses (section 6): the boolean marker, the string label, the
    message-typed references. *)
Inductive attr_kind : Type := BoolAttr | StringAttr | MessageAttr.

(** Modelled from the spec: what such an attribute holds; a string
    attribute that was never set reads as [None]. *)
Inductive attr_value : Type :=
  | BoolValue (b : bool)
  | StringValue (s : option string)
  | MessageValue.

(** Modelled from the spec: the value of an attribute right after
    [addAttr]. *)
Definition initial_value (k : attr_kind) : attr_value :=
  match k with
  | BoolAttr => BoolValue false
  | StringAttr => StringValue None
  | MessageAttr => MessageValue
  end.

(** Modelled from the spec: a node of the host scene, with what the module
    can observe of it: its type tag, its parent, the attributes added to it
    and the keyframes on its channels. *)
Record node : Type := Node {
  node_type : string;
  node_parent : option string;
  node_attrs : gmap string attr_value;   (* attributes added with addAttr *)
  node_keys : gmap string (gset Z)       (* channel -> keyed frames *)
}.

(** Modelled from the spec: the host UI switches the bake wrapper toggles
    (section 4.5): evaluation mode, main pane, redraw suspension, time
    slider. *)
Record ui_state : Type := UiState {
  evaluation_mode : string;
  main_pane_managed : bool;
  refresh_suspended : bool;
  time_slider_visible : bool
}.

(** Modelled from the spec: the host scene.  A destination plug has at most
    one incoming connection (section 4.1: connecting to a plug that is
    already driven is an error). *)
Record scene : Type := Scene {
  nodes : gmap string node;
  connections : gmap plug plug;          (* destination plug -> its one source *)
  ui : ui_state
}.

(** Field updates of the two records. *)
Definition with_nodes (f : gmap string node → gmap string node) (sc : scene) : scene :=
  Scene (f (nodes sc)) (connections sc) (ui sc).
Definition with_connections (f : gmap plug plug → gmap plug plug) (sc : scene) : scene :=
  Scene (nodes sc) (f (connections sc)) (ui sc).
Definition with_ui (f : ui_state → ui_state) (sc : scene) : scene :=
  Scene (nodes sc) (connections sc) (f (ui sc)).
Definition with_attrs (f : gmap string attr_value → gmap string attr_value) (nd : node) : node :=
  Node (node_type nd) (node_parent nd) (f (node_attrs nd)) (node_keys nd).
Definition with_keys (f : gmap string (gset Z) → gmap string (gset Z)) (nd : node) : node :=
  Node (node_type nd) (node_parent nd) (node_attrs nd) (f (node_keys nd)).

(** Modelled from the spec: the effect of the host's node deletion
    (section 6, node lifecycle): the scene without node [n] and without the
    connections into or out of it. *)
Definition remove_node (n : string) (sc : scene) : scene :=
  with_connections (filter (λ kv : plug * plug, kv.1.1 ≠ n ∧ kv.2.1 ≠ n))
    (with_nodes (delete n) sc).

(** Modelled from the spec: the unique identifier the host assigns to a new
    node (section 3).  A trailing [#] in a requested name stands for a
    number; the host takes the first one, counting from 1, that makes the
    name unused. *)
Fixpoint strip_hash (s : string) : string :=
  match s with
  | EmptyString => EmptyString
  | String c s' => if bool_decide (s = "#") then EmptyString else String c (strip_hash s')
  end.

Fixpoint first_unused (taken : gset string) (base : string) (fuel k : nat) : string :=
  match fuel with
  | O => base +:+ pretty k
  | S fuel' =>
      if bool_decide (base +:+ pretty k ∈ taken)
      then first_unused taken base fuel' (S k)
      else base +:+ pretty k
  end.

Definition unique_name (ns : gmap string node) (name : string) : string :=
  first_unused (dom ns) (strip_hash name) (size ns) 1.

(** Modelled from the spec: the frames the host's bake samples (section
    4.5, every frame of the range inclusive, unit step): [start],
    [start + 1], ... up to [stop]. *)
Definition sampled_frames (start stop : Z) : list Z :=
  (λ k : nat, (start + Z.of_nat k)%Z) <$> seq 0 (Z.to_nat (stop - start + 1)).

(** Modelled from the spec: the host's keyframe store under a bake: the
    channels [channels] get keys at the frames [frames]; keys already there
    stay. *)
Definition key_channels (frames : gset Z) (channels : list string)
    (ks : gmap string (gset Z)) : gmap string (gset Z) :=
  foldl (λ ks a, <[a := frames ∪ default ∅ (ks !! a)]> ks) ks channels.

(** ** The host commands

    Section 6 of the spec lists what the module consumes from the host
    (existence check, connection primitives, node lifecycle, attribute-based
    persistence, keyframe bake); the host's code is not part of the module.
    Each definition below gives one command, with the flags the module
    passes, its meaning on [scene].  Where the host's answer on a missing
    object matters it is stated at the command. *)
Module cmds.

(** Modelled from the spec: the host's [cmds.objExists(name)]. *)
Definition objExists (name : string) : py scene bool :=
  query (λ sc, bool_decide (is_Some (nodes sc !! name))).

(** Modelled from the spec: the host's [cmds.createNode(type, name=...)]: a new, unparented node with no
    dynamic attribute and no connection; returns the name it was given. *)
Definition createNode (type name : string) : py scene string :=
  λ sc, let n := unique_name (nodes sc) name in
        (with_nodes (insert n (Node type None ∅ ∅)) sc, Returned n).

(** Modelled from the spec: the host's [cmds.addAttr(node, longName=..., attributeType=... | dataType=...)]. *)
Definition addAttr (n longName : string) (kind : attr_kind) : py scene unit :=
  λ sc, match nodes sc !! n with
        | None => (sc, Raised ValueError)
        | Some nd =>
            match node_attrs nd !! longName with
            | Some _ => (sc, Raised RuntimeError)
            | None =>
                (with_nodes (insert n (with_attrs (insert longName (initial_value kind)) nd)) sc,
                 Returned tt)
            end
        end.

(** Modelled from the spec: the host's [cmds.setAttr("node.attr", value)] on a dynamic attribute. *)
Definition setAttr (p : plug) (v : attr_value) : py scene unit :=
  λ sc, match nodes sc !! p.1 with
        | None => (sc, Raised ValueError)
        | Some nd =>
            match node_attrs nd !! p.2 with
            | None => (sc, Raised RuntimeError)
            | Some _ =>
                (with_nodes (insert p.1 (with_attrs (insert p.2 v) nd)) sc, Returned tt)
            end
        end.

(** Modelled from the spec: the host's [cmds.getAttr("node.attr")] on a dynamic attribute. *)
Definition getAttr (p : plug) : py scene attr_value :=
  λ sc, match nodes sc !! p.1 with
        | None => (sc, Raised ValueError)
        | Some nd =>
            match node_attrs nd !! p.2 with
            | None => (sc, Raised ValueError)
            | Some v => (sc, Returned v)
            end
        end.

(** Modelled from the spec: the host's [cmds.attributeQuery(attr, node=node, exists=True)]
    (section 6, attribute-based persistence): whether the node carries the
    attribute; the value stored in it plays no part.  As with the other
    commands that are given a node, a name that is no node of the scene is an
    error. *)
Definition attributeQuery_exists (attr n : string) : py scene bool :=
  λ sc, match nodes sc !! n with
        | None => (sc, Raised RuntimeError)
        | Some nd => (sc, Returned (bool_decide (is_Some (node_attrs nd !! attr))))
        end.

(** Modelled from the spec: the node on the source side of a plug, if it is
    driven (section 6, connection primitives). *)
Definition sources_of (sc : scene) (p : plug) : list string :=
  match connections sc !! p with
  | Some src => [src.1]
  | None => []
  end.

(** Modelled from the spec: the nodes on the destination side of a plug
    (section 6, connection primitives). *)
Definition destinations_of (sc : scene) (p : plug) : list string :=
  (λ kv : plug * plug, kv.1.1) <$>
    filter (λ kv : plug * plug, kv.2 = p) (map_to_list (connections sc)).

(** Modelled from the spec: the host's [cmds.listConnections("node.attr", source=True)]: the connected node
    names.  The [destination] flag is left at its default, so both sides
    are listed, the source side first.  The host answers [None] when there
    is none; the module only tests the answer for truth, so the empty list
    stands for it. *)
Definition listConnections (p : plug) : py scene (list string) :=
  λ sc, match nodes sc !! p.1 with
        | None => (sc, Raised ValueError)
        | Some _ => (sc, Returned (sources_of sc p ++ destinations_of sc p))
        end.

(** Modelled from the spec: the host's
    [cmds.listConnections("node.attr", source=True, destination=False)]: the
    node that drives the plug, if there is one; the empty list stands for the
    host's [None]. *)
Definition listConnections_sources (p : plug) : py scene (list string) :=
  λ sc, match nodes sc !! p.1 with
        | None => (sc, Raised ValueError)
        | Some _ => (sc, Returned (sources_of sc p))
        end.

(** Modelled from the spec: the host's [cmds.listConnections("node.attr", source=True, destination=False,
    plugs=True, connections=True, skipConversionNodes=False)]: a flat list
    that alternates the queried plug and the plug that drives it. *)
Definition listConnections_plugs (p : plug) : py scene (list plug) :=
  λ sc, match nodes sc !! p.1 with
        | None => (sc, Raised ValueError)
        | Some _ =>
            (sc, Returned match connections sc !! p with
                          | Some src => [p; src]
                          | None => []
                          end)
        end.

(** Modelled from the spec: the host's [cmds.connectAttr(src, dst)]: both nodes must exist and the destination
    must not be driven already. *)
Definition connectAttr (src dst : plug) : py scene unit :=
  λ sc, match nodes sc !! src.1, nodes sc !! dst.1, connections sc !! dst with
        | Some _, Some _, None => (with_connections (insert dst src) sc, Returned tt)
        | _, _, _ => (sc, Raised RuntimeError)
        end.

(** Modelled from the spec: the host's [cmds.disconnectAttr(src, dst)]: fails unless [src] drives [dst]. *)
Definition disconnectAttr (src dst : plug) : py scene unit :=
  λ sc, if bool_decide (connections sc !! dst = Some src)
        then (with_connections (delete dst) sc, Returned tt)
        else (sc, Raised RuntimeError).

(** Modelled from the spec: the host's [cmds.delete(node)]: removes the node and every connection into or out
    of it. *)
Definition delete (n : string) : py scene unit :=
  λ sc, match nodes sc !! n with
        | None => (sc, Raised ValueError)
        | Some _ => (remove_node n sc, Returned tt)
        end.

(** Modelled from the spec: the host's [cmds.nodeType(node)]. *)
Definition nodeType (n : string) : py scene string :=
  λ sc, match nodes sc !! n with
        | None => (sc, Raised RuntimeError)
        | Some nd => (sc, Returned (node_type nd))
        end.

(** Modelled from the spec: the host's [cmds.listRelatives(node, parent=True)]; the empty list stands for the
    host's [None]. *)
Definition listRelatives_parent (n : string) : py scene (list string) :=
  λ sc, match nodes sc !! n with
        | None => (sc, Raised ValueError)
        | Some nd => (sc, Returned (option_list (node_parent nd)))
        end.

(** Modelled from the spec: the host's [cmds.ls(type=t)], in the host's enumeration order. *)
Definition ls_type (t : string) : py scene (list string) :=
  query (λ sc, (λ kv : string * node, kv.1) <$>
                 filter (λ kv : string * node, node_type kv.2 = t) (map_to_list (nodes sc))).

(** Modelled from the spec: the host's [cmds.bakeResults(target, simulation=True, time=(start, end),
    sampleBy=1, ..., attribute=attrs)]: keys every listed channel of the
    target at each sampled frame, keeping the keys it already has. *)
Definition bakeResults (target : string) (start stop : Z) (attribute : list string)
    : py scene unit :=
  λ sc, match nodes sc !! target with
        | None => (sc, Raised ValueError)
        | Some nd =>
            let baked := list_to_set (sampled_frames start stop) : gset Z in
            (with_nodes (insert target (with_keys (key_channels baked attribute) nd)) sc,
             Returned tt)
        end.

(** Modelled from the spec: the host's [cmds.evaluationManager(q=True, mode=True)]. *)
Definition evaluationManager_query_mode : py scene (list string) :=
  query (λ sc, [evaluation_mode (ui sc)]).

(** Modelled from the spec: the host's [cmds.evaluationManager(mode=m)]. *)
Definition evaluationManager_mode (m : string) : py scene unit :=
  update (with_ui (λ u, UiState m (main_pane_managed u) (refresh_suspended u)
                          (time_slider_visible u))).

(** Modelled from the spec: the host's [cmds.refresh(suspend=b)]. *)
Definition refresh_suspend (b : bool) : py scene unit :=
  update (with_ui (λ u, UiState (evaluation_mode u) (main_pane_managed u) b
                          (time_slider_visible u))).

(** Modelled from the spec: the host's [cmds.refresh()]: a redraw; no state of the model changes. *)
Definition refresh : py scene unit := ret tt.

End cmds.

Module mel.

(** Modelled from the spec: the host's [mel.eval(command)], for the four command lines the module sends. *)
Definition eval (command : string) : py scene unit :=
  if bool_decide (command = "paneLayout -e -manage false $gMainPane") then
    update (with_ui (λ u, UiState (evaluation_mode u) false (refresh_suspended u)
                            (time_slider_visible u)))
  else if bool_decide (command = "paneLayout -e -manage true $gMainPane") then
    update (with_ui (λ u, UiState (evaluation_mode u) true (refresh_suspended u)
                            (time_slider_visible u)))
  else if bool_decide (command = "setTimeSliderVisible 0;") then
    update (with_ui (λ u, UiState (evaluation_mode u) (main_pane_managed u)
                            (refresh_suspended u) false))
  else if bool_decide (command = "setTimeSliderVisible 1;") then
    update (with_ui (λ u, UiState (evaluation_mode u) (main_pane_managed u)
                            (refresh_suspended u) true))
  else raise RuntimeError.

End mel.

(** ** Constants *)

Definition NETWORK_NODE_IDENTIFIER : string := "relMatrixConstraintData".
Definition NETWORK_NODE_PREFIX : string := "relMtxConstraint".

(** ** Python values used below *)

(** Truth of a value that is [None] or a string: [None] and [''] are false. *)
Definition truthy (v : option string) : bool :=
  match v with
  | Some s => bool_decide (s ≠ "")
  | None => false
  end.

(** [for x in xs: body(x)], for a body that assigns no loop variable. *)
Definition for_in {S B} (xs : list B) (body : B → py S unit) : py S unit :=
  for_each xs tt (λ _ x, body x).

(** [(conns[i], conns[i + 1]) for i in range(0, len(conns), 2)]. *)
Fixpoint pairs {A} (conns : list A) : list (A * A) :=
  match conns with
  | a :: b :: rest => (a, b) :: pairs rest
  | _ => []
  end.

Definition is_RuntimeError (e : exn) : bool :=
  match e with RuntimeError => true | ValueError => false end.

(** [str(e)] of a host exception; the host's wording is not modelled. *)
Definition str_exn (e : exn) : string :=
  match e with RuntimeError => "RuntimeError" | ValueError => "ValueError" end.

(** ** Decorators *)

(** [viewport_off(func)]: the wrapper [wrap] it returns, applied to the
    call it wraps. *)
Definition viewport_off {A} (func : py scene A) : py scene A :=
  (* Check if parallel evaluation is on *)
  let! mode := cmds.evaluationManager_query_mode in
  let! parallel :=
    (if bool_decide ("parallel" ∈ mode)
     then do! cmds.evaluationManager_mode "off" in ret true
     else ret false) in
  (* Turn $gMainPane Off *)
  do! mel.eval "paneLayout -e -manage false $gMainPane" in
  do! cmds.refresh_suspend true in
  (* Hide the timeslider *)
  do! mel.eval "setTimeSliderVisible 0;" in
  try_finally
    (try_except func (λ e, raise e))
    (do! cmds.refresh_suspend false in
     do! mel.eval "setTimeSliderVisible 1;" in
     do! (if parallel : bool then cmds.evaluationManager_mode "parallel" else ret tt) in
     do! mel.eval "paneLayout -e -manage true $gMainPane" in
     cmds.refresh).

(** ** Core functions *)

Definition _bake_with_viewport_off (target : string) (start stop : Z) : py scene unit :=
  viewport_off
    (cmds.bakeResults target start stop ["tx"; "ty"; "tz"; "rx"; "ry"; "rz"]).

Definition find_constraint_network_nodes : py scene (list string) :=
  let! network_nodes := cmds.ls_type "network" in
  for_each network_nodes [] (λ constraint_nodes node,
    let! marked := cmds.attributeQuery_exists NETWORK_NODE_IDENTIFIER node in
    if marked : bool then ret (constraint_nodes ++ [node]) else ret constraint_nodes).

(** The dictionary [get_constraint_data] returns: its keys are fixed, so it
    is a record; [None] is [None]. *)
Record constraint_data : Type := ConstraintData {
  network_node : string;
  display_name : string;
  source_ref : option string;
  source_driven : option string;
  target_ref : option string;
  target_driven : option string;
  mult_matrix : option string;
  decompose_matrix : option string
}.

(** [data[data_key] = v] for the six reference keys. *)
Definition set_item (data : constraint_data) (data_key : string) (v : option string)
    : constraint_data :=
  let '(ConstraintData n dn sr sd tr td mm dm) := data in
  if bool_decide (data_key = "source_ref") then ConstraintData n dn v sd tr td mm dm
  else if bool_decide (data_key = "source_driven") then ConstraintData n dn sr v tr td mm dm
  else if bool_decide (data_key = "target_ref") then ConstraintData n dn sr sd v td mm dm
  else if bool_decide (data_key = "target_driven") then ConstraintData n dn sr sd tr v mm dm
  else if bool_decide (data_key = "mult_matrix") then ConstraintData n dn sr sd tr td v dm
  else if bool_decide (data_key = "decompose_matrix") then ConstraintData n dn sr sd tr td mm v
  else data.

Definition attr_map : list (string * string) :=
  [("sourceRef", "source_ref");
   ("sourceDriven", "source_driven");
   ("targetRef", "target_ref");
   ("targetDriven", "target_driven");
   ("multMatrixNode", "mult_matrix");
   ("decomposeMatrixNode", "decompose_matrix")].

Definition get_constraint_data (network_node : string) : py scene constraint_data :=
  let data := ConstraintData network_node "" None None None None None None in
  (* Get display name *)
  let! has_name := cmds.attributeQuery_exists "displayName" network_node in
  let! data :=
    (if has_name : bool
     then let! v := cmds.getAttr (network_node, "displayName") in
          ret (ConstraintData network_node
                 match v with StringValue (Some s) => s | _ => "" end
                 None None None None None None)
     else ret data) in
  (* Get connected objects via message attributes *)
  for_each attr_map data (λ data '(attr_name, data_key),
    let! has_attr := cmds.attributeQuery_exists attr_name network_node in
    if has_attr : bool
    then let! connections := cmds.listConnections (network_node, attr_name) in
         match connections with
         | c :: _ => ret (set_item data data_key (Some c))
         | [] => ret data
         end
    else ret data).

Definition create_constraint_network_node
    (source_ref source_driven target_ref target_driven mult_matrix decompose_matrix : string)
    : py scene string :=
  (* Create network node *)
  let! network_node := cmds.createNode "network" (NETWORK_NODE_PREFIX +:+ "_data#") in
  (* Add identifier attribute *)
  do! cmds.addAttr network_node NETWORK_NODE_IDENTIFIER BoolAttr in
  do! cmds.setAttr (network_node, NETWORK_NODE_IDENTIFIER) (BoolValue true) in
  (* Add display name attribute *)
  do! cmds.addAttr network_node "displayName" StringAttr in
  let display_name := source_driven +:+ " â†’ " +:+ target_driven in
  do! cmds.setAttr (network_node, "displayName") (StringValue (Some display_name)) in
  (* Add message attributes for connections *)
  do! for_in ["sourceRef"; "sourceDriven"; "targetRef"; "targetDriven";
              "multMatrixNode"; "decomposeMatrixNode"]
        (λ attr_name, cmds.addAttr network_node attr_name MessageAttr) in
  (* Connect objects to network node *)
  let connections :=
    [(source_ref, "sourceRef");
     (source_driven, "sourceDriven");
     (target_ref, "targetRef");
     (target_driven, "targetDriven");
     (mult_matrix, "multMatrixNode");
     (decompose_matrix, "decomposeMatrixNode")] in
  do! for_in connections
        (λ '(obj, attr), cmds.connectAttr (obj, "message") (network_node, attr)) in
  ret network_node.

Definition create_relative_matrix_constraint
    (source_ref source_driven target_ref target_driven : string) : py scene string :=
  let name_prefix := NETWORK_NODE_PREFIX in
  (* Create multMatrix node *)
  let! mult_matrix := cmds.createNode "multMatrix" (name_prefix +:+ "_multMatrix#") in
  (* Connect matrices in order *)
  do! cmds.connectAttr (source_driven, "worldMatrix[0]") (mult_matrix, "matrixIn[0]") in
  do! cmds.connectAttr (source_ref, "worldInverseMatrix[0]") (mult_matrix, "matrixIn[1]") in
  do! cmds.connectAttr (target_ref, "worldMatrix[0]") (mult_matrix, "matrixIn[2]") in
  (* Handle parent space of target_driven *)
  let! target_parent := cmds.listRelatives_parent target_driven in
  do! match target_parent with
      | p :: _ => cmds.connectAttr (p, "worldInverseMatrix[0]") (mult_matrix, "matrixIn[3]")
      | [] => ret tt
      end in
  (* Create decomposeMatrix *)
  let! decompose := cmds.createNode "decomposeMatrix" (name_prefix +:+ "_decomposeMatrix#") in
  do! cmds.connectAttr (mult_matrix, "matrixSum") (decompose, "inputMatrix") in
  (* Connect to target *)
  do! cmds.connectAttr (decompose, "outputTranslate") (target_driven, "translate") in
  do! cmds.connectAttr (decompose, "outputRotate") (target_driven, "rotate") in
  (* Create network node to store metadata *)
  create_constraint_network_node source_ref source_driven target_ref target_driven
    mult_matrix decompose.

(** [if name and cmds.objExists(name): cmds.delete(name)]. *)
Definition delete_if_exists (name : option string) : py scene unit :=
  match name with
  | Some n =>
      if truthy name
      then let! found := cmds.objExists n in
           if found : bool then cmds.delete n else ret tt
      else ret tt
  | None => ret tt
  end.

Definition delete_constraint (network_node : string) : py scene unit :=
  let! data := get_constraint_data network_node in
  (* Disconnect and delete the matrix nodes *)
  do! delete_if_exists (decompose_matrix data) in
  do! delete_if_exists (mult_matrix data) in
  (* Delete the network node *)
  let! found := cmds.objExists network_node in
  if found : bool then cmds.delete network_node else ret tt.

Definition scene_object_types : list string :=
  ["transform"; "joint"; "mesh"; "nurbsCurve"; "nurbsSurface"].

Definition transform_attrs : list string :=
  ["translate"; "rotate"; "tx"; "ty"; "tz"; "rx"; "ry"; "rz"].

(** The body of the inner loop of [remove_connections_from_target]: one
    incoming connection [src_plug -> dest_plug]. *)
Definition remove_one_connection (keep_anim_curves : bool)
    (nodes_to_delete : gset string) (conn : plug * plug) : py scene (gset string) :=
  let '(dest_plug, src_plug) := conn in
  let src_node := src_plug.1 in
  let! node_type := cmds.nodeType src_node in
  (* Skip animCurves if we want to keep them (post-bake cleanup) *)
  if keep_anim_curves && String.prefix "animCurve" node_type
  then ret nodes_to_delete
  else
    (* Disconnect first *)
    do! try_except_pass is_RuntimeError (cmds.disconnectAttr src_plug dest_plug) in
    (* Mark source node for deletion (skip scene objects) *)
    if bool_decide (node_type ∉ scene_object_types)
    then
      let nodes_to_delete := {[src_node]} ∪ nodes_to_delete in
      if bool_decide (node_type = "decomposeMatrix")
      then let! mult_conn := cmds.listConnections (src_node, "inputMatrix") in
           match mult_conn with
           | m :: _ => ret ({[m]} ∪ nodes_to_delete)
           | [] => ret nodes_to_delete
           end
      else ret nodes_to_delete
    else ret nodes_to_delete.

(** The last loop: [if cmds.objExists(node): try: cmds.delete(node) except
    RuntimeError: pass]. *)
Definition delete_marked (node : string) : py scene unit :=
  let! found := cmds.objExists node in
  if found : bool then try_except_pass is_RuntimeError (cmds.delete node) else ret tt.

(** [nodes_to_delete] is a Python set; it is walked here in the order
    [elements] gives. *)
Definition remove_connections_from_target (target : string) (keep_anim_curves : bool)
    : py scene unit :=
  let attrs := transform_attrs in
  let! nodes_to_delete :=
    for_each attrs (∅ : gset string) (λ nodes_to_delete attr,
      let full_attr := (target, attr) in
      let! conns := cmds.listConnections_plugs full_attr in
      for_each (pairs conns) nodes_to_delete (remove_one_connection keep_anim_curves)) in
  for_in (elements nodes_to_delete) delete_marked.

(** ** The tool window

    The fields of [RelativeMatrixConstraintUI] that the bake slot reads or
    writes, next to the host scene the window acts on. *)

Inductive status_style : Type := StatusPlain | StatusError | StatusSuccess.

Record window : Type := Window {
  host : scene;
  start_frame_spin : Z;
  end_frame_spin : Z;
  status_label : string * status_style;
  constraints_list : list (string * string)   (* (network_node, label shown) *)
}.

(** A call of a module-level function from a method of the window. *)
Definition in_host {A} (c : py scene A) : py window A :=
  λ w, match c (host w) with
       | (sc, r) =>
           (Window sc (start_frame_spin w) (end_frame_spin w) (status_label w)
              (constraints_list w), r)
       end.

Definition _set_status (message : string) (style : status_style) : py window unit :=
  update (λ w, Window (host w) (start_frame_spin w) (end_frame_spin w) (message, style)
                 (constraints_list w)).

Definition _refresh_constraint_list : py window unit :=
  do! update (λ w, Window (host w) (start_frame_spin w) (end_frame_spin w)
                     (status_label w) []) in
  let! network_nodes := in_host find_constraint_network_nodes in
  do! for_in network_nodes (λ network_node,
        let! data := in_host (get_constraint_data network_node) in
        let shown := if bool_decide (display_name data ≠ "")
                     then display_name data else network_node in
        update (λ w, Window (host w) (start_frame_spin w) (end_frame_spin w)
                       (status_label w) (constraints_list w ++ [(network_node, shown)]))) in
  let count := length network_nodes in
  if bool_decide (count = 0%nat)
  then _set_status "No constraints found in scene" StatusPlain
  else _set_status ("Found " +:+ pretty count +:+ " constraint(s)") StatusPlain.

(** [_on_bake_single]: the slot behind a list item's Bake button.  The
    event-loop yield between the status update and the bake changes nothing
    here. *)
Definition _on_bake_single (network_node : string) : py window unit :=
  let! data := in_host (get_constraint_data network_node) in
  let! found :=
    match target_driven data with
    | Some t => if truthy (Some t) then in_host (cmds.objExists t) else ret false
    | None => ret false
    end in
  match target_driven data, found with
  | Some target, true =>
      let! start := query start_frame_spin in
      let! stop := query end_frame_spin in
      do! _set_status ("Baking " +:+ target +:+ "...") StatusPlain in
      try_except
        (do! in_host (_bake_with_viewport_off target start stop) in
         (* Delete the constraint (network node + matrix nodes) *)
         do! in_host (delete_constraint network_node) in
         do! _set_status ("Baked " +:+ target +:+ " and removed constraint") StatusSuccess in
         _refresh_constraint_list)
        (λ e, _set_status ("Bake error: " +:+ str_exn e) StatusError)
  | _, _ => _set_status "Target object not found" StatusError
  end.

(** ** Verification

    [_verify_constraint] reads transforms through the host's object API
    and works on the host's matrices.  Matrix product, inverse and element
    access belong to the host's matrix class; they are parameters here.  The
    numbers are the interpreter's floats: IEEE binary64. *)
Section Verification.

Variable Host : Type.
Variable Matrix : Type.

(** Modelled from the spec: the host's world transform read (section 6,
    [world_matrix(object_ref)]): the world transform the host scene holds
    for the object at the time of the call.  The module reads it in
    [get_world_matrix] as
    [MFnTransform(sel.getDagPath(0)).transformation().asMatrix()] after
    [sel.add(obj)]; the answer is [None] when no object of the scene matches
    [obj], where [sel.add] raises. *)
Variable world_matrix : Host → string → option Matrix.
(** [a * b], [m.inverse()] and [m.getElement(i, j)] of the host's matrices. *)
Variable mmul : Matrix → Matrix → Matrix.
Variable inverse : Matrix → Matrix.
Variable getElement : Matrix → nat → nat → float.

Definition get_world_matrix (obj : string) : py Host Matrix :=
  λ h, match world_matrix h obj with
       | Some m => (h, Returned m)
       | None => (h, Raised RuntimeError)
       end.

Definition get_local_offset (ref_obj driven_obj : string) : py Host Matrix :=
  let! ref_matrix := get_world_matrix ref_obj in
  let! driven_matrix := get_world_matrix driven_obj in
  ret (mmul driven_matrix (inverse ref_matrix)).

(** [max(a, b)] on floats: [b] only if [b > a]. *)
Definition py_max (a b : float) : float := if (a <? b)%float then b else a.

(** [abs(s.getElement(i, j) - t.getElement(i, j))]. *)
Definition abs_diff (s t : Matrix) (i j : nat) : float :=
  PrimFloat.abs (getElement s i j - getElement t i j)%float.

(** The default of the [tolerance] parameter, [0.001]: the binary64 number
    nearest to it. *)
Definition default_tolerance : float := 0x1.0624dd2f1a9fcp-10%float.

Definition _verify_constraint
    (source_ref source_driven target_ref target_driven : string)
    (tolerance : option float) : py Host (bool * float) :=
  let tolerance := default default_tolerance tolerance in
  let! source_offset := get_local_offset source_ref source_driven in
  let! target_offset := get_local_offset target_ref target_driven in
  let max_diff :=
    foldl (λ max_diff i,
             foldl (λ max_diff j, py_max max_diff (abs_diff source_offset target_offset i j))
               max_diff (seq 0 4))
      0%float (seq 0 4) in
  ret ((max_diff <? tolerance)%float, max_diff).

(** The sixteen absolute differences, in the order the loops visit them. *)
Definition all_abs_diffs (s t : Matrix) : list float :=
  i ← seq 0 4; j ← seq 0 4; [abs_diff s t i j].

End Verification.

(** ** Reading the scene as a whole

    Notions the statements below are phrased with.  They are read off the
    scene; no function of the module computes them. *)

(** Every connection joins two nodes of the scene, and every parent is a
    node of the scene. *)
Definition scene_wf (sc : scene) : Prop :=
  map_Forall (λ (dst src : plug), is_Some (nodes sc !! dst.1) ∧ is_Some (nodes sc !! src.1))
    (connections sc)
  ∧ map_Forall (λ (_ : string) (nd : node),
                  node_parent nd = None ∨ is_Some (node_parent nd ≫= (nodes sc !!.)))
      (nodes sc).

(** What the reference attribute [attr] of node [n] resolves to: the first
    node connected to it, when the node and the attribute exist. *)
Definition resolved (sc : scene) (n attr : string) : option string :=
  match nodes sc !! n with
  | Some nd =>
      if bool_decide (is_Some (node_attrs nd !! attr))
      then head (cmds.sources_of sc (n, attr) ++ cmds.destinations_of sc (n, attr))
      else None
  | None => None
  end.

(** The label stored on node [n]; [''] when there is none. *)
Definition stored_label (sc : scene) (n : string) : string :=
  match nodes sc !! n with
  | Some nd =>
      match node_attrs nd !! "displayName" with
      | Some (StringValue (Some s)) => s
      | _ => ""
      end
  | None => ""
  end.

(** The six reference attributes of a record node, in the order of
    [attr_map]. *)
Definition reference_attrs : list string := attr_map.*1.

(** The six reference fields of a record that was read. *)
Definition references (data : constraint_data) : list (option string) :=
  [source_ref data; source_driven data; target_ref data; target_driven data;
   mult_matrix data; decompose_matrix data].

(** The keyed frames of a channel of a node. *)
Definition keyed_frames (sc : scene) (n channel : string) : gset Z :=
  match nodes sc !! n with
  | Some nd => default ∅ (node_keys nd !! channel)
  | None => ∅
  end.

(** The driven plugs of node [n], with what drives each. *)
Definition wired_inputs (sc : scene) (n : string) : gmap plug plug :=
  filter (λ kv : plug * plug, kv.1.1 = n) (connections sc).

(** Whether the discovery marker exists on node [n]. *)
Definition has_marker (sc : scene) (n : string) : bool :=
  match nodes sc !! n with
  | Some nd => bool_decide (is_Some (node_attrs nd !! NETWORK_NODE_IDENTIFIER))
  | None => false
  end.

(** The dynamic attributes of a record node as creation leaves them. *)
Definition record_attrs (label : string) : gmap string attr_value :=
  <["decomposeMatrixNode" := MessageValue]>
    (<["multMatrixNode" := MessageValue]>
       (<["targetDriven" := MessageValue]>
          (<["targetRef" := MessageValue]>
             (<["sourceDriven" := MessageValue]>
                (<["sourceRef" := MessageValue]>
                   (<["displayName" := StringValue (Some label)]>
                      (<["displayName" := StringValue None]>
                         (<[NETWORK_NODE_IDENTIFIER := BoolValue true]>
                            (<[NETWORK_NODE_IDENTIFIER := BoolValue false]> ∅))))))))).

(** The six message links of a record node [net]. *)
Definition record_links (net a b c d m n : string) (cs : gmap plug plug) : gmap plug plug :=
  <[(net, "decomposeMatrixNode") := (n, "message")]>
    (<[(net, "multMatrixNode") := (m, "message")]>
       (<[(net, "targetDriven") := (d, "message")]>
          (<[(net, "targetRef") := (c, "message")]>
             (<[(net, "sourceDriven") := (b, "message")]>
                (<[(net, "sourceRef") := (a, "message")]> cs))))).

(** The scene [create_relative_matrix_constraint] leaves behind, for the
    names [m], [d], [net] the host gave to the combiner, the applier and the
    record node. *)
Definition built_scene (sc : scene) (sr sd tr td m d net : string) (parent : option string)
    : scene :=
  let ns := <[d := Node "decomposeMatrix" None ∅ ∅]>
              (<[m := Node "multMatrix" None ∅ ∅]> (nodes sc)) in
  let cs3 := <[(m, "matrixIn[2]") := (tr, "worldMatrix[0]")]>
               (<[(m, "matrixIn[1]") := (sr, "worldInverseMatrix[0]")]>
                  (<[(m, "matrixIn[0]") := (sd, "worldMatrix[0]")]> (connections sc))) in
  let cs4 := match parent with
             | Some p => <[(m, "matrixIn[3]") := (p, "worldInverseMatrix[0]")]> cs3
             | None => cs3
             end in
  let cs7 := <[(td, "rotate") := (d, "outputRotate")]>
               (<[(td, "translate") := (d, "outputTranslate")]>
                  (<[(d, "inputMatrix") := (m, "matrixSum")]> cs4)) in
  Scene (<[net := Node "network" None (record_attrs (sd +:+ " â†’ " +:+ td)) ∅]> ns)
    (record_links net sr sd tr td m d cs7) (ui sc).

(** Whether the disconnect loop skips the connection from [src]: only with
    [keep_anim_curves], and only when the source node is of the animation
    curve family. *)
Definition spared (keep_anim_curves : bool) (sc : scene) (src : plug) : bool :=
  keep_anim_curves
  && match nodes sc !! src.1 with
     | Some nd => String.prefix "animCurve" (node_type nd)
     | None => false
     end.

(** What is left on a plug of the target after the disconnect loop. *)
Definition left_connected (keep_anim_curves : bool) (sc : scene) (p : plug) : option plug :=
  match connections sc !! p with
  | Some src => if spared keep_anim_curves sc src then Some src else None
  | None => None
  end.

(** ** Concrete hosts and scenes used to run the definitions *)

(** A host for verification: 4x4 matrices as rows of floats, row-vector
    convention (the translation is the last row). *)
Definition matrix4 : Type := list (list float).

Definition m4_get (m : matrix4) (i j : nat) : float :=
  default 0%float (default [] (m !! i) !! j).

Definition m4_mul (a b : matrix4) : matrix4 :=
  (λ i, (λ j, foldl (λ acc k, (acc + m4_get a i k * m4_get b k j)%float) 0%float (seq 0 4))
          <$> seq 0 4) <$> seq 0 4.

(** The inverse of a pure translation: the translation row negated. *)
Definition m4_translation_inverse (m : matrix4) : matrix4 :=
  (λ i, (λ j, if bool_decide (i = 3%nat ∧ j ≠ 3%nat)
              then (- m4_get m i j)%float else m4_get m i j) <$> seq 0 4) <$> seq 0 4.

Definition m4_translate (x y z : float) : matrix4 :=
  [[1; 0; 0; 0]; [0; 1; 0; 0]; [0; 0; 1; 0]; [x; y; z; 1]]%float.

Definition demo_transforms : gmap string matrix4 :=
  <["hand1" := m4_translate 1 0 0]>
    (<["prop1" := m4_translate 3 2 0]>
       (<["hand2" := m4_translate 10 5 0]>
          (<["prop2" := m4_translate 12 7 0]> ∅))).

Definition demo_lookup (h : gmap string matrix4) (obj : string) : option matrix4 := h !! obj.

(** The same host after [prop2] was moved half a unit along y. *)
Definition demo_moved_transforms : gmap string matrix4 :=
  <["prop2" := m4_translate 12 7.5 0]> demo_transforms.

(** The scene of the spec's scenario: two hands and two props, the second
    prop parented under a group; nothing is connected yet.  The two
    computation nodes are there for the store's round trip. *)
Definition demo_ui : ui_state := UiState "parallel" true false true.

Definition demo_scene : scene :=
  Scene
    (<["hand1" := Node "joint" None ∅ ∅]>
       (<["prop1" := Node "transform" None ∅ ∅]>
          (<["hand2" := Node "joint" None ∅ ∅]>
             (<["prop2" := Node "transform" (Some "propGrp2") ∅ ∅]>
                (<["propGrp2" := Node "transform" None ∅ ∅]>
                   (<["mult1" := Node "multMatrix" None ∅ ∅]>
                      (<["decomp1" := Node "decomposeMatrix" None ∅ ∅]> ∅)))))))
    ∅ demo_ui.

(** The same scene with [prop2] at the top level. *)
Definition demo_scene_unparented : scene :=
  with_nodes (insert "prop2" (Node "transform" None ∅ ∅)) demo_scene.

(** The demo scene after a record was stored for the two pairs. *)
Definition demo_record_scene : scene :=
  (create_constraint_network_node "hand1" "prop1" "hand2" "prop2" "mult1" "decomp1"
     demo_scene).1.

(** The demo scene after [create_relative_matrix_constraint] on the two
    pairs, and the tool window over it with the frame range 1 to 3. *)
Definition demo_built_scene : scene :=
  (create_relative_matrix_constraint "hand1" "prop1" "hand2" "prop2" demo_scene).1.

Definition demo_window : window :=
  Window demo_built_scene 1 3 ("", StatusPlain) [].

(** The same window after [prop2] was deleted behind the tool's back. *)
Definition demo_window_without_target : window :=
  Window (remove_node "prop2" demo_built_scene) 1 3 ("", StatusPlain) [].

(** The built demo scene with two more drivers on [prop2]: an animation
    curve on [tx] and a locator's transform on [rz]. *)
Definition demo_driven_scene : scene :=
  with_connections
    (λ cs, <[("prop2", "rz") := ("locator1", "rz")]>
             (<[("prop2", "tx") := ("prop2_translateX", "output")]> cs))
    (with_nodes
       (λ ns, <["locator1" := Node "transform" None ∅ ∅]>
                (<["prop2_translateX" := Node "animCurveTL" None ∅ ∅]> ns))
       demo_built_scene).

(** A target whose applier is fed by a transform directly, with no combiner
    in between. *)
Definition demo_direct_scene : scene :=
  Scene
    (<["prop2" := Node "transform" None ∅ ∅]>
       (<["locator1" := Node "transform" None ∅ ∅]>
          (<["decomp1" := Node "decomposeMatrix" None ∅ ∅]> ∅)))
    (<[("prop2", "translate") := ("decomp1", "outputTranslate")]>
       (<[("decomp1", "inputMatrix") := ("locator1", "worldMatrix[0]")]> ∅))
    demo_ui.

(** ** The other slots of the tool window

    The slots behind Create Constraint, Bake All and Delete Selected, with
    the validation they start from.  They read the four line edits of the
    window and, in one place, write to the interpreter's standard output;
    [dialog] adds these to [window]. *)

(** What one pass of a loop body asks for: the next pass, or [break]. *)
Inductive flow (A : Type) : Type :=
  | Continue (a : A)
  | Break (a : A).
Arguments Continue {A} a.
Arguments Break {A} a.

(** [for x in xs: acc = body(acc, x)] with a [break] in the body. *)
Fixpoint for_each_break {S A B} (xs : list B) (acc : A) (body : A → B → py S (flow A))
    : py S A :=
  match xs with
  | [] => ret acc
  | x :: xs' =>
      let! r := body acc x in
      match r with
      | Continue acc' => for_each_break xs' acc' body
      | Break acc' => ret acc'
      end
  end.

(** [for x in xs: body(x)] with a [return v] in the body: [Some v] ends the
    loop and the function around it; [None] is the loop running out. *)
Fixpoint for_return {S B R} (xs : list B) (body : B → py S (option R)) : py S (option R) :=
  match xs with
  | [] => ret None
  | x :: xs' =>
      let! r := body x in
      match r with
      | Some v => ret (Some v)
      | None => for_return xs' body
      end
  end.

Record dialog : Type := Dialog {
  win : window;
  source_ref_field : string;
  source_driven_field : string;
  target_ref_field : string;
  target_driven_field : string;
  stdout : list string                      (* the lines printed so far *)
}.

(** A method of the window that touches neither the line edits nor the
    standard output. *)
Definition in_window {A} (c : py window A) : py dialog A :=
  λ d, match c (win d) with
       | (w, r) =>
           (Dialog w (source_ref_field d) (source_driven_field d) (target_ref_field d)
              (target_driven_field d) (stdout d), r)
       end.

(** [print(line)]. *)
Definition print (line : string) : py dialog unit :=
  update (λ d, Dialog (win d) (source_ref_field d) (source_driven_field d)
                 (target_ref_field d) (target_driven_field d) (stdout d ++ [line])).

(** The dictionary [_get_objects] returns: its four keys are fixed, so it is
    a record; [items] lists it in the order the keys were inserted, the order
    a loop over [objs.items()] follows. *)
Record objects : Type := Objects {
  objs_source_ref : string;
  objs_source_driven : string;
  objs_target_ref : string;
  objs_target_driven : string
}.

Definition items (objs : objects) : list (string * string) :=
  [("source_ref", objs_source_ref objs);
   ("source_driven", objs_source_driven objs);
   ("target_ref", objs_target_ref objs);
   ("target_driven", objs_target_driven objs)].

Definition newline : string := String (Ascii.ascii_of_nat 10) "".

Section Interaction.

(** [s.strip()] of the interpreter's strings. *)
Variable strip : string → string.

(** The user's answer to [QMessageBox.question(self, title, text, Yes | No)]:
    [true] when the answer is Yes. *)
Variable question : string → string → bool.

Definition _get_objects : py dialog objects :=
  query (λ d, Objects (strip (source_ref_field d)) (strip (source_driven_field d))
                (strip (target_ref_field d)) (strip (target_driven_field d))).

(** [_validate_objects]: [None] is the [return None] of the loop, [Some objs]
    the [return objs] after it. *)
Definition _validate_objects : py dialog (option objects) :=
  let! objs := _get_objects in
  let! returned :=
    for_return (items objs) (λ '(key, value),
      if bool_decide (value = "")
      then do! in_window (_set_status ("Missing: " +:+ key) StatusError) in
           ret (Some (None : option objects))
      else let! found := in_window (in_host (cmds.objExists value)) in
           if found : bool
           then ret None
           else do! in_window (_set_status ("Object not found: " +:+ value) StatusError) in
                ret (Some None)) in
  match returned with
  | Some r => ret r
  | None => ret (Some objs)
  end.

Definition _on_create_constraint : py dialog unit :=
  let! objs := _validate_objects in
  match objs with
  | None => ret tt
  | Some objs =>
      (* Check if target already has connections *)
      let target := objs_target_driven objs in
      let attrs_to_check := ["translate"; "rotate"; "tx"; "ty"; "tz"; "rx"; "ry"; "rz"] in
      let! has_connections :=
        for_each_break attrs_to_check false (λ has_connections attr,
          let! conns := in_window (in_host (cmds.listConnections_sources (target, attr))) in
          match conns with
          | _ :: _ => ret (Break true)
          | [] => ret (Continue has_connections)
          end) in
      (* Create the constraint *)
      let create : py dialog unit :=
        try_except
          (let! network_node :=
             in_window (in_host (create_relative_matrix_constraint
                                   (objs_source_ref objs) (objs_source_driven objs)
                                   (objs_target_ref objs) (objs_target_driven objs))) in
           do! in_window (_set_status "Constraint created successfully" StatusSuccess) in
           in_window _refresh_constraint_list)
          (λ e, in_window (_set_status ("Error: " +:+ str_exn e) StatusError)) in
      if has_connections : bool
      then
        if question "Existing Connections"
             (target +:+ " already has incoming connections." +:+ newline
              +:+ "Remove them and create new constraint?")
        then do! in_window (in_host (remove_connections_from_target target false)) in
             create
        else ret tt
      else create
  end.

(** [_on_bake_all]: the slot behind Bake All.  The event-loop yield after
    the first status update changes nothing here. *)
Definition _on_bake_all : py dialog unit :=
  let! network_nodes := in_window (in_host find_constraint_network_nodes) in
  if bool_decide (network_nodes = [])
  then in_window (_set_status "No constraints to bake" StatusError)
  else
    let! start := in_window (query start_frame_spin) in
    let! stop := in_window (query end_frame_spin) in
    do! in_window (_set_status ("Baking " +:+ pretty (length network_nodes)
                                +:+ " constraint(s)...") StatusPlain) in
    let! baked_count :=
      for_each network_nodes 0%nat (λ baked_count network_node,
        let! data := in_window (in_host (get_constraint_data network_node)) in
        let target := target_driven data in
        let! found :=
          match target with
          | Some t => if truthy target then in_window (in_host (cmds.objExists t))
                      else ret false
          | None => ret false
          end in
        match target, found with
        | Some target, true =>
            try_except
              (do! in_window (in_host (_bake_with_viewport_off target start stop)) in
               do! in_window (in_host (delete_constraint network_node)) in
               ret (S baked_count))
              (λ e, do! print ("Error baking " +:+ target +:+ ": " +:+ str_exn e) in
                    ret baked_count)
        | _, _ => ret baked_count
        end) in
    do! in_window (_set_status ("Baked " +:+ pretty baked_count +:+ " constraint(s)")
                     StatusSuccess) in
    in_window _refresh_constraint_list.

(** [_on_delete_selected]: the slot behind Delete Selected.
    [selected_items] is what [self.constraints_list.selectedItems()] answers:
    rows of the list, each with its item widget. *)
Definition _on_delete_selected (selected_items : list (string * string)) : py window unit :=
  if bool_decide (selected_items = [])
  then _set_status "No constraints selected" StatusError
  else
    (* Confirm deletion *)
    if question "Delete Constraints"
         ("Delete " +:+ pretty (length selected_items) +:+ " constraint(s) without baking?")
    then
      do! for_in selected_items (λ item, in_host (delete_constraint item.1)) in
      do! _set_status ("Deleted " +:+ pretty (length selected_items) +:+ " constraint(s)")
            StatusPlain in
      _refresh_constraint_list
    else ret tt.

End Interaction.

(** ** Further concrete hosts and scenes *)

(** A transform that holds no numbers, and the demo host with [prop2] at
    such a transform. *)
Definition m4_nan : matrix4 := replicate 4 (replicate 4 nan).

Definition demo_nan_transforms : gmap string matrix4 :=
  <["prop2" := m4_nan]> demo_transforms.

(** ** Further notions the statements are phrased with *)

(** The text of the row of record [n]: its stored label, or its name when
    the label is empty or missing. *)
Definition shown_label (sc : scene) (n : string) : string :=
  if bool_decide (stored_label sc n ≠ "") then stored_label sc n else n.

(** The status line [_refresh_constraint_list] leaves for [count] rows. *)
Definition count_status (count : nat) : string * status_style :=
  if bool_decide (count = 0%nat)
  then ("No constraints found in scene", StatusPlain)
  else ("Found " +:+ pretty count +:+ " constraint(s)", StatusPlain).

(** The dialog with another status line, and with another host scene. *)
Definition dialog_with_status (d : dialog) (st : string * status_style) : dialog :=
  Dialog (Window (host (win d)) (start_frame_spin (win d)) (end_frame_spin (win d)) st
            (constraints_list (win d)))
    (source_ref_field d) (source_driven_field d) (target_ref_field d)
    (target_driven_field d) (stdout d).

Definition dialog_with_host (d : dialog) (sc : scene) : dialog :=
  Dialog (Window sc (start_frame_spin (win d)) (end_frame_spin (win d)) (status_label (win d))
            (constraints_list (win d)))
    (source_ref_field d) (source_driven_field d) (target_ref_field d)
    (target_driven_field d) (stdout d).

(** An entry of [objs.items()] that passes validation: its value is not
    empty and names a node of the scene. *)
Definition valid_entry (sc : scene) (kv : string * string) : Prop :=
  kv.2 ≠ "" ∧ is_Some (nodes sc !! kv.2).

(** What the four line edits hold, stripped. *)
Definition stripped_fields (strip : string → string) (d : dialog) : objects :=
  Objects (strip (source_ref_field d)) (strip (source_driven_field d))
    (strip (target_ref_field d)) (strip (target_driven_field d)).

(** Whether one of the eight transform attributes of [t] is driven. *)
Definition has_incoming (sc : scene) (t : string) : bool :=
  bool_decide (Exists (λ a, is_Some (connections sc !! (t, a))) transform_attrs).

(** The text of the question [_on_create_constraint] asks. *)
Definition replace_question (target : string) : string :=
  target +:+ " already has incoming connections." +:+ newline
  +:+ "Remove them and create new constraint?".

(** For the runs below: [strip] on strings whose only white space is
    blanks. *)
Fixpoint lstrip_blanks (s : string) : string :=
  match s with
  | String c s' => if bool_decide (String c "" = " ") then lstrip_blanks s' else s
  | EmptyString => EmptyString
  end.

Definition strip_blanks (s : string) : string :=
  String.rev (lstrip_blanks (String.rev (lstrip_blanks s))).

(** The dialog over the demo scene with the two pairs typed in, over the
    built demo scene with the same fields, and over the demo scene with a
    name that is no node in the second field and nothing in the third. *)
Definition demo_dialog : dialog :=
  Dialog (Window demo_scene 1 3 ("", StatusPlain) []) " hand1" "prop1 " "hand2" "prop2" [].

Definition demo_built_dialog : dialog :=
  Dialog demo_window " hand1" "prop1 " "hand2" "prop2" [].

Definition demo_dialog_mistyped : dialog :=
  Dialog (Window demo_scene 1 3 ("", StatusPlain) []) "hand1" "prop9" "  " "prop2" [].

(** [sc'] is what is left of [sc] after nodes were deleted: every node of
    [sc'] is a node of [sc], unchanged, and every connection of [sc'] is a
    connection of [sc]. *)
Definition shrinks (sc sc' : scene) : Prop :=
  (∀ x, nodes sc' !! x = None ∨ nodes sc' !! x = nodes sc !! x)
  ∧ (∀ p s, connections sc' !! p = Some s → connections sc !! p = Some s)
  ∧ ui sc' = ui sc.

(** The text of the question [_on_delete_selected] asks. *)
Definition delete_question (count : nat) : string :=
  "Delete " +:+ pretty count +:+ " constraint(s) without baking?".

(** The rows of the list for the records [l] of scene [sc]. *)
Definition rows_of (sc : scene) (l : list string) : list (string * string) :=
  (λ n, (n, shown_label sc n)) <$> l.

(** Every connection joins two nodes of the scene. *)
Definition connections_wf (sc : scene) : Prop :=
  ∀ p s, connections sc !! p = Some s →
         is_Some (nodes sc !! p.1) ∧ is_Some (nodes sc !! s.1).

(** [sc'] is what is left of [sc] after bakes and deletions: a node of [sc']
    is a node of [sc] with the same type, parent and attributes and with at
    least the keys it had, and a connection of [sc'] is a connection of
    [sc]. *)
Definition evolves (sc sc' : scene) : Prop :=
  (∀ x nd', nodes sc' !! x = Some nd' →
     ∃ nd, nodes sc !! x = Some nd
           ∧ node_type nd' = node_type nd
           ∧ node_parent nd' = node_parent nd
           ∧ node_attrs nd' = node_attrs nd
           ∧ ∀ ch, default ∅ (node_keys nd !! ch) ⊆ default ∅ (node_keys nd' !! ch))
  ∧ (∀ p s, connections sc' !! p = Some s → connections sc !! p = Some s).

(** The nodes on the other side of a plug's connections, as
    [cmds.listConnections] answers them: the node that drives the plug, then
    the nodes the plug drives. *)
Definition linked (sc : scene) (p : plug) : list string :=
  cmds.sources_of sc p ++ cmds.destinations_of sc p.

(** The two references of a record that [delete_constraint] follows. *)
Definition computation_attrs : list string := ["decomposeMatrixNode"; "multMatrixNode"].

(** A node that the deletion of one of the records [l] may take with it: it
    is connected to the applier or the combiner reference of one of them. *)
Definition deletable (sc : scene) (l : list string) (x : string) : Prop :=
  ∃ j attr, j ∈ l ∧ attr ∈ computation_attrs ∧ x ∈ linked sc (j, attr).

(** What deleting records of [l] may remove: the nodes that go with them,
    and the records that have a target. *)
Definition removable (sc : scene) (l : list string) (x : string) : Prop :=
  deletable sc l x ∨ (x ∈ l ∧ is_Some (resolved sc x "targetDriven")).

(** [sc'] still has every node of [sc] whose name is not in [xs], and every
    connection of [sc] between two such nodes. *)
Definition kept (xs : list string) (sc sc' : scene) : Prop :=
  (∀ x, (x ∉ xs) → is_Some (nodes sc !! x) → is_Some (nodes sc' !! x))
  ∧ (∀ p s, connections sc !! p = Some s → (p.1 ∉ xs) → (s.1 ∉ xs) →
            connections sc' !! p = Some s).

(** The scene after the nodes [xs] were deleted, the last of the list
    first. *)
Definition removed (xs : list string) (sc : scene) : scene := foldr remove_node sc xs.

#[local] Instance valid_entry_dec (sc : scene) (kv : string * string) :
  Decision (valid_entry sc kv).
Proof. unfold valid_entry. apply _. Defined.

(** * Theorems *)

(** ** Running a computation step by step *)

Lemma bind_returned {S A B} (c : py S A) (k : A → py S B) (s s' : S) (a : A) :
  c s = (s', Returned a) → bind c k s = k a s'.
Proof. intros H. unfold bind. by rewrite H. Qed.

Lemma bind_raised {S A B} (c : py S A) (k : A → py S B) (s s' : S) (e : exn) :
  c s = (s', Raised e) → bind c k s = (s', Raised e).
Proof. intros H. unfold bind. by rewrite H. Qed.

Lemma bind_bind {S A B C} (c : py S A) (k1 : A → py S B) (k2 : B → py S C) (s : S) :
  bind (bind c k1) k2 s = bind c (λ x, bind (k1 x) k2) s.
Proof. unfold bind. by destruct (c s) as [s' [a|e]]. Qed.

Lemma bind_ret {S A B} (a : A) (k : A → py S B) (s : S) : bind (ret a) k s = k a s.
Proof. reflexivity. Qed.

(** Run the first command of the goal's computation with the equation [lem];
    [tac] discharges the equation's side conditions. *)
Ltac py_run lem tac :=
  repeat first [rewrite bind_bind | rewrite bind_ret];
  erewrite bind_returned; [|rewrite lem by tac; reflexivity].

(** ** Order facts about the float comparison [<?] *)

Lemma SFltb_irrefl f : SFltb f f = false.
Proof.
  unfold SFltb, SFcompare.
  destruct f as [s|s| |s m e]; try done.
  - by destruct s.
  - rewrite Z.compare_refl.
    change (PosDef.Pos.compare_cont Eq m m) with (Pos.compare m m).
    rewrite Pos.compare_refl. by destruct s.
Qed.

Lemma SFltb_trans a b c : SFltb a b = true → SFltb b c = true → SFltb a c = true.
Proof.
  unfold SFltb, SFcompare.
  destruct a as [sa|sa| |sa ma ea], b as [sb|sb| |sb mb eb], c as [sc|sc| |sc mc ec];
    try done;
    repeat match goal with s : bool |- _ => destruct s end; try done.
  all: change PosDef.Pos.compare_cont with Pos.compare_cont;
    change (Pos.compare_cont Eq) with Pos.compare.
  all: destruct (Z.compare_spec ea eb), (Z.compare_spec eb ec), (Z.compare_spec ea ec);
    try done; try lia; subst.
  all: destruct (Pos.compare_spec ma mb), (Pos.compare_spec mb mc), (Pos.compare_spec ma mc);
    simpl; try done; try lia.
Qed.

Lemma float_ltb_irrefl (x : float) : (x <? x)%float = false.
Proof. rewrite ltb_spec. apply SFltb_irrefl. Qed.

Lemma float_ltb_trans (x y z : float) :
  (x <? y)%float = true → (y <? z)%float = true → (x <? z)%float = true.
Proof. rewrite !ltb_spec. apply SFltb_trans. Qed.

(** ** The running maximum *)

(** Nothing the loop has looked at is greater than the running maximum. *)
Lemma py_max_upper (seen : list float) (acc y : float) :
  Forall (λ x, (acc <? x)%float = false) seen →
  Forall (λ x, (py_max acc y <? x)%float = false) (seen ++ [y]).
Proof.
  intros Hseen. unfold py_max. apply Forall_app. split.
  - destruct (acc <? y)%float eqn:Hlt; [|done].
    eapply Forall_impl; [exact Hseen|]. intros x Hx. simpl in Hx.
    destruct (y <? x)%float eqn:Hyx; [|done].
    by rewrite (float_ltb_trans _ _ _ Hlt Hyx) in Hx.
  - apply Forall_singleton.
    destruct (acc <? y)%float eqn:Hlt; [apply float_ltb_irrefl|done].
Qed.

Lemma foldl_py_max_upper (l seen : list float) (acc : float) :
  Forall (λ x, (acc <? x)%float = false) seen →
  Forall (λ x, (foldl py_max acc l <? x)%float = false) (seen ++ l).
Proof.
  revert seen acc. induction l as [|y l IH]; intros seen acc Hseen; simpl.
  - by rewrite app_nil_r.
  - rewrite (assoc_L _ seen [y] l : seen ++ y :: l = (seen ++ [y]) ++ l).
    apply IH. by apply py_max_upper.
Qed.


(** ** Numbers that are not numbers *)

Lemma SFleb_ltb_trans a b c : SFleb a b = true → SFltb b c = true → SFleb a c = true.
Proof.
  unfold SFleb, SFltb, SFcompare.
  destruct a as [sa|sa| |sa ma ea], b as [sb|sb| |sb mb eb], c as [sc|sc| |sc mc ec];
    try done;
    repeat match goal with s : bool |- _ => destruct s end; try done.
  all: change PosDef.Pos.compare_cont with Pos.compare_cont;
    change (Pos.compare_cont Eq) with Pos.compare.
  all: destruct (Z.compare_spec ea eb), (Z.compare_spec eb ec), (Z.compare_spec ea ec);
    try done; try lia; subst.
  all: destruct (Pos.compare_spec ma mb), (Pos.compare_spec mb mc), (Pos.compare_spec ma mc);
    simpl; try done; try lia.
Qed.

(** A comparison with a NaN on the right is false. *)
Lemma SFltb_nan a b : SFeqb b b = false → SFltb a b = false.
Proof.
  unfold SFeqb, SFltb, SFcompare.
  destruct a as [sa|sa| |sa ma ea], b as [sb|sb| |sb mb eb]; try done;
    repeat match goal with s : bool |- _ => destruct s end; try done.
  all: change PosDef.Pos.compare_cont with Pos.compare_cont;
    change (Pos.compare_cont Eq) with Pos.compare.
  all: rewrite Z.compare_refl, Pos.compare_refl; done.
Qed.

(** Two numbers, neither a NaN, compare one way or the other. *)
Lemma SFleb_total a b :
  SFeqb a a = true → SFeqb b b = true → SFltb a b = false → SFleb b a = true.
Proof.
  unfold SFeqb, SFleb, SFltb, SFcompare.
  destruct a as [sa|sa| |sa ma ea], b as [sb|sb| |sb mb eb]; try done;
    repeat match goal with s : bool |- _ => destruct s end; try done.
  all: change PosDef.Pos.compare_cont with Pos.compare_cont;
    change (Pos.compare_cont Eq) with Pos.compare.
  all: intros _ _.
  all: destruct (Z.compare_spec ea eb), (Z.compare_spec eb ea); try done; try lia; subst.
  all: destruct (Pos.compare_spec ma mb), (Pos.compare_spec mb ma);
    simpl; try done; try lia.
Qed.

Lemma SFleb_not_nan a b : SFleb a b = true → SFeqb b b = true.
Proof.
  unfold SFeqb, SFleb, SFcompare.
  destruct a as [sa|sa| |sa ma ea], b as [sb|sb| |sb mb eb]; try done;
    repeat match goal with s : bool |- _ => destruct s end; try done.
  all: change PosDef.Pos.compare_cont with Pos.compare_cont;
    change (Pos.compare_cont Eq) with Pos.compare.
  all: rewrite Z.compare_refl, Pos.compare_refl; done.
Qed.

Lemma is_nan_spec (x : float) : PrimFloat.is_nan x = negb (SFeqb (Prim2SF x) (Prim2SF x)).
Proof. unfold PrimFloat.is_nan. by rewrite FloatAxioms.eqb_spec. Qed.

(** The running maximum never drops below the start value's sign: from a
    start value that is not negative, it stays not negative, so it is never
    a NaN. *)
Lemma foldl_py_max_nonneg (l : list float) (acc : float) :
  (0 <=? acc)%float = true → (0 <=? foldl py_max acc l)%float = true.
Proof.
  revert acc. induction l as [|y l IH]; intros acc Hacc; simpl; [done|].
  apply IH. unfold py_max. destruct (acc <? y)%float eqn:Hlt; [|done].
  rewrite leb_spec in *. rewrite ltb_spec in Hlt. by eapply SFleb_ltb_trans.
Qed.

(** A NaN never becomes the running maximum. *)
Lemma foldl_py_max_all_nan (l : list float) (acc : float) :
  Forall (λ x, PrimFloat.is_nan x = true) l → foldl py_max acc l = acc.
Proof.
  revert acc. induction l as [|y l IH]; intros acc Hl; simpl; [done|].
  apply Forall_cons in Hl as [Hy Hl]. rewrite <- (IH acc Hl) at 2. f_equal.
  unfold py_max. rewrite ltb_spec, SFltb_nan; [done|].
  rewrite is_nan_spec in Hy. by apply negb_true_iff in Hy.
Qed.

(** ** Verification (C1) *)

Section VerificationFacts.

Context {Host Matrix : Type}.
Variable world_matrix : Host → string → option Matrix.
Variable mmul : Matrix → Matrix → Matrix.
Variable inverse : Matrix → Matrix.
Variable getElement : Matrix → nat → nat → float.

Lemma all_abs_diffs_elem (s t : Matrix) (x : float) :
  x ∈ all_abs_diffs Matrix getElement s t ↔
  ∃ i j, (i < 4)%nat ∧ (j < 4)%nat ∧ x = abs_diff Matrix getElement s t i j.
Proof.
  unfold all_abs_diffs. split.
  - intros (i & (j & ->%list_elem_of_singleton & Hj%elem_of_seq)%list_elem_of_bind
              & Hi%elem_of_seq)%list_elem_of_bind.
    exists i, j. repeat split; lia.
  - intros (i & j & Hi & Hj & ->).
    apply list_elem_of_bind. exists i. split; [|apply elem_of_seq; lia].
    apply list_elem_of_bind. exists j. split; [|apply elem_of_seq; lia].
    by apply list_elem_of_singleton.
Qed.

Lemma get_local_offset_returns (h : Host) (ref_obj driven_obj : string) (mr md : Matrix) :
  world_matrix h ref_obj = Some mr →
  world_matrix h driven_obj = Some md →
  get_local_offset Host Matrix world_matrix mmul inverse ref_obj driven_obj h
  = (h, Returned (mmul md (inverse mr))).
Proof.
  intros Hr Hd. unfold get_local_offset, get_world_matrix, bind, ret.
  by rewrite Hr, Hd.
Qed.


End VerificationFacts.



(** The demo pairs pass, with a difference of exactly zero; after [prop2]
    was moved half a unit they fail, and the reported difference is that
    half unit. *)
Example verify_constraint_demo :
  _verify_constraint _ _ demo_lookup m4_mul m4_translation_inverse m4_get
    "hand1" "prop1" "hand2" "prop2" None demo_transforms
  = (demo_transforms, Returned (true, 0%float))
  ∧ _verify_constraint _ _ demo_lookup m4_mul m4_translation_inverse m4_get
      "hand1" "prop1" "hand2" "prop2" None demo_moved_transforms
    = (demo_moved_transforms, Returned (false, 0.5%float)).
Proof. split; vm_compute; reflexivity. Qed.

(** ** The bake decorator (C9) *)

Lemma mel_eval_pane_off :
  mel.eval "paneLayout -e -manage false $gMainPane"
  = update (with_ui (λ u, UiState (evaluation_mode u) false (refresh_suspended u)
                            (time_slider_visible u))).
Proof. reflexivity. Qed.

Lemma mel_eval_pane_on :
  mel.eval "paneLayout -e -manage true $gMainPane"
  = update (with_ui (λ u, UiState (evaluation_mode u) true (refresh_suspended u)
                            (time_slider_visible u))).
Proof. reflexivity. Qed.

Lemma mel_eval_slider_off :
  mel.eval "setTimeSliderVisible 0;"
  = update (with_ui (λ u, UiState (evaluation_mode u) (main_pane_managed u)
                            (refresh_suspended u) false)).
Proof. reflexivity. Qed.

Lemma mel_eval_slider_on :
  mel.eval "setTimeSliderVisible 1;"
  = update (with_ui (λ u, UiState (evaluation_mode u) (main_pane_managed u)
                            (refresh_suspended u) true)).
Proof. reflexivity. Qed.

(** C9.  Whatever the wrapped call does, [viewport_off] runs it exactly once
    and hands its outcome on unchanged, a return as a return and a raise as
    the same raise; on both exits the redraw is no longer suspended, the
    time slider is visible and the main pane is managed again, and the
    evaluation mode is parallel again if it was parallel on entry (otherwise
    the wrapper does not touch it).  The wrapper changes nothing else.  So
    when the three switches were on at entry and the wrapped call leaves the
    switches alone, the UI state at exit is the UI state at entry. *)
Theorem viewport_off_restores_on_every_exit (A : Type) (func : py scene A) (sc : scene) :
  ∃ (sc_in sc_out sc' : scene) (r : outcome A),
    func sc_in = (sc_out, r)
    ∧ viewport_off func sc = (sc', r)
    ∧ nodes sc_in = nodes sc ∧ connections sc_in = connections sc
    ∧ nodes sc' = nodes sc_out ∧ connections sc' = connections sc_out
    ∧ refresh_suspended (ui sc') = false
    ∧ time_slider_visible (ui sc') = true
    ∧ main_pane_managed (ui sc') = true
    ∧ (evaluation_mode (ui sc) = "parallel" → evaluation_mode (ui sc') = "parallel")
    ∧ (evaluation_mode (ui sc) ≠ "parallel" →
         evaluation_mode (ui sc_in) = evaluation_mode (ui sc)
         ∧ evaluation_mode (ui sc') = evaluation_mode (ui sc_out))
    ∧ (ui sc_out = ui sc_in →
       main_pane_managed (ui sc) = true →
       refresh_suspended (ui sc) = false →
       time_slider_visible (ui sc) = true →
       ui sc' = ui sc).
Proof.
  unfold viewport_off.
  rewrite mel_eval_pane_off, mel_eval_pane_on, mel_eval_slider_off, mel_eval_slider_on.
  destruct sc as [ns cs [mode pane susp slider]].
  unfold bind at 1. unfold cmds.evaluationManager_query_mode at 1, query at 1.
  cbn [ui evaluation_mode].
  destruct (decide (mode = "parallel")) as [->|Hmode].
  - rewrite bool_decide_eq_true_2 by (apply list_elem_of_singleton; done).
    destruct (func (Scene ns cs (UiState "off" false true false)))
      as [[ns' cs' [mode' pane' susp' slider']] r] eqn:Hfunc.
    destruct r.
    all: eexists _, _, _, _; (split; [exact Hfunc|]).
    all: unfold try_finally, try_except, bind, ret, raise, update, cmds.refresh,
      cmds.refresh_suspend, cmds.evaluationManager_mode, with_ui; cbn.
    all: rewrite Hfunc; cbn; (split; [reflexivity|]); repeat split; try done.
    all: intros [= -> -> -> ->]; cbn; intros; by subst.
  - rewrite bool_decide_eq_false_2 by (rewrite list_elem_of_singleton; done).
    destruct (func (Scene ns cs (UiState mode false true false)))
      as [[ns' cs' [mode' pane' susp' slider']] r] eqn:Hfunc.
    destruct r.
    all: eexists _, _, _, _; (split; [exact Hfunc|]).
    all: unfold try_finally, try_except, bind, ret, raise, update, cmds.refresh,
      cmds.refresh_suspend, cmds.evaluationManager_mode, with_ui; cbn.
    all: rewrite Hfunc; cbn; (split; [reflexivity|]); repeat split; try done.
    all: intros [= -> -> -> ->]; cbn; intros; by subst.
Qed.

(** A bake that fails: the target is not in the scene, the host raises, the
    raise comes out of the wrapper, and the UI is as it was before the call
    (parallel evaluation included). *)
Example failed_bake_restores_ui_demo :
  (_bake_with_viewport_off "no_such_node" 1 3 demo_scene).2 = Raised ValueError
  ∧ ui (_bake_with_viewport_off "no_such_node" 1 3 demo_scene).1 = ui demo_scene.
Proof. split; vm_compute; reflexivity. Qed.

(** ** Host names are new *)

Lemma first_unused_fresh (taken live : gset string) (base : string) (fuel k : nat) :
  (∀ j : nat, (k ≤ j)%nat → base +:+ pretty j ∈ taken → base +:+ pretty j ∈ live) →
  (size live ≤ fuel)%nat →
  first_unused taken base fuel k ∉ taken.
Proof.
  revert live k. induction fuel as [|fuel IH]; intros live k Hlive Hsize; simpl.
  - intros Hin. apply Hlive in Hin; [|done].
    assert (live ≡ ∅) as Hempty by (apply size_empty_iff; lia).
    set_solver.
  - case_bool_decide as Hk; [|done].
    apply (IH (live ∖ {[base +:+ pretty k]})).
    + intros j Hj Hin. apply elem_of_difference. split; [apply Hlive; [lia|done]|].
      rewrite elem_of_singleton. intros Heq.
      apply (inj (String.append base)) in Heq. apply (inj pretty) in Heq. lia.
    + assert (base +:+ pretty k ∈ live) as Hkl by (apply Hlive; done).
      rewrite size_difference by set_solver. rewrite size_singleton.
      assert (size live ≠ 0%nat); [|lia].
      intros ?%size_empty_iff. set_solver.
Qed.

Lemma unique_name_fresh (ns : gmap string node) (name : string) :
  ns !! unique_name ns name = None.
Proof.
  apply not_elem_of_dom. unfold unique_name.
  apply (first_unused_fresh _ (dom ns)); [done|].
  by rewrite size_dom.
Qed.

(** From here on a name the host hands out is only known to be new. *)
Local Opaque unique_name.

(** ** The host commands, step by step *)

Lemma objExists_eq (name : string) (sc : scene) :
  cmds.objExists name sc = (sc, Returned (bool_decide (is_Some (nodes sc !! name)))).
Proof. reflexivity. Qed.

Lemma attributeQuery_exists_missing (attr n : string) (sc : scene) :
  nodes sc !! n = None → cmds.attributeQuery_exists attr n sc = (sc, Raised RuntimeError).
Proof. intros H. unfold cmds.attributeQuery_exists. by rewrite H. Qed.

Lemma attributeQuery_exists_node (attr n : string) (nd : node) (sc : scene) :
  nodes sc !! n = Some nd →
  cmds.attributeQuery_exists attr n sc
  = (sc, Returned (bool_decide (is_Some (node_attrs nd !! attr)))).
Proof. intros H. unfold cmds.attributeQuery_exists. by rewrite H. Qed.

Lemma createNode_eq_scene (type name : string) (ns : gmap string node) (cs : gmap plug plug)
    (u : ui_state) :
  cmds.createNode type name (Scene ns cs u)
  = (Scene (<[unique_name ns name := Node type None ∅ ∅]> ns) cs u,
     Returned (unique_name ns name)).
Proof. reflexivity. Qed.

Lemma delete_existing (n : string) (sc : scene) :
  is_Some (nodes sc !! n) → cmds.delete n sc = (remove_node n sc, Returned tt).
Proof. intros [nd H]. unfold cmds.delete. by rewrite H. Qed.

Lemma remove_node_nodes (n x : string) (sc : scene) :
  nodes (remove_node n sc) !! x = if decide (n = x) then None else nodes sc !! x.
Proof. unfold remove_node. simpl. apply lookup_delete. Qed.

Lemma remove_node_connections (n : string) (sc : scene) (dst src : plug) :
  connections (remove_node n sc) !! dst = Some src
  ↔ connections sc !! dst = Some src ∧ dst.1 ≠ n ∧ src.1 ≠ n.
Proof. unfold remove_node. simpl. by rewrite map_lookup_filter_Some. Qed.

Lemma remove_node_connections_None (n : string) (sc : scene) (dst : plug) :
  connections sc !! dst = None → connections (remove_node n sc) !! dst = None.
Proof.
  intros Hc. destruct (connections (remove_node n sc) !! dst) as [src|] eqn:H; [|done].
  apply remove_node_connections in H as [H _]. congruence.
Qed.

(** ** Reading a record back (C3) *)

(** One pass of the loop over [attr_map], on a node of the scene. *)
Lemma read_reference_step (sc : scene) (n attr data_key : string) (data : constraint_data) :
  is_Some (nodes sc !! n) →
  (let! has_attr := cmds.attributeQuery_exists attr n in
   if has_attr : bool
   then let! connections := cmds.listConnections (n, attr) in
        match connections with
        | c :: _ => ret (set_item data data_key (Some c))
        | [] => ret data
        end
   else ret data) sc
  = (sc, Returned match resolved sc n attr with
                  | Some c => set_item data data_key (Some c)
                  | None => data
                  end).
Proof.
  intros [nd Hn].
  unfold bind, resolved, cmds.attributeQuery_exists, cmds.listConnections, ret. simpl.
  rewrite Hn.
  destruct (bool_decide (is_Some (node_attrs nd !! attr))); [|done].
  cbv beta. rewrite Hn.
  by destruct (cmds.sources_of sc (n, attr) ++ cmds.destinations_of sc (n, attr)).
Qed.

Lemma read_label_step {A} (sc : scene) (n : string) (k : constraint_data → py scene A) :
  is_Some (nodes sc !! n) →
  (let! has_name := cmds.attributeQuery_exists "displayName" n in
   let! data :=
     (if has_name : bool
      then let! v := cmds.getAttr (n, "displayName") in
           ret (ConstraintData n match v with StringValue (Some s) => s | _ => "" end
                  None None None None None None)
      else ret (ConstraintData n "" None None None None None None)) in
   k data) sc
  = k (ConstraintData n (stored_label sc n) None None None None None None) sc.
Proof.
  intros [nd Hn].
  unfold bind, stored_label, cmds.attributeQuery_exists, cmds.getAttr, ret. simpl.
  rewrite Hn.
  destruct (node_attrs nd !! "displayName") as [v|] eqn:Hv.
  - rewrite bool_decide_eq_true_2 by eauto. cbv beta. rewrite Hn. cbn [snd]. rewrite Hv.
    by destruct v as [|[]|].
  - rewrite bool_decide_eq_false_2; [done|]. by intros [? ?].
Qed.

(** On a node of the scene [get_constraint_data] returns, leaves the scene
    as it was, and reports in each field what the reference attribute
    resolves to. *)
Lemma get_constraint_data_eq (sc : scene) (n : string) :
  is_Some (nodes sc !! n) →
  get_constraint_data n sc
  = (sc, Returned (ConstraintData n (stored_label sc n)
                     (resolved sc n "sourceRef") (resolved sc n "sourceDriven")
                     (resolved sc n "targetRef") (resolved sc n "targetDriven")
                     (resolved sc n "multMatrixNode") (resolved sc n "decomposeMatrixNode"))).
Proof.
  intros Hn. unfold get_constraint_data.
  rewrite read_label_step by done.
  unfold attr_map. cbn [for_each].
  repeat (unfold bind at 1; rewrite read_reference_step by done).
  unfold ret.
  destruct (resolved sc n "sourceRef"), (resolved sc n "sourceDriven"),
    (resolved sc n "targetRef"), (resolved sc n "targetDriven"),
    (resolved sc n "multMatrixNode"), (resolved sc n "decomposeMatrixNode");
    reflexivity.
Qed.

(** On a name that is no node of the scene the first query of
    [get_constraint_data] fails, and with it the read. *)
Lemma get_constraint_data_missing (sc : scene) (n : string) :
  nodes sc !! n = None → get_constraint_data n sc = (sc, Raised RuntimeError).
Proof.
  intros Hn. unfold get_constraint_data.
  erewrite bind_raised; [reflexivity|]. by apply attributeQuery_exists_missing.
Qed.

(** ** Discovery *)

Lemma find_loop (sc : scene) (l acc : list string) :
  Forall (λ x, is_Some (nodes sc !! x)) l →
  for_each l acc (λ constraint_nodes node,
    let! marked := cmds.attributeQuery_exists NETWORK_NODE_IDENTIFIER node in
    if marked : bool then ret (constraint_nodes ++ [node]) else ret constraint_nodes) sc
  = (sc, Returned (acc ++ filter (λ x, has_marker sc x = true) l)).
Proof.
  intros Hl. revert acc. induction Hl as [|x l [nd Hx] Hl IH]; intros acc; cbn [for_each].
  - by rewrite filter_nil, app_nil_r.
  - rewrite bind_bind.
    erewrite bind_returned by (by apply attributeQuery_exists_node).
    rewrite filter_cons.
    assert (has_marker sc x = bool_decide (is_Some (node_attrs nd !! NETWORK_NODE_IDENTIFIER)))
      as Hm by (unfold has_marker; by rewrite Hx).
    rewrite Hm.
    destruct (bool_decide (is_Some (node_attrs nd !! NETWORK_NODE_IDENTIFIER)));
      rewrite bind_ret, IH.
    + rewrite decide_True by done. by rewrite <- app_assoc.
    + by rewrite decide_False by done.
Qed.

(** What the host lists are nodes of the scene. *)
Lemma ls_type_nodes (sc : scene) (ty : string) :
  Forall (λ x, is_Some (nodes sc !! x))
    ((λ kv : string * node, kv.1) <$>
       filter (λ kv : string * node, node_type kv.2 = ty) (map_to_list (nodes sc))).
Proof.
  apply Forall_forall. intros x Hx.
  apply list_elem_of_fmap in Hx as ([x' nd] & -> & [_ Hin%elem_of_map_to_list]%list_elem_of_filter).
  by exists nd.
Qed.

(** [find_constraint_network_nodes] lists a name exactly when it names a
    node of type [network] on which the marker attribute exists. *)
Lemma find_constraint_network_nodes_spec (sc : scene) :
  ∃ l, find_constraint_network_nodes sc = (sc, Returned l)
       ∧ ∀ n, n ∈ l ↔ ∃ nd, nodes sc !! n = Some nd
                            ∧ node_type nd = "network"
                            ∧ is_Some (node_attrs nd !! NETWORK_NODE_IDENTIFIER).
Proof.
  eexists. split.
  - unfold find_constraint_network_nodes. unfold bind at 1.
    unfold cmds.ls_type at 1, query at 1. apply find_loop, ls_type_nodes.
  - intros n. rewrite app_nil_l, list_elem_of_filter, list_elem_of_fmap. split.
    + intros [Hm ([n' nd] & -> & [Hty Hin%elem_of_map_to_list]%list_elem_of_filter)].
      simpl in *. exists nd. unfold has_marker in Hm. rewrite Hin in Hm.
      by apply bool_decide_eq_true in Hm.
    + intros (nd & Hn & Hty & Hattr). split.
      * unfold has_marker. rewrite Hn. by apply bool_decide_eq_true.
      * exists (n, nd). split; [done|].
        apply list_elem_of_filter. split; [done|]. by apply elem_of_map_to_list.
Qed.

(** The names discovery answers are nodes of the scene. *)
Lemma found_are_nodes (sc sc' : scene) (l : list string) :
  find_constraint_network_nodes sc = (sc', Returned l) →
  Forall (λ x, is_Some (nodes sc !! x)) l.
Proof.
  intros Hfind. destruct (find_constraint_network_nodes_spec sc) as (l0 & Hrun & Hl0).
  rewrite Hfind in Hrun. injection Hrun as _ ->.
  apply Forall_forall. intros x (nd & Hnd & _)%Hl0. by exists nd.
Qed.

(** ** Creating a record *)

Lemma addAttr_new (n a : string) (k : attr_kind) (nd : node) (ns : gmap string node)
    (cs : gmap plug plug) (u : ui_state) :
  node_attrs nd !! a = None →
  cmds.addAttr n a k (Scene (<[n := nd]> ns) cs u)
  = (Scene (<[n := with_attrs (insert a (initial_value k)) nd]> ns) cs u, Returned tt).
Proof.
  intros Ha. unfold cmds.addAttr, with_nodes. simpl.
  rewrite lookup_insert_eq, Ha. by rewrite insert_insert_eq.
Qed.

Lemma setAttr_existing (n a : string) (v : attr_value) (nd : node) (ns : gmap string node)
    (cs : gmap plug plug) (u : ui_state) :
  is_Some (node_attrs nd !! a) →
  cmds.setAttr (n, a) v (Scene (<[n := nd]> ns) cs u)
  = (Scene (<[n := with_attrs (insert a v) nd]> ns) cs u, Returned tt).
Proof.
  intros [v0 Ha]. unfold cmds.setAttr, with_nodes. simpl.
  rewrite lookup_insert_eq, Ha. by rewrite insert_insert_eq.
Qed.

Lemma connectAttr_free (src dst : plug) (ns : gmap string node) (cs : gmap plug plug)
    (u : ui_state) :
  is_Some (ns !! src.1) → is_Some (ns !! dst.1) → cs !! dst = None →
  cmds.connectAttr src dst (Scene ns cs u) = (Scene ns (<[dst := src]> cs) u, Returned tt).
Proof.
  intros [? Hs] [? Hd] Hc. unfold cmds.connectAttr, with_connections.
  simpl. by rewrite Hs, Hd, Hc.
Qed.

(** No connection of a well-formed scene touches a name that is not a node. *)
Lemma scene_wf_unused (sc : scene) (n : string) :
  scene_wf sc → nodes sc !! n = None →
  ∀ dst src, connections sc !! dst = Some src → dst.1 ≠ n ∧ src.1 ≠ n.
Proof.
  intros [Hwf _] Hn dst src Hc. destruct (Hwf dst src Hc) as [[? Hd] [? Hs]].
  split; intros Heq; rewrite Heq in *; congruence.
Qed.

(** The closed form of [create_constraint_network_node]: for six existing
    objects, in a scene where nothing is connected to the new name, it adds
    one [network] node with the marker, the label and six message
    attributes, and links the six objects to it. *)
Lemma create_constraint_network_node_eq (sc : scene) (a b c d m n : string) :
  let net := unique_name (nodes sc) (NETWORK_NODE_PREFIX +:+ "_data#") in
  (∀ attr, connections sc !! (net, attr) = None) →
  Forall (λ x, is_Some (nodes sc !! x)) [a; b; c; d; m; n] →
  create_constraint_network_node a b c d m n sc
  = (Scene (<[net := Node "network" None (record_attrs (b +:+ " â†’ " +:+ d)) ∅]> (nodes sc))
       (record_links net a b c d m n (connections sc)) (ui sc),
     Returned net).
Proof.
  intros net Hfree Hobjs.
  assert (nodes sc !! net = None) as Hnet by apply unique_name_fresh.
  assert (∀ x, is_Some (nodes sc !! x) →
            ∀ nd, is_Some (<[net := nd]> (nodes sc) !! x)) as Hins.
  { intros x [v Hx] nd. rewrite lookup_insert_ne by congruence. eauto. }
  assert (∀ nd, is_Some (<[net := nd]> (nodes sc) !! net)) as Hself.
  { intros nd. rewrite lookup_insert_eq. eauto. }
  repeat match goal with H : Forall _ (_ :: _) |- _ =>
    apply Forall_cons in H; destruct H as [? H] end.
  destruct sc as [ns cs u]. simpl in *.
  unfold create_constraint_network_node.
  py_run createNode_eq_scene idtac. fold net.
  py_run addAttr_new ltac:(done).
  py_run setAttr_existing ltac:(cbn; rewrite lookup_insert_eq; eauto).
  py_run addAttr_new ltac:(done).
  py_run setAttr_existing ltac:(cbn; rewrite lookup_insert_eq; eauto).
  unfold for_in. cbn [for_each].
  do 6 py_run addAttr_new ltac:(done).
  do 6 py_run connectAttr_free
    ltac:(first [by apply Hins | by apply Hself
                | rewrite ?lookup_insert_ne by (intros [= ?]; done); apply Hfree]).
  reflexivity.
Qed.

Lemma record_attrs_lookup (label attr : string) :
  attr ∈ ["sourceRef"; "sourceDriven"; "targetRef"; "targetDriven";
          "multMatrixNode"; "decomposeMatrixNode"] →
  record_attrs label !! attr = Some MessageValue.
Proof.
  intros Hin. repeat (apply elem_of_cons in Hin as [->|Hin]; [reflexivity|]).
  by apply not_elem_of_nil in Hin.
Qed.

Lemma record_attrs_label (label : string) :
  record_attrs label !! "displayName" = Some (StringValue (Some label)).
Proof. reflexivity. Qed.

Lemma record_attrs_marker (label : string) :
  record_attrs label !! NETWORK_NODE_IDENTIFIER = Some (BoolValue true).
Proof. reflexivity. Qed.

(** What drives each reference attribute of a record node. *)
Lemma record_links_lookup (net a b c d m n : string) (cs : gmap plug plug) :
  record_links net a b c d m n cs !! (net, "sourceRef") = Some (a, "message")
  ∧ record_links net a b c d m n cs !! (net, "sourceDriven") = Some (b, "message")
  ∧ record_links net a b c d m n cs !! (net, "targetRef") = Some (c, "message")
  ∧ record_links net a b c d m n cs !! (net, "targetDriven") = Some (d, "message")
  ∧ record_links net a b c d m n cs !! (net, "multMatrixNode") = Some (m, "message")
  ∧ record_links net a b c d m n cs !! (net, "decomposeMatrixNode") = Some (n, "message").
Proof.
  unfold record_links.
  repeat split;
    rewrite ?lookup_insert_ne by (intros [= ?]; done); apply lookup_insert_eq.
Qed.

(** Plugs of other nodes are not touched by the links of a record. *)
Lemma record_links_other (net a b c d m n : string) (cs : gmap plug plug) (p : plug) :
  p.1 ≠ net → record_links net a b c d m n cs !! p = cs !! p.
Proof.
  intros Hp. unfold record_links.
  by rewrite !lookup_insert_ne by (intros <-; done).
Qed.

Lemma resolved_driven (sc : scene) (n attr : string) (nd : node) (src : plug) :
  nodes sc !! n = Some nd →
  is_Some (node_attrs nd !! attr) →
  connections sc !! (n, attr) = Some src →
  resolved sc n attr = Some src.1.
Proof.
  intros Hn Ha Hc. unfold resolved, cmds.sources_of.
  rewrite Hn, Hc. by rewrite bool_decide_eq_true_2.
Qed.

(** The record scene reads back as the six objects it was created from. *)
Lemma read_record_scene (ns : gmap string node) (cs : gmap plug plug) (u : ui_state)
    (net a b c d m n label : string) :
  get_constraint_data net
    (Scene (<[net := Node "network" None (record_attrs label) ∅]> ns)
       (record_links net a b c d m n cs) u)
  = (Scene (<[net := Node "network" None (record_attrs label) ∅]> ns)
       (record_links net a b c d m n cs) u,
     Returned (ConstraintData net label (Some a) (Some b) (Some c) (Some d) (Some m) (Some n))).
Proof.
  rewrite get_constraint_data_eq by (simpl; rewrite lookup_insert_eq; eauto).
  f_equal. f_equal.
  destruct (record_links_lookup net a b c d m n cs) as (Ha & Hb & Hc & Hd & Hm & Hn).
  f_equal.
  - unfold stored_label. simpl. by rewrite lookup_insert_eq.
  - by erewrite resolved_driven; [| simpl; apply lookup_insert_eq | simpl; eauto | exact Ha].
  - by erewrite resolved_driven; [| simpl; apply lookup_insert_eq | simpl; eauto | exact Hb].
  - by erewrite resolved_driven; [| simpl; apply lookup_insert_eq | simpl; eauto | exact Hc].
  - by erewrite resolved_driven; [| simpl; apply lookup_insert_eq | simpl; eauto | exact Hd].
  - by erewrite resolved_driven; [| simpl; apply lookup_insert_eq | simpl; eauto | exact Hm].
  - by erewrite resolved_driven; [| simpl; apply lookup_insert_eq | simpl; eauto | exact Hn].
Qed.

(** ** Round trip of the metadata store (C2) *)

(** C2.  In a well-formed scene, for six existing objects
    [a], [b], [c], [d], [m], [n]: [create_constraint_network_node] returns
    the name of a new node, and [get_constraint_data] on that name then
    returns a record whose participant fields are exactly [a], [b], [c], [d]
    and whose computation-node fields are exactly [m], [n].  Neither call
    raises, and the read changes nothing. *)
Theorem create_read_round_trip (sc : scene) (a b c d m n : string) :
  scene_wf sc →
  Forall (λ x, is_Some (nodes sc !! x)) [a; b; c; d; m; n] →
  ∃ (net : string) (sc' : scene) (data : constraint_data),
    create_constraint_network_node a b c d m n sc = (sc', Returned net)
    ∧ nodes sc !! net = None
    ∧ get_constraint_data net sc' = (sc', Returned data)
    ∧ network_node data = net
    ∧ source_ref data = Some a
    ∧ source_driven data = Some b
    ∧ target_ref data = Some c
    ∧ target_driven data = Some d
    ∧ mult_matrix data = Some m
    ∧ decompose_matrix data = Some n.
Proof.
  intros Hwf Hobjs.
  pose proof (unique_name_fresh (nodes sc) (NETWORK_NODE_PREFIX +:+ "_data#")) as Hfresh.
  eexists _, _, _. split; [|split; [exact Hfresh|split]].
  - apply create_constraint_network_node_eq; [|done].
    intros attr. destruct (connections sc !! _) as [src|] eqn:Hc; [|done].
    by destruct (scene_wf_unused sc _ Hwf Hfresh _ _ Hc) as [? _].
  - apply read_record_scene.
  - done.
Qed.

Lemma demo_scene_wf : scene_wf demo_scene.
Proof. split; apply (bool_decide_unpack _); vm_compute; exact I. Qed.

Lemma demo_scene_unparented_wf : scene_wf demo_scene_unparented.
Proof. split; apply (bool_decide_unpack _); vm_compute; exact I. Qed.

(** C2 on the demo scene. *)
Lemma create_read_round_trip_witness :
  ∃ (net : string) (sc' : scene) (data : constraint_data),
    create_constraint_network_node "hand1" "prop1" "hand2" "prop2" "mult1" "decomp1"
      demo_scene = (sc', Returned net)
    ∧ nodes demo_scene !! net = None
    ∧ get_constraint_data net sc' = (sc', Returned data)
    ∧ network_node data = net
    ∧ source_ref data = Some "hand1"
    ∧ source_driven data = Some "prop1"
    ∧ target_ref data = Some "hand2"
    ∧ target_driven data = Some "prop2"
    ∧ mult_matrix data = Some "mult1"
    ∧ decompose_matrix data = Some "decomp1".
Proof.
  apply (create_read_round_trip demo_scene "hand1" "prop1" "hand2" "prop2" "mult1" "decomp1").
  - split; apply (bool_decide_unpack _); vm_compute; exact I.
  - repeat constructor; apply (bool_decide_unpack _); vm_compute; exact I.
Defined.

Example create_read_demo :
  ((let! net := create_constraint_network_node "hand1" "prop1" "hand2" "prop2"
                  "mult1" "decomp1" in
    get_constraint_data net) demo_scene).2
  = Returned (ConstraintData "relMtxConstraint_data1" "prop1 â†’ prop2"
                (Some "hand1") (Some "prop1") (Some "hand2") (Some "prop2")
                (Some "mult1") (Some "decomp1")).
Proof. vm_compute. reflexivity. Qed.

(** ** The display label (C7) *)

(** The separator of the label is the source's literal: a space, the three
    characters U+00E2 U+2020 U+2019 (eight bytes in UTF-8, the encoding of
    the source file and of the strings here), a space. *)
Example label_separator_bytes :
  String.list_ascii_of_string " â†’ "
  = Ascii.ascii_of_nat <$> [32; 195; 162; 226; 128; 160; 226; 128; 153; 32]%nat.
Proof. reflexivity. Qed.

(** C7 as stated fails: in the spec's scenario the label stored for
    source_driven [prop1] and target_driven [prop2] is not ["prop1 -> prop2"]. *)
Lemma display_label_is_not_ascii_arrow :
  ((let! net := create_relative_matrix_constraint "hand1" "prop1" "hand2" "prop2" in
    let! data := get_constraint_data net in
    ret (display_name data)) demo_scene).2
  ≠ Returned "prop1 -> prop2".
Proof. vm_compute. discriminate. Qed.

Example display_label_demo :
  ((let! net := create_relative_matrix_constraint "hand1" "prop1" "hand2" "prop2" in
    let! data := get_constraint_data net in
    ret (display_name data)) demo_scene).2
  = Returned "prop1 â†’ prop2".
Proof. vm_compute. reflexivity. Qed.

(** C7, amended.  The label stored at creation is the name of source_driven,
    the separator of the source's literal (see [label_separator_bytes]; not
    the two ASCII characters [->]), and the name of target_driven; it is what
    [getAttr] returns for [displayName] and what a read reports as
    [display_name]. *)
Theorem display_label_format (sc : scene) (a b c d m n : string) :
  scene_wf sc →
  Forall (λ x, is_Some (nodes sc !! x)) [a; b; c; d; m; n] →
  ∃ (net : string) (sc' : scene) (data : constraint_data),
    create_constraint_network_node a b c d m n sc = (sc', Returned net)
    ∧ cmds.getAttr (net, "displayName") sc'
      = (sc', Returned (StringValue (Some (b +:+ " â†’ " +:+ d))))
    ∧ get_constraint_data net sc' = (sc', Returned data)
    ∧ display_name data = b +:+ " â†’ " +:+ d.
Proof.
  intros Hwf Hobjs.
  pose proof (unique_name_fresh (nodes sc) (NETWORK_NODE_PREFIX +:+ "_data#")) as Hfresh.
  eexists _, _, _. split; [|split; [|split]].
  - apply create_constraint_network_node_eq; [|done].
    intros attr. destruct (connections sc !! _) as [src|] eqn:Hc; [|done].
    by destruct (scene_wf_unused sc _ Hwf Hfresh _ _ Hc) as [? _].
  - unfold cmds.getAttr. simpl. by rewrite lookup_insert_eq.
  - apply read_record_scene.
  - done.
Qed.

(** C7 (amended) on the demo scene: the label of [prop1] and [prop2]. *)
Lemma display_label_format_witness :
  ∃ (net : string) (sc' : scene) (data : constraint_data),
    create_constraint_network_node "hand1" "prop1" "hand2" "prop2" "mult1" "decomp1"
      demo_scene = (sc', Returned net)
    ∧ cmds.getAttr (net, "displayName") sc'
      = (sc', Returned (StringValue (Some ("prop1" +:+ " â†’ " +:+ "prop2"))))
    ∧ get_constraint_data net sc' = (sc', Returned data)
    ∧ display_name data = "prop1" +:+ " â†’ " +:+ "prop2".
Proof.
  apply (display_label_format demo_scene "hand1" "prop1" "hand2" "prop2" "mult1" "decomp1").
  - split; apply (bool_decide_unpack _); vm_compute; exact I.
  - repeat constructor; apply (bool_decide_unpack _); vm_compute; exact I.
Defined.

(** ** Discovery looks at the marker's existence only (C10) *)

(** Creation leaves the marker set to [True]. *)
Lemma creation_sets_marker (sc : scene) (a b c d m n : string) :
  scene_wf sc →
  Forall (λ x, is_Some (nodes sc !! x)) [a; b; c; d; m; n] →
  ∃ (net : string) (sc' : scene),
    create_constraint_network_node a b c d m n sc = (sc', Returned net)
    ∧ cmds.getAttr (net, NETWORK_NODE_IDENTIFIER) sc' = (sc', Returned (BoolValue true)).
Proof.
  intros Hwf Hobjs.
  pose proof (unique_name_fresh (nodes sc) (NETWORK_NODE_PREFIX +:+ "_data#")) as Hfresh.
  eexists _, _. split.
  - apply create_constraint_network_node_eq; [|done].
    intros attr. destruct (connections sc !! _) as [src|] eqn:Hc; [|done].
    by destruct (scene_wf_unused sc _ Hwf Hfresh _ _ Hc) as [? _].
  - unfold cmds.getAttr. simpl. by rewrite lookup_insert_eq.
Qed.

(** C10.  A node of type [network] on which the marker attribute exists is
    listed by [find_constraint_network_nodes], whatever value [v] the marker
    holds; in particular it is still listed after the marker is set to
    [False]. *)
Theorem discovery_ignores_marker_value (sc : scene) (n : string) (nd : node) (v : attr_value) :
  nodes sc !! n = Some nd →
  node_type nd = "network" →
  node_attrs nd !! NETWORK_NODE_IDENTIFIER = Some v →
  (∃ l, find_constraint_network_nodes sc = (sc, Returned l) ∧ n ∈ l)
  ∧ ∃ sc', cmds.setAttr (n, NETWORK_NODE_IDENTIFIER) (BoolValue false) sc = (sc', Returned tt)
           ∧ cmds.getAttr (n, NETWORK_NODE_IDENTIFIER) sc' = (sc', Returned (BoolValue false))
           ∧ ∃ l', find_constraint_network_nodes sc' = (sc', Returned l') ∧ n ∈ l'.
Proof.
  intros Hn Hty Hv. split.
  - destruct (find_constraint_network_nodes_spec sc) as (l & Hl & Hin).
    exists l. split; [done|]. apply Hin. exists nd. eauto.
  - eexists. split; [|split].
    + unfold cmds.setAttr. simpl. rewrite Hn, Hv. reflexivity.
    + unfold cmds.getAttr, with_nodes. simpl. rewrite lookup_insert_eq. simpl.
      by rewrite lookup_insert_eq.
    + match goal with |- ∃ l', find_constraint_network_nodes ?s = _ ∧ _ =>
        destruct (find_constraint_network_nodes_spec s) as (l' & Hl' & Hin') end.
      exists l'. split; [done|]. apply Hin'. eexists. split; [|split].
      * unfold with_nodes. simpl. apply lookup_insert_eq.
      * done.
      * simpl. rewrite lookup_insert_eq. eauto.
Qed.

(** C10 on a record that creation has just marked [True]. *)
Lemma discovery_ignores_marker_value_witness :
  (∃ l, find_constraint_network_nodes demo_record_scene = (demo_record_scene, Returned l)
        ∧ "relMtxConstraint_data1" ∈ l)
  ∧ ∃ sc', cmds.setAttr ("relMtxConstraint_data1", NETWORK_NODE_IDENTIFIER) (BoolValue false)
             demo_record_scene = (sc', Returned tt)
           ∧ cmds.getAttr ("relMtxConstraint_data1", NETWORK_NODE_IDENTIFIER) sc'
             = (sc', Returned (BoolValue false))
           ∧ ∃ l', find_constraint_network_nodes sc' = (sc', Returned l')
                   ∧ "relMtxConstraint_data1" ∈ l'.
Proof.
  apply (discovery_ignores_marker_value demo_record_scene "relMtxConstraint_data1"
           (Node "network" None (record_attrs "prop1 â†’ prop2") ∅) (BoolValue true));
    vm_compute; reflexivity.
Defined.

(** ** Reading never raises (C3) *)

Lemma elem_of_destinations_of (sc : scene) (p : plug) (x : string) :
  x ∈ cmds.destinations_of sc p ↔ ∃ dst : plug, connections sc !! dst = Some p ∧ dst.1 = x.
Proof.
  unfold cmds.destinations_of. rewrite list_elem_of_fmap. split.
  - intros ([dst src] & -> & [Hsrc Hin%elem_of_map_to_list]%list_elem_of_filter).
    simpl in *. subst. by exists dst.
  - intros (dst & Hc & <-). exists (dst, p). split; [done|].
    apply list_elem_of_filter. split; [done|]. by apply elem_of_map_to_list.
Qed.

Lemma destinations_of_remove_node (sc : scene) (p : plug) (x : string) :
  cmds.destinations_of sc p = [] → cmds.destinations_of (remove_node x sc) p = [].
Proof.
  intros Hnil. apply elem_of_nil_inv. intros y Hy.
  apply elem_of_destinations_of in Hy as (dst & [Hc _]%remove_node_connections & <-).
  assert (dst.1 ∈ cmds.destinations_of sc p) as Hin
    by (apply elem_of_destinations_of; eauto).
  rewrite Hnil in Hin. by apply not_elem_of_nil in Hin.
Qed.

(** What a reference resolves to once node [x] has been deleted. *)
Lemma resolved_after_delete (sc : scene) (n attr x y p : string) (nd : node) :
  nodes sc !! n = Some nd →
  is_Some (node_attrs nd !! attr) →
  connections sc !! (n, attr) = Some (y, p) →
  cmds.destinations_of sc (n, attr) = [] →
  resolved (remove_node x sc) n attr = if bool_decide (y = x ∨ n = x) then None else Some y.
Proof.
  intros Hn Ha Hc Hd. unfold resolved. rewrite remove_node_nodes.
  destruct (decide (x = n)) as [->|Hxn].
  { rewrite bool_decide_eq_true_2 by auto. done. }
  rewrite Hn, bool_decide_eq_true_2 by done.
  rewrite destinations_of_remove_node, app_nil_r by done.
  unfold cmds.sources_of.
  destruct (decide (y = x)) as [->|Hyx].
  - rewrite bool_decide_eq_true_2 by auto.
    destruct (connections (remove_node x sc) !! (n, attr)) as [src|] eqn:Hc'; [|done].
    apply remove_node_connections in Hc' as (Hc' & _ & Hsrc).
    rewrite Hc in Hc'. injection Hc' as <-. done.
  - rewrite bool_decide_eq_false_2 by (intros [?|?]; congruence).
    assert (connections (remove_node x sc) !! (n, attr) = Some (y, p)) as ->; [|done].
    apply remove_node_connections. simpl. repeat split; congruence.
Qed.

(** C3.  For a record node [n] of the scene, [get_constraint_data] returns
    a record and leaves the scene unchanged, whatever is left of the node's
    attributes and of the objects it refers to.  Each of the six reference
    fields is what the reference attribute resolves to, and is [None] when
    the attribute is missing or nothing is connected to it.  In particular,
    once an object [x] has been deleted, the read still returns, and a
    reference that was driven by [x] now reads as [None], while one driven
    by another object [y] still reads as [y]: the record comes back as a
    value with [None] in the fields that no longer resolve. *)
Theorem read_never_raises (sc : scene) (n : string) (nd : node) :
  nodes sc !! n = Some nd →
  (∃ data : constraint_data,
     get_constraint_data n sc = (sc, Returned data)
     ∧ network_node data = n
     ∧ references data = resolved sc n <$> reference_attrs
     ∧ (∀ attr,
          (cmds.attributeQuery_exists attr n sc).2 = Returned false
          ∨ (cmds.listConnections (n, attr) sc).2 = Returned [] →
          resolved sc n attr = None))
  ∧ (∀ (x y p : string) (i : nat) (attr : string) (sc' : scene),
       reference_attrs !! i = Some attr →
       is_Some (node_attrs nd !! attr) →
       connections sc !! (n, attr) = Some (y, p) →
       cmds.destinations_of sc (n, attr) = [] →
       x ≠ n →
       cmds.delete x sc = (sc', Returned tt) →
       ∃ data data' : constraint_data,
         get_constraint_data n sc = (sc, Returned data)
         ∧ references data !! i = Some (Some y)
         ∧ get_constraint_data n sc' = (sc', Returned data')
         ∧ references data' !! i = Some (if bool_decide (y = x) then None else Some y)).
Proof.
  intros Hn. split.
  - eexists. split; [apply get_constraint_data_eq; eauto|].
    split; [done|]. split; [done|].
    intros attr. unfold resolved, cmds.attributeQuery_exists, cmds.listConnections.
    simpl. rewrite Hn. simpl.
    intros [H|H]; injection H as H; rewrite H; [done|by case_bool_decide].
  - intros x y p i attr sc' Hi Ha Hc Hd Hxn Hdel.
    unfold cmds.delete in Hdel. destruct (nodes sc !! x); [|done].
    injection Hdel as <-.
    assert (nodes (remove_node x sc) !! n = Some nd) as Hn'
      by (rewrite remove_node_nodes; by rewrite decide_False).
    eexists _, _. split; [apply get_constraint_data_eq; eauto|].
    split; [|split; [apply get_constraint_data_eq; eauto|]].
    + change (references _) with (resolved sc n <$> reference_attrs).
      rewrite list_lookup_fmap, Hi. simpl.
      by rewrite (resolved_driven sc n attr nd (y, p)).
    + change (references _) with (resolved (remove_node x sc) n <$> reference_attrs).
      rewrite list_lookup_fmap, Hi. simpl.
      rewrite (resolved_after_delete sc n attr x y p nd) by done.
      f_equal. repeat case_bool_decide; naive_solver.
Qed.

(** C3 on the demo record: once [prop1] is deleted, the record's
    source_driven field reads as [None]. *)
Lemma read_never_raises_witness :
  ∃ data data' : constraint_data,
    get_constraint_data "relMtxConstraint_data1" demo_record_scene
    = (demo_record_scene, Returned data)
    ∧ references data !! 1%nat = Some (Some "prop1")
    ∧ get_constraint_data "relMtxConstraint_data1" (remove_node "prop1" demo_record_scene)
      = (remove_node "prop1" demo_record_scene, Returned data')
    ∧ references data' !! 1%nat
      = Some (if bool_decide ("prop1" = "prop1") then None else Some "prop1").
Proof.
  apply (proj2 (read_never_raises demo_record_scene "relMtxConstraint_data1"
                  (Node "network" None (record_attrs "prop1 â†’ prop2") ∅)
                  ltac:(vm_compute; reflexivity))
           "prop1" "prop1" "message" 1%nat "sourceDriven").
  - reflexivity.
  - exists MessageValue. vm_compute. reflexivity.
  - vm_compute. reflexivity.
  - vm_compute. reflexivity.
  - discriminate.
  - vm_compute. reflexivity.
Defined.

Example read_after_delete_demo :
  (get_constraint_data "relMtxConstraint_data1" (remove_node "prop1" demo_record_scene)).2
  = Returned (ConstraintData "relMtxConstraint_data1" "prop1 â†’ prop2"
                (Some "hand1") None (Some "hand2") (Some "prop2")
                (Some "mult1") (Some "decomp1")).
Proof. vm_compute. reflexivity. Qed.

(** A node that carries none of the record's attributes reads as a record
    with every reference [None]; a name that is no node of the scene does
    not read at all: the host refuses the first query. *)
Example read_bare_node_demo :
  get_constraint_data "hand1" demo_scene
  = (demo_scene, Returned (ConstraintData "hand1" "" None None None None None None)).
Proof. vm_compute. reflexivity. Qed.

Example read_missing_record_demo :
  get_constraint_data "no_such_node" demo_scene = (demo_scene, Raised RuntimeError).
Proof. vm_compute. reflexivity. Qed.

(** ** Deleting a constraint (C4) *)

(** One guarded removal: it returns, and it removes the named node or
    nothing. *)
Lemma delete_if_exists_spec (o : option string) (sc : scene) :
  ∃ sc', delete_if_exists o sc = (sc', Returned tt)
         ∧ (sc' = sc ∨ ∃ x, o = Some x ∧ sc' = remove_node x sc)
         ∧ (∀ x, o = Some x → x ≠ "" → nodes sc' !! x = None).
Proof.
  destruct o as [x|]; simpl; [|by exists sc; repeat split; [left|]].
  case_bool_decide as Hx; [|exists sc; repeat split; [by left|congruence]].
  unfold bind, cmds.objExists, query.
  case_bool_decide as Hex.
  - rewrite delete_existing by done. eexists. repeat split; [right; eauto|].
    intros ? [= <-] _. rewrite remove_node_nodes. by rewrite decide_True.
  - exists sc. repeat split; [by left|]. intros ? [= <-] _.
    by apply eq_None_not_Some.
Qed.

Lemma guarded_delete_spec (n : string) (sc : scene) :
  ∃ sc', (let! found := cmds.objExists n in
          if found : bool then cmds.delete n else ret tt) sc = (sc', Returned tt)
         ∧ (sc' = sc ∨ sc' = remove_node n sc)
         ∧ nodes sc' !! n = None.
Proof.
  unfold bind, cmds.objExists, query.
  case_bool_decide as Hex.
  - rewrite delete_existing by done. eexists. repeat split; [by right|].
    rewrite remove_node_nodes. by rewrite decide_True.
  - exists sc. repeat split; [by left|]. by apply eq_None_not_Some.
Qed.

(** A removal step never brings a node back and touches no other node. *)
Lemma removal_step_nodes (sc sc' : scene) (x : string) :
  sc' = sc ∨ sc' = remove_node x sc →
  ∀ y, (nodes sc !! y = None → nodes sc' !! y = None)
       ∧ (y ≠ x → nodes sc' !! y = nodes sc !! y).
Proof.
  intros [->| ->] y; [done|]. rewrite remove_node_nodes.
  split; intros; case_decide; congruence.
Qed.

(** On a name that is no node of the scene, [delete_constraint] stops at its
    first statement, the read of the record: the three guarded removals are
    not reached. *)
Lemma delete_constraint_missing (sc : scene) (n : string) :
  nodes sc !! n = None → delete_constraint n sc = (sc, Raised RuntimeError).
Proof.
  intros Hn. unfold delete_constraint.
  erewrite bind_raised; [reflexivity|]. by apply get_constraint_data_missing.
Qed.

(** What [delete_constraint] does to the nodes of the scene, for a record
    node that is there. *)
Lemma delete_constraint_nodes (sc : scene) (n : string) :
  is_Some (nodes sc !! n) →
  ∃ sc1 : scene,
    delete_constraint n sc = (sc1, Returned tt)
    ∧ nodes sc1 !! n = None
    ∧ (∀ x, x ≠ "" →
         resolved sc n "decomposeMatrixNode" = Some x
         ∨ resolved sc n "multMatrixNode" = Some x →
         nodes sc1 !! x = None)
    ∧ (∀ x, x ≠ n →
         resolved sc n "decomposeMatrixNode" ≠ Some x →
         resolved sc n "multMatrixNode" ≠ Some x →
         nodes sc1 !! x = nodes sc !! x).
Proof.
  intros Hn. unfold delete_constraint.
  erewrite bind_returned by (by apply get_constraint_data_eq).
  cbn [decompose_matrix mult_matrix].
  set (od := resolved sc n "decomposeMatrixNode").
  set (om := resolved sc n "multMatrixNode").
  destruct (delete_if_exists_spec od sc) as (sca & Hrun_a & Hstep_a & Hgone_a).
  destruct (delete_if_exists_spec om sca) as (scb & Hrun_b & Hstep_b & Hgone_b).
  destruct (guarded_delete_spec n scb) as (sc1 & Hrun_n & Hstep_n & Hgone_n).
  exists sc1.
  erewrite bind_returned by exact Hrun_a.
  erewrite bind_returned by exact Hrun_b.
  rewrite Hrun_n.
  assert (∀ y, (nodes sc !! y = None → nodes sca !! y = None)
               ∧ (od ≠ Some y → nodes sca !! y = nodes sc !! y)) as Hna.
  { intros y. destruct Hstep_a as [->|(x & Hx & ->)]; [done|].
    destruct (removal_step_nodes sc _ x (or_intror eq_refl) y) as [H1 H2].
    split; [done|]. intros Hy. apply H2. congruence. }
  assert (∀ y, (nodes sca !! y = None → nodes scb !! y = None)
               ∧ (om ≠ Some y → nodes scb !! y = nodes sca !! y)) as Hnb.
  { intros y. destruct Hstep_b as [->|(x & Hx & ->)]; [done|].
    destruct (removal_step_nodes sca _ x (or_intror eq_refl) y) as [H1 H2].
    split; [done|]. intros Hy. apply H2. congruence. }
  pose proof (removal_step_nodes scb sc1 n Hstep_n) as Hnn.
  split; [done|]. split; [done|]. split.
  - intros x Hx [Hd|Hm].
    + apply Hnn, Hnb. by apply Hgone_a.
    + apply Hnn. by apply Hgone_b.
  - intros x Hxn Hd Hm.
    rewrite (proj2 (Hnn x)) by done.
    rewrite (proj2 (Hnb x)) by done.
    by rewrite (proj2 (Hna x)).
Qed.

(** C4.  For a record node [n] of the scene, whatever is left of the
    applier and the combiner it refers to, [delete_constraint] returns
    without raising: each of its three removals is skipped when its node is
    not there.  Afterwards the record node is gone, the applier and the
    combiner the record resolved to are gone, and every other node is as it
    was.  A second call on the same name does not return: it raises, and
    the scene stays as the first call left it.  The call begins by reading
    the record, before any of its three existence checks, and the host
    refuses the query on the node the first call deleted. *)
Theorem delete_constraint_twice (sc : scene) (n : string) :
  is_Some (nodes sc !! n) →
  ∃ sc1 : scene,
    delete_constraint n sc = (sc1, Returned tt)
    ∧ nodes sc1 !! n = None
    ∧ (∀ x, x ≠ "" →
         resolved sc n "decomposeMatrixNode" = Some x
         ∨ resolved sc n "multMatrixNode" = Some x →
         nodes sc1 !! x = None)
    ∧ (∀ x, x ≠ n →
         resolved sc n "decomposeMatrixNode" ≠ Some x →
         resolved sc n "multMatrixNode" ≠ Some x →
         nodes sc1 !! x = nodes sc !! x)
    ∧ get_constraint_data n sc1 = (sc1, Raised RuntimeError)
    ∧ delete_constraint n sc1 = (sc1, Raised RuntimeError).
Proof.
  intros Hn.
  destruct (delete_constraint_nodes sc n Hn) as (sc1 & Hrun & Hgone & Howned & Hothers).
  exists sc1. split; [exact Hrun|]. split; [exact Hgone|].
  split; [exact Howned|]. split; [exact Hothers|]. split.
  - by apply get_constraint_data_missing.
  - by apply delete_constraint_missing.
Qed.

(** C4 on the built demo scene: the first call deletes the record with its
    applier and combiner, the second call raises. *)
Lemma delete_constraint_twice_witness :
  ∃ sc1 : scene,
    delete_constraint "relMtxConstraint_data1" demo_built_scene = (sc1, Returned tt)
    ∧ nodes sc1 !! "relMtxConstraint_data1" = None
    ∧ (∀ x, x ≠ "" →
         resolved demo_built_scene "relMtxConstraint_data1" "decomposeMatrixNode" = Some x
         ∨ resolved demo_built_scene "relMtxConstraint_data1" "multMatrixNode" = Some x →
         nodes sc1 !! x = None)
    ∧ (∀ x, x ≠ "relMtxConstraint_data1" →
         resolved demo_built_scene "relMtxConstraint_data1" "decomposeMatrixNode" ≠ Some x →
         resolved demo_built_scene "relMtxConstraint_data1" "multMatrixNode" ≠ Some x →
         nodes sc1 !! x = nodes demo_built_scene !! x)
    ∧ get_constraint_data "relMtxConstraint_data1" sc1 = (sc1, Raised RuntimeError)
    ∧ delete_constraint "relMtxConstraint_data1" sc1 = (sc1, Raised RuntimeError).
Proof.
  apply (delete_constraint_twice demo_built_scene "relMtxConstraint_data1").
  eexists. vm_compute. reflexivity.
Defined.

(** The spec's scenario, run: build, delete, delete again.  The first
    deletion leaves the nodes and connections the scene had before the
    build; the second raises and changes nothing.  A record whose applier
    was deleted behind the tool's back still deletes without raising. *)
Example delete_twice_demo :
  let sc1 := (create_relative_matrix_constraint "hand1" "prop1" "hand2" "prop2" demo_scene).1 in
  let sc2 := (delete_constraint "relMtxConstraint_data1" sc1).1 in
  (delete_constraint "relMtxConstraint_data1" sc1).2 = Returned tt
  ∧ (delete_constraint "relMtxConstraint_data1" sc2).2 = Raised RuntimeError
  ∧ dom (nodes (delete_constraint "relMtxConstraint_data1" sc2).1) = dom (nodes sc2)
  ∧ dom (nodes sc2) = dom (nodes demo_scene)
  ∧ connections sc2 = ∅
  ∧ (delete_constraint "relMtxConstraint_data1"
       (remove_node "relMtxConstraint_decomposeMatrix1" sc1)).2 = Returned tt.
Proof.
  split; [vm_compute; reflexivity|]. split; [vm_compute; reflexivity|].
  split; [apply (bool_decide_unpack _); vm_compute; exact I|].
  split; [apply (bool_decide_unpack _); vm_compute; exact I|].
  split; [apply (bool_decide_unpack _); vm_compute; exact I|].
  vm_compute. reflexivity.
Qed.

(** ** Building the computation graph (C6) *)

Lemma scene_wf_free (sc : scene) (n attr : string) :
  scene_wf sc → nodes sc !! n = None → connections sc !! (n, attr) = None.
Proof.
  intros Hwf Hn. destruct (connections sc !! (n, attr)) as [src|] eqn:Hc; [|done].
  by destruct (scene_wf_unused sc n Hwf Hn _ _ Hc) as [? _].
Qed.

Lemma scene_wf_no_input (sc : scene) (n : string) :
  scene_wf sc → nodes sc !! n = None →
  filter (λ kv : plug * plug, kv.1.1 = n) (connections sc) = ∅.
Proof.
  intros Hwf Hn. apply map_empty_filter. intros dst src Hc. simpl.
  by destruct (scene_wf_unused sc n Hwf Hn _ _ Hc) as [? _].
Qed.

Lemma scene_wf_parent (sc : scene) (n p : string) (nd : node) :
  scene_wf sc → nodes sc !! n = Some nd → node_parent nd = Some p →
  is_Some (nodes sc !! p).
Proof.
  intros [_ Hwf] Hn Hp. destruct (Hwf n nd Hn) as [?|Hs]; [congruence|].
  rewrite Hp in Hs. exact Hs.
Qed.

Lemma listRelatives_parent_eq (n : string) (nd : node) (ns : gmap string node)
    (cs : gmap plug plug) (u : ui_state) :
  ns !! n = Some nd →
  cmds.listRelatives_parent n (Scene ns cs u)
  = (Scene ns cs u, Returned (option_list (node_parent nd))).
Proof. intros Hn. unfold cmds.listRelatives_parent. simpl. by rewrite Hn. Qed.

Ltac solve_key_ne :=
  let Heq := fresh in
  intros Heq; injection Heq; intros; first [discriminate | congruence].

Ltac unfold_node_maps :=
  repeat match goal with x := _ : gmap string node |- _ => subst x end.

Ltac solve_node_exists :=
  solve [simpl; unfold_node_maps; repeat rewrite lookup_insert_is_Some'; auto 10].

Ltac solve_plug_free :=
  solve [simpl; rewrite ?lookup_insert_ne by solve_key_ne; auto].

(** The closed form of [create_relative_matrix_constraint]. *)
Lemma create_relative_matrix_constraint_eq (sc : scene) (sr sd tr td : string) (nd_td : node) :
  scene_wf sc →
  nodes sc !! td = Some nd_td →
  Forall (λ x, is_Some (nodes sc !! x)) [sr; sd; tr] →
  connections sc !! (td, "translate") = None →
  connections sc !! (td, "rotate") = None →
  let m := unique_name (nodes sc) (NETWORK_NODE_PREFIX +:+ "_multMatrix#") in
  let ns1 := <[m := Node "multMatrix" None ∅ ∅]> (nodes sc) in
  let d := unique_name ns1 (NETWORK_NODE_PREFIX +:+ "_decomposeMatrix#") in
  let ns2 := <[d := Node "decomposeMatrix" None ∅ ∅]> ns1 in
  let net := unique_name ns2 (NETWORK_NODE_PREFIX +:+ "_data#") in
  create_relative_matrix_constraint sr sd tr td sc
  = (built_scene sc sr sd tr td m d net (node_parent nd_td), Returned net)
  ∧ nodes sc !! m = None ∧ nodes sc !! d = None ∧ nodes sc !! net = None
  ∧ m ≠ d ∧ m ≠ net ∧ d ≠ net.
Proof.
  intros Hwf Htd Hobjs Htrans Hrot m ns1 d ns2 net.
  assert (nodes sc !! m = None) as Hm by exact (unique_name_fresh _ _).
  assert (ns1 !! d = None) as Hd1 by exact (unique_name_fresh _ _).
  assert (ns2 !! net = None) as Hnet2 by exact (unique_name_fresh _ _).
  assert (m ≠ d) as Hmd.
  { intros Heq. unfold ns1 in Hd1. rewrite <- Heq, lookup_insert_eq in Hd1.
    discriminate Hd1. }
  assert (nodes sc !! d = None) as Hd.
  { unfold ns1 in Hd1. rewrite lookup_insert_ne in Hd1 by exact Hmd. exact Hd1. }
  assert (d ≠ net) as Hdn.
  { intros Heq. unfold ns2 in Hnet2. rewrite <- Heq, lookup_insert_eq in Hnet2.
    discriminate Hnet2. }
  assert (m ≠ net) as Hmn.
  { intros Heq. unfold ns2, ns1 in Hnet2.
    rewrite lookup_insert_ne in Hnet2 by exact Hdn.
    rewrite <- Heq, lookup_insert_eq in Hnet2. discriminate Hnet2. }
  assert (nodes sc !! net = None) as Hnet.
  { unfold ns2, ns1 in Hnet2.
    rewrite lookup_insert_ne in Hnet2 by exact Hdn.
    rewrite lookup_insert_ne in Hnet2 by exact Hmn. exact Hnet2. }
  split; [|repeat split; assumption].
  repeat match goal with H : Forall _ (_ :: _) |- _ =>
    apply Forall_cons in H; destruct H as [? H] end.
  assert (is_Some (nodes sc !! td)) as Htd' by (exists nd_td; exact Htd).
  assert (∀ x, is_Some (nodes sc !! x) → x ≠ m ∧ x ≠ d ∧ x ≠ net) as Hold.
  { intros x [v Hx]. repeat split; intros Heq; rewrite Heq in Hx; congruence. }
  destruct (Hold td Htd') as (Htm & Htdd & Htn).
  assert (match node_parent nd_td with
          | Some p => is_Some (nodes sc !! p) | None => True end) as Hparent.
  { destruct (node_parent nd_td) as [p|] eqn:Hp; [|exact I].
    exact (scene_wf_parent sc td p nd_td Hwf Htd Hp). }
  pose proof (λ a, scene_wf_free sc m a Hwf Hm) as Hfree_m.
  pose proof (λ a, scene_wf_free sc d a Hwf Hd) as Hfree_d.
  pose proof (λ a, scene_wf_free sc net a Hwf Hnet) as Hfree_net.
  unfold built_scene. destruct sc as [ns cs u]. simpl in *.
  unfold create_relative_matrix_constraint.
  py_run createNode_eq_scene idtac. fold m ns1.
  do 3 py_run connectAttr_free ltac:(first [solve_node_exists | solve_plug_free]).
  py_run (listRelatives_parent_eq td nd_td)
    ltac:(unfold ns1; rewrite lookup_insert_ne by congruence; exact Htd).
  destruct (node_parent nd_td) as [p|]; unfold option_list, option_rect; cbv beta iota.
  - py_run connectAttr_free ltac:(first [solve_node_exists | solve_plug_free]).
    py_run createNode_eq_scene idtac. fold d ns2.
    do 3 py_run connectAttr_free ltac:(first [solve_node_exists | solve_plug_free]).
    rewrite create_constraint_network_node_eq; [reflexivity| |].
    + intros attr. simpl. fold net.
      rewrite ?lookup_insert_ne by solve_key_ne. apply Hfree_net.
    + repeat constructor; simpl; solve_node_exists.
  - rewrite bind_ret.
    py_run createNode_eq_scene idtac. fold d ns2.
    do 3 py_run connectAttr_free ltac:(first [solve_node_exists | solve_plug_free]).
    rewrite create_constraint_network_node_eq; [reflexivity| |].
    + intros attr. simpl. fold net.
      rewrite ?lookup_insert_ne by solve_key_ne. apply Hfree_net.
    + repeat constructor; simpl; solve_node_exists.
Qed.

Lemma wired_inputs_built_scene (sc : scene) (sr sd tr td m d net : string)
    (parent : option string) :
  scene_wf sc → nodes sc !! m = None → td ≠ m → d ≠ m → net ≠ m →
  wired_inputs (built_scene sc sr sd tr td m d net parent) m
  = let inputs3 : gmap plug plug :=
      <[(m, "matrixIn[2]") := (tr, "worldMatrix[0]")]>
        (<[(m, "matrixIn[1]") := (sr, "worldInverseMatrix[0]")]>
           (<[(m, "matrixIn[0]") := (sd, "worldMatrix[0]")]> ∅)) in
    match parent with
    | Some p => <[(m, "matrixIn[3]") := (p, "worldInverseMatrix[0]")]> inputs3
    | None => inputs3
    end.
Proof.
  intros Hwf Hm Htm Hdm Hnm. unfold wired_inputs, built_scene, record_links. simpl.
  rewrite !(map_filter_insert_not (λ kv : plug * plug, kv.1.1 = m) _ (net, _))
    by (intros ?; simpl; congruence).
  rewrite !(map_filter_insert_not (λ kv : plug * plug, kv.1.1 = m) _ (td, _))
    by (intros ?; simpl; congruence).
  rewrite !(map_filter_insert_not (λ kv : plug * plug, kv.1.1 = m) _ (d, _))
    by (intros ?; simpl; congruence).
  destruct parent as [p|];
    rewrite !(map_filter_insert_True (λ kv : plug * plug, kv.1.1 = m)) by done;
    by rewrite (scene_wf_no_input sc m Hwf Hm).
Qed.

(** C6.  In a well-formed scene, for four existing objects of which
    target_driven has free translate and rotate plugs,
    [create_relative_matrix_constraint] returns a record whose combiner [m]
    is a new [multMatrix] node with these driven plugs and no other:
    [matrixIn[0]] from source_driven's [worldMatrix[0]], [matrixIn[1]] from
    source_ref's [worldInverseMatrix[0]], [matrixIn[2]] from target_ref's
    [worldMatrix[0]], and [matrixIn[3]] from the [worldInverseMatrix[0]] of
    target_driven's parent exactly when it has one: four wired inputs with a
    parent, three without. *)
Theorem combiner_inputs_in_fixed_order
    (sc : scene) (sr sd tr td : string) (nd_td : node) :
  scene_wf sc →
  nodes sc !! td = Some nd_td →
  Forall (λ x, is_Some (nodes sc !! x)) [sr; sd; tr] →
  connections sc !! (td, "translate") = None →
  connections sc !! (td, "rotate") = None →
  ∃ (net m : string) (sc' : scene),
    create_relative_matrix_constraint sr sd tr td sc = (sc', Returned net)
    ∧ resolved sc' net "multMatrixNode" = Some m
    ∧ nodes sc !! m = None
    ∧ node_type <$> nodes sc' !! m = Some "multMatrix"
    ∧ wired_inputs sc' m !! (m, "matrixIn[0]") = Some (sd, "worldMatrix[0]")
    ∧ wired_inputs sc' m !! (m, "matrixIn[1]") = Some (sr, "worldInverseMatrix[0]")
    ∧ wired_inputs sc' m !! (m, "matrixIn[2]") = Some (tr, "worldMatrix[0]")
    ∧ wired_inputs sc' m !! (m, "matrixIn[3]")
      = (λ p, (p, "worldInverseMatrix[0]")) <$> node_parent nd_td
    ∧ size (wired_inputs sc' m)
      = match node_parent nd_td with Some _ => 4%nat | None => 3%nat end.
Proof.
  intros Hwf Htd Hobjs Htrans Hrot.
  destruct (create_relative_matrix_constraint_eq sc sr sd tr td nd_td Hwf Htd Hobjs Htrans Hrot)
    as (Hrun & Hm & Hd & Hnet & Hmd & Hmn & Hdn).
  set (m := unique_name (nodes sc) (NETWORK_NODE_PREFIX +:+ "_multMatrix#")) in *.
  set (d := unique_name (<[m := _]> (nodes sc)) _) in *.
  set (net := unique_name (<[d := _]> _) _) in *.
  assert (td ≠ m) as Htm by (intros Heq; rewrite Heq in Htd; congruence).
  exists net, m, (built_scene sc sr sd tr td m d net (node_parent nd_td)).
  split; [exact Hrun|].
  rewrite (wired_inputs_built_scene sc sr sd tr td m d net _ Hwf Hm) by congruence.
  split.
  { unfold built_scene.
    rewrite (resolved_driven _ net "multMatrixNode"
               (Node "network" None (record_attrs (sd +:+ " â†’ " +:+ td)) ∅)
               (m, "message")); [done| | |].
    - simpl. apply lookup_insert_eq.
    - simpl. eauto.
    - simpl. apply record_links_lookup. }
  split; [exact Hm|]. split.
  { unfold built_scene. simpl.
    rewrite lookup_insert_ne by congruence. rewrite lookup_insert_ne by congruence.
    by rewrite lookup_insert_eq. }
  destruct (node_parent nd_td) as [p|]; cbv zeta; simpl.
  - repeat split.
    + rewrite !lookup_insert_ne by solve_key_ne. apply lookup_insert_eq.
    + rewrite !lookup_insert_ne by solve_key_ne. apply lookup_insert_eq.
    + rewrite !lookup_insert_ne by solve_key_ne. apply lookup_insert_eq.
    + apply lookup_insert_eq.
    + rewrite !map_size_insert_None, map_size_empty; [done|..];
        rewrite ?lookup_insert_ne by solve_key_ne; apply lookup_empty.
  - repeat split.
    + rewrite !lookup_insert_ne by solve_key_ne. apply lookup_insert_eq.
    + rewrite !lookup_insert_ne by solve_key_ne. apply lookup_insert_eq.
    + apply lookup_insert_eq.
    + rewrite !lookup_insert_ne by solve_key_ne. apply lookup_empty.
    + rewrite !map_size_insert_None, map_size_empty; [done|..];
        rewrite ?lookup_insert_ne by solve_key_ne; apply lookup_empty.
Qed.

(** C6 in the spec's scenario: [prop2] is parented under [propGrp2]. *)
Lemma combiner_inputs_in_fixed_order_witness :
  ∃ (net m : string) (sc' : scene),
    create_relative_matrix_constraint "hand1" "prop1" "hand2" "prop2" demo_scene
    = (sc', Returned net)
    ∧ resolved sc' net "multMatrixNode" = Some m
    ∧ nodes demo_scene !! m = None
    ∧ node_type <$> nodes sc' !! m = Some "multMatrix"
    ∧ wired_inputs sc' m !! (m, "matrixIn[0]") = Some ("prop1", "worldMatrix[0]")
    ∧ wired_inputs sc' m !! (m, "matrixIn[1]") = Some ("hand1", "worldInverseMatrix[0]")
    ∧ wired_inputs sc' m !! (m, "matrixIn[2]") = Some ("hand2", "worldMatrix[0]")
    ∧ wired_inputs sc' m !! (m, "matrixIn[3]")
      = (λ p, (p, "worldInverseMatrix[0]")) <$> Some "propGrp2"
    ∧ size (wired_inputs sc' m) = 4%nat.
Proof.
  apply (combiner_inputs_in_fixed_order demo_scene "hand1" "prop1" "hand2" "prop2"
           (Node "transform" (Some "propGrp2") ∅ ∅)).
  - split; apply (bool_decide_unpack _); vm_compute; exact I.
  - vm_compute. reflexivity.
  - repeat constructor; apply (bool_decide_unpack _); vm_compute; exact I.
  - vm_compute. reflexivity.
  - vm_compute. reflexivity.
Defined.

(** The two scenarios of the spec, run: four wired inputs with a parent,
    three without. *)
Example combiner_inputs_parented_demo :
  map_to_list
    (wired_inputs
       (create_relative_matrix_constraint "hand1" "prop1" "hand2" "prop2" demo_scene).1
       "relMtxConstraint_multMatrix1")
  ≡ₚ [(("relMtxConstraint_multMatrix1", "matrixIn[0]"), ("prop1", "worldMatrix[0]"));
      (("relMtxConstraint_multMatrix1", "matrixIn[1]"), ("hand1", "worldInverseMatrix[0]"));
      (("relMtxConstraint_multMatrix1", "matrixIn[2]"), ("hand2", "worldMatrix[0]"));
      (("relMtxConstraint_multMatrix1", "matrixIn[3]"), ("propGrp2", "worldInverseMatrix[0]"))].
Proof. vm_compute. apply (bool_decide_unpack _). vm_compute. exact I. Qed.

Example combiner_inputs_unparented_demo :
  size
    (wired_inputs
       (create_relative_matrix_constraint "hand1" "prop1" "hand2" "prop2"
          demo_scene_unparented).1
       "relMtxConstraint_multMatrix1")
  = 3%nat.
Proof. vm_compute. reflexivity. Qed.

(** ** Baking (C5) *)

Lemma sampled_frames_elem (start stop f : Z) :
  (start ≤ f ≤ stop)%Z → f ∈ sampled_frames start stop.
Proof.
  intros Hf. unfold sampled_frames. apply list_elem_of_fmap.
  exists (Z.to_nat (f - start)). split; [lia|]. apply elem_of_seq. lia.
Qed.

Lemma key_channels_keeps (frames : gset Z) (channels : list string)
    (ks : gmap string (gset Z)) (ch : string) (f : Z) :
  f ∈ default ∅ (ks !! ch) → f ∈ default ∅ (key_channels frames channels ks !! ch).
Proof.
  unfold key_channels. revert ks. induction channels as [|a channels IH]; intros ks Hf; [done|].
  simpl. apply IH. destruct (decide (a = ch)) as [->|Hne].
  - rewrite lookup_insert_eq. simpl. set_solver.
  - by rewrite lookup_insert_ne.
Qed.

Lemma key_channels_elem (frames : gset Z) (channels : list string)
    (ks : gmap string (gset Z)) (ch : string) (f : Z) :
  ch ∈ channels → f ∈ frames → f ∈ default ∅ (key_channels frames channels ks !! ch).
Proof.
  revert ks. induction channels as [|a channels IH]; intros ks Hch Hf.
  - by apply not_elem_of_nil in Hch.
  - apply elem_of_cons in Hch as [<-|Hch].
    + change (key_channels frames (ch :: channels) ks)
        with (key_channels frames channels (<[ch := frames ∪ default ∅ (ks !! ch)]> ks)).
      apply key_channels_keeps. rewrite lookup_insert_eq. simpl. set_solver.
    + by apply IH.
Qed.

(** The bake itself: with the target in the scene it returns, keys the six
    channels of the target, and changes no other node and no connection. *)
Lemma bake_with_viewport_off_eq (sc : scene) (t : string) (nd : node) (start stop : Z) :
  nodes sc !! t = Some nd →
  ∃ u', _bake_with_viewport_off t start stop sc
        = (Scene (<[t := with_keys (key_channels (list_to_set (sampled_frames start stop))
                                      ["tx"; "ty"; "tz"; "rx"; "ry"; "rz"]) nd]> (nodes sc))
             (connections sc) u',
           Returned tt).
Proof.
  intros Ht. unfold _bake_with_viewport_off, viewport_off.
  rewrite mel_eval_pane_off, mel_eval_pane_on, mel_eval_slider_off, mel_eval_slider_on.
  destruct sc as [ns cs [mode pane susp slider]]. simpl in Ht.
  unfold bind at 1. unfold cmds.evaluationManager_query_mode at 1, query at 1.
  cbn [ui evaluation_mode].
  destruct (bool_decide ("parallel" ∈ [mode]));
    unfold try_finally, try_except, bind, ret, raise, update, cmds.refresh,
      cmds.refresh_suspend, cmds.evaluationManager_mode, cmds.bakeResults,
      with_ui, with_nodes; simpl; rewrite Ht; simpl; eauto.
Qed.

Lemma resolved_same (sc sc' : scene) (n attr : string) :
  nodes sc' !! n = nodes sc !! n → connections sc' = connections sc →
  resolved sc' n attr = resolved sc n attr.
Proof.
  intros Hn Hc. unfold resolved, cmds.sources_of, cmds.destinations_of.
  by rewrite Hn, Hc.
Qed.

Lemma in_host_eq {A} (c : py scene A) (w : window) (sc' : scene) (r : outcome A) :
  c (host w) = (sc', r) →
  in_host c w
  = (Window sc' (start_frame_spin w) (end_frame_spin w) (status_label w)
       (constraints_list w), r).
Proof. intros H. unfold in_host. by rewrite H. Qed.

(** Filling the list widget: one row per listed record, the host untouched. *)
Lemma refresh_rows (l : list string) (w : window) :
  Forall (λ x, is_Some (nodes (host w) !! x)) l →
  ∃ rows, for_in l (λ network_node,
            let! data := in_host (get_constraint_data network_node) in
            let shown := if bool_decide (display_name data ≠ "")
                         then display_name data else network_node in
            update (λ w, Window (host w) (start_frame_spin w) (end_frame_spin w)
                           (status_label w)
                           (constraints_list w ++ [(network_node, shown)]))) w
          = (Window (host w) (start_frame_spin w) (end_frame_spin w) (status_label w)
               (constraints_list w ++ rows), Returned tt)
          ∧ rows.*1 = l.
Proof.
  unfold for_in. revert w. induction l as [|x l IH]; intros w Hl.
  - exists []. split; [|done]. rewrite app_nil_r. by destruct w.
  - apply Forall_cons in Hl as [Hx Hl]. cbn [for_each].
    erewrite bind_returned; cycle 1.
    { erewrite bind_returned by (by apply in_host_eq, get_constraint_data_eq). reflexivity. }
    match goal with |- context [for_each l tt _ ?w1] =>
      destruct (IH w1 Hl) as (rows & Hrun & Hrows); rewrite Hrun end.
    simpl. eexists (_ :: rows). rewrite <- app_assoc. split; [reflexivity|].
    rewrite fmap_cons. simpl. by f_equal.
Qed.

Lemma refresh_constraint_list_spec (w : window) (l : list string) :
  find_constraint_network_nodes (host w) = (host w, Returned l) →
  ∃ w', _refresh_constraint_list w = (w', Returned tt)
        ∧ host w' = host w
        ∧ (constraints_list w').*1 = l.
Proof.
  intros Hfind. unfold _refresh_constraint_list.
  erewrite bind_returned by reflexivity.
  erewrite bind_returned by (apply in_host_eq; simpl; exact Hfind).
  match goal with |- context [bind (for_in l ?body) _ ?w1] =>
    destruct (refresh_rows l w1) as (rows & Hrun & Hrows) end.
  { simpl. by eapply found_are_nodes. }
  erewrite bind_returned by exact Hrun.
  case_bool_decide; eexists; (split; [reflexivity|]); simpl; done.
Qed.

Lemma try_except_returned {S A} (body : py S A) (handler : exn → py S A) (s s' : S) (a : A) :
  body s = (s', Returned a) → try_except body handler s = (s', Returned a).
Proof. intros H. unfold try_except. by rewrite H. Qed.

(** C5.  [_on_bake_single] on a record [n], with the frame range of the two
    spin boxes.  If the record node is there and its target_driven does not
    resolve to an existing object, the slot only reports "Target object not found": the
    host scene is left as it was, so no bake was started.  Otherwise (the
    target being an object of its own, not one of the record's three nodes)
    the slot returns; afterwards each of the six channels tx, ty, tz, rx, ry,
    rz of the target is keyed at every integer frame from the start frame to
    the end frame inclusive, the record node is gone, and
    [find_constraint_network_nodes] no longer lists it, nor does the
    refreshed list of the window. *)
Theorem bake_single_rejects_or_bakes (w : window) (n : string) :
  (is_Some (nodes (host w) !! n) →
   (∀ t, resolved (host w) n "targetDriven" = Some t →
         t = "" ∨ (nodes (host w) !! t = None)) →
   _on_bake_single n w
   = (Window (host w) (start_frame_spin w) (end_frame_spin w)
        ("Target object not found", StatusError) (constraints_list w),
      Returned tt))
  ∧ (∀ t,
       resolved (host w) n "targetDriven" = Some t →
       t ≠ "" →
       is_Some (nodes (host w) !! t) →
       t ≠ n →
       resolved (host w) n "decomposeMatrixNode" ≠ Some t →
       resolved (host w) n "multMatrixNode" ≠ Some t →
       ∃ (w' : window) (l : list string),
         _on_bake_single n w = (w', Returned tt)
         ∧ (∀ ch f, ch ∈ ["tx"; "ty"; "tz"; "rx"; "ry"; "rz"] →
                    (start_frame_spin w ≤ f ≤ end_frame_spin w)%Z →
                    f ∈ keyed_frames (host w') t ch)
         ∧ nodes (host w') !! n = None
         ∧ find_constraint_network_nodes (host w') = (host w', Returned l)
         ∧ (n ∉ l)
         ∧ (n ∉ (constraints_list w').*1)).
Proof.
  split.
  - intros Hn Hgone. unfold _on_bake_single.
    erewrite bind_returned by (by apply in_host_eq, get_constraint_data_eq).
    cbn [target_driven].
    destruct (resolved (host w) n "targetDriven") as [t|] eqn:Ht.
    + destruct (Hgone t eq_refl) as [->|Hmissing].
      * by destruct w.
      * unfold truthy. case_bool_decide.
        -- erewrite bind_returned by (apply in_host_eq, objExists_eq).
           rewrite (bool_decide_eq_false_2 (is_Some (nodes (host w) !! t)))
             by (rewrite Hmissing; by intros [? ?]).
           by destruct w.
        -- by destruct w.
    + by destruct w.
  - intros t Ht Hne [nd Hnd] Htn Htd Htm.
    assert (is_Some (nodes (host w) !! n)) as Hn.
    { unfold resolved in Ht. destruct (nodes (host w) !! n); [eauto|done]. }
    unfold _on_bake_single.
    erewrite bind_returned by (by apply in_host_eq, get_constraint_data_eq).
    cbn [target_driven]. rewrite Ht.
    unfold truthy. rewrite bool_decide_eq_true_2 by done.
    erewrite bind_returned by (apply in_host_eq, objExists_eq).
    rewrite (bool_decide_eq_true_2 (is_Some (nodes (host w) !! t))) by eauto.
    erewrite bind_returned by reflexivity.
    erewrite bind_returned by reflexivity.
    erewrite bind_returned by reflexivity.
    (* the bake *)
    destruct (bake_with_viewport_off_eq (host w) t nd (start_frame_spin w) (end_frame_spin w) Hnd)
      as (u' & Hbake).
    set (sc_b := Scene _ _ u') in Hbake.
    (* the deletion, on the baked scene *)
    destruct (delete_constraint_nodes sc_b n) as (sc1 & Hdel & Hgone & _ & Hothers).
    { unfold sc_b. cbn [nodes]. rewrite lookup_insert_is_Some. by right. }
    assert (∀ attr, resolved sc_b n attr = resolved (host w) n attr) as Hres.
    { intros attr. apply resolved_same; [|done]. simpl. by rewrite lookup_insert_ne. }
    (* the list after the deletion *)
    destruct (find_constraint_network_nodes_spec sc1) as (l & Hfind & Hl).
    assert (n ∉ l) as Hnl.
    { intros (nd' & Hn' & _)%Hl. congruence. }
    match goal with |- context [try_except ?body ?h ?w0] =>
      assert (∃ w', body w0 = (w', Returned tt) ∧ host w' = sc1
                    ∧ (constraints_list w').*1 = l) as (w' & Hbody & Hhost & Hrows)
    end.
    { erewrite bind_returned by (apply in_host_eq; simpl; exact Hbake).
      erewrite bind_returned by (apply in_host_eq; simpl; exact Hdel).
      erewrite bind_returned by reflexivity.
      match goal with |- context [_refresh_constraint_list ?w1] =>
        destruct (refresh_constraint_list_spec w1 l Hfind) as (w' & Hrun & Hhost & Hrows)
      end.
      exists w'. split; [exact Hrun|]. split; [by rewrite Hhost|done]. }
    exists w', l. rewrite (try_except_returned _ _ _ _ _ Hbody).
    split; [done|]. rewrite Hhost, Hrows. split; [|done].
    intros ch f Hch Hf. unfold keyed_frames.
    rewrite Hothers by (rewrite ?Hres; done).
    unfold sc_b. cbn [nodes]. rewrite lookup_insert_eq.
    unfold with_keys. cbn [node_keys].
    apply key_channels_elem; [done|].
    apply elem_of_list_to_set. by apply sampled_frames_elem.
Qed.

(** C5 on the demo scene after a build: the bake is refused once [prop2] is
    gone, and goes through on frames 1 to 3 while it is there. *)
Lemma bake_single_rejects_or_bakes_witness :
  _on_bake_single "relMtxConstraint_data1" demo_window_without_target
  = (Window (host demo_window_without_target) 1 3
       ("Target object not found", StatusError) [], Returned tt)
  ∧ ∃ (w' : window) (l : list string),
      _on_bake_single "relMtxConstraint_data1" demo_window = (w', Returned tt)
      ∧ (∀ ch f, ch ∈ ["tx"; "ty"; "tz"; "rx"; "ry"; "rz"] →
                 (start_frame_spin demo_window ≤ f ≤ end_frame_spin demo_window)%Z →
                 f ∈ keyed_frames (host w') "prop2" ch)
      ∧ nodes (host w') !! "relMtxConstraint_data1" = None
      ∧ find_constraint_network_nodes (host w') = (host w', Returned l)
      ∧ ("relMtxConstraint_data1" ∉ l)
      ∧ ("relMtxConstraint_data1" ∉ (constraints_list w').*1).
Proof.
  split.
  - apply (proj1 (bake_single_rejects_or_bakes demo_window_without_target
                    "relMtxConstraint_data1")).
    + eexists. vm_compute. reflexivity.
    + intros t Ht. vm_compute in Ht. discriminate Ht.
  - apply (proj2 (bake_single_rejects_or_bakes demo_window "relMtxConstraint_data1")
             "prop2").
    + vm_compute. reflexivity.
    + discriminate.
    + eexists. vm_compute. reflexivity.
    + discriminate.
    + vm_compute. intros H. discriminate H.
    + vm_compute. intros H. discriminate H.
Defined.

(** The same bake, run: the keys of a channel, the nodes that are left, and
    the status line the refresh leaves. *)
Example bake_single_demo :
  let w' := (_on_bake_single "relMtxConstraint_data1" demo_window).1 in
  elements (keyed_frames (host w') "prop2" "rx") ≡ₚ [1; 2; 3]%Z
  ∧ dom (nodes (host w')) = dom (nodes demo_scene)
  ∧ (find_constraint_network_nodes (host w')).2 = Returned []
  ∧ status_label w' = ("No constraints found in scene", StatusPlain)
  ∧ ui (host w') = ui demo_scene.
Proof.
  split; [apply (bool_decide_unpack _); vm_compute; exact I|].
  split; [apply (bool_decide_unpack _); vm_compute; exact I|].
  repeat split; vm_compute; reflexivity.
Qed.

(** ** Disconnecting a target (C8) *)

Lemma nodeType_eq (n : string) (nd : node) (sc : scene) :
  nodes sc !! n = Some nd → cmds.nodeType n sc = (sc, Returned (node_type nd)).
Proof. intros H. unfold cmds.nodeType. by rewrite H. Qed.

Lemma disconnectAttr_connected (src dst : plug) (sc : scene) :
  connections sc !! dst = Some src →
  cmds.disconnectAttr src dst sc = (with_connections (delete dst) sc, Returned tt).
Proof. intros H. unfold cmds.disconnectAttr. by rewrite bool_decide_eq_true_2. Qed.

Lemma try_except_pass_returned {S} (exc : exn → bool) (body : py S unit) (s s' : S) :
  body s = (s', Returned tt) → try_except_pass exc body s = (s', Returned tt).
Proof. intros H. unfold try_except_pass. by rewrite H. Qed.

Lemma scene_type_not_anim_curve (ty : string) :
  ty ∈ scene_object_types → String.prefix "animCurve" ty = false.
Proof.
  intros Hin. unfold scene_object_types in Hin.
  repeat (apply elem_of_cons in Hin as [->|Hin]; [reflexivity|]).
  by apply not_elem_of_nil in Hin.
Qed.

(** One incoming connection from the applier: it is disconnected, and the
    applier and what feeds its [inputMatrix] are marked. *)
Lemma remove_one_connection_applier (keep : bool) (S : gset string) (sc : scene)
    (dst src pm : plug) (nd : node) :
  connections sc !! dst = Some src →
  nodes sc !! src.1 = Some nd →
  node_type nd = "decomposeMatrix" →
  dst ≠ (src.1, "inputMatrix") →
  connections sc !! (src.1, "inputMatrix") = Some pm →
  remove_one_connection keep S (dst, src) sc
  = (with_connections (delete dst) sc, Returned ({[pm.1]} ∪ ({[src.1]} ∪ S))).
Proof.
  intros Hc Hn Hty Hne Hin. unfold remove_one_connection.
  erewrite bind_returned by (by apply nodeType_eq).
  rewrite Hty. change (String.prefix "animCurve" "decomposeMatrix") with false.
  rewrite andb_false_r.
  erewrite bind_returned
    by (apply try_except_pass_returned; by apply disconnectAttr_connected).
  rewrite bool_decide_eq_true_2 by (by apply (bool_decide_unpack _)).
  rewrite bool_decide_eq_true_2 by done.
  unfold bind, cmds.listConnections, with_connections. simpl. rewrite Hn.
  unfold cmds.sources_of. simpl.
  rewrite lookup_delete_ne by done. by rewrite Hin.
Qed.

(** One incoming connection from a scene object: disconnected, not marked. *)
Lemma remove_one_connection_scene_object (keep : bool) (S : gset string) (sc : scene)
    (dst src : plug) (nd : node) :
  connections sc !! dst = Some src →
  nodes sc !! src.1 = Some nd →
  node_type nd ∈ scene_object_types →
  remove_one_connection keep S (dst, src) sc
  = (with_connections (delete dst) sc, Returned S).
Proof.
  intros Hc Hn Hty. unfold remove_one_connection.
  erewrite bind_returned by (by apply nodeType_eq).
  rewrite scene_type_not_anim_curve, andb_false_r by done.
  erewrite bind_returned
    by (apply try_except_pass_returned; by apply disconnectAttr_connected).
  by rewrite bool_decide_eq_false_2 by auto.
Qed.

(** One incoming connection from an animation curve, with
    [keep_anim_curves]: skipped altogether. *)
Lemma remove_one_connection_spared (S : gset string) (sc : scene)
    (dst src : plug) (nd : node) :
  nodes sc !! src.1 = Some nd →
  String.prefix "animCurve" (node_type nd) = true →
  remove_one_connection true S (dst, src) sc = (sc, Returned S).
Proof.
  intros Hn Hty. unfold remove_one_connection.
  erewrite bind_returned by (by apply nodeType_eq).
  by rewrite Hty.
Qed.

(** The last loop: every marked node that exists is deleted; nothing else
    is, and no connection between surviving nodes is lost. *)
Lemma delete_marked_all (l : list string) (sc : scene) :
  ∃ sc', for_in l delete_marked sc = (sc', Returned tt)
         ∧ (∀ x, nodes sc' !! x = if bool_decide (x ∈ l) then None else nodes sc !! x)
         ∧ (∀ p s, connections sc' !! p = Some s → connections sc !! p = Some s)
         ∧ (∀ p s, connections sc !! p = Some s → p.1 ∉ l → s.1 ∉ l →
                   connections sc' !! p = Some s).
Proof.
  unfold for_in. revert sc. induction l as [|x l IH]; intros sc.
  - exists sc. repeat split; done.
  - cbn [for_each].
    assert (∃ sc1, delete_marked x sc = (sc1, Returned tt)
                   ∧ (sc1 = sc ∧ nodes sc !! x = None ∨ sc1 = remove_node x sc))
      as (sc1 & Hrun & Hsc1).
    { unfold delete_marked, bind, cmds.objExists, query. case_bool_decide as Hex.
      - eexists. split; [|right; reflexivity].
        apply try_except_pass_returned. by apply delete_existing.
      - exists sc. split; [done|]. left. split; [done|]. by apply eq_None_not_Some. }
    erewrite bind_returned by exact Hrun.
    destruct (IH sc1) as (sc' & Hrun' & Hnodes & Hsub & Hkeep).
    exists sc'. split; [exact Hrun'|]. split; [|split].
    + intros y. rewrite Hnodes.
      destruct (decide (y ∈ l)) as [Hy|Hy].
      * rewrite !bool_decide_eq_true_2 by set_solver. done.
      * rewrite (bool_decide_eq_false_2 (y ∈ l)) by done.
        destruct (decide (y = x)) as [->|Hyx].
        -- rewrite bool_decide_eq_true_2 by set_solver.
           destruct Hsc1 as [[-> ?]| ->]; [done|].
           rewrite remove_node_nodes. by rewrite decide_True.
        -- rewrite bool_decide_eq_false_2 by set_solver.
           destruct Hsc1 as [[-> ?]| ->]; [done|].
           rewrite remove_node_nodes. by rewrite decide_False.
    + intros p s Hc%Hsub. destruct Hsc1 as [[-> ?]| ->]; [done|].
      by apply remove_node_connections in Hc as [? _].
    + intros p s Hc Hp Hs. apply Hkeep; [|set_solver|set_solver].
      destruct Hsc1 as [[-> ?]| ->]; [done|].
      apply remove_node_connections. repeat split; [done|set_solver|set_solver].
Qed.

Section Disconnect.

(** The scenario: in [sc0] the target [t] is driven by the applier [d],
    whose [inputMatrix] is fed by the combiner [m]; every other incoming
    connection of the target comes from a scene object or, with
    [keep_anim_curves], from an animation curve. *)
Variables (keep : bool) (sc0 : scene) (t d m : string) (pm : string) (ndd : node).
Hypothesis Htarget : is_Some (nodes sc0 !! t).
Hypothesis Happlier : nodes sc0 !! d = Some ndd.
Hypothesis Happlier_type : node_type ndd = "decomposeMatrix".
Hypothesis Hfed : connections sc0 !! (d, "inputMatrix") = Some (m, pm).
Hypothesis Htd : t ≠ d.
Hypothesis Hsources :
  ∀ a src, a ∈ transform_attrs → connections sc0 !! (t, a) = Some src →
    src.1 = d
    ∨ ∃ nd, nodes sc0 !! src.1 = Some nd
            ∧ (node_type nd ∈ scene_object_types
               ∨ (keep = true ∧ String.prefix "animCurve" (node_type nd) = true)).

(** One pass of the loop over the attributes. *)
Lemma disconnect_attr_step (a : string) (S : gset string) (sc : scene) :
  a ∈ transform_attrs →
  nodes sc = nodes sc0 →
  connections sc !! (t, a) = connections sc0 !! (t, a) →
  connections sc !! (d, "inputMatrix") = Some (m, pm) →
  ∃ sc' S',
    (let! conns := cmds.listConnections_plugs (t, a) in
     for_each (pairs conns) S (remove_one_connection keep)) sc = (sc', Returned S')
    ∧ nodes sc' = nodes sc
    ∧ (∀ p, p ≠ (t, a) → connections sc' !! p = connections sc !! p)
    ∧ connections sc' !! (t, a) = left_connected keep sc0 (t, a)
    ∧ S ⊆ S' ∧ S' ⊆ {[d; m]} ∪ S
    ∧ ((∃ src, connections sc0 !! (t, a) = Some src ∧ src.1 = d) → d ∈ S' ∧ m ∈ S').
Proof.
  intros Ha Hnodes Hconn Hin. destruct Htarget as [ndt Hndt].
  unfold bind at 1, cmds.listConnections_plugs at 1. cbn [fst].
  rewrite Hnodes, Hndt, Hconn.
  unfold left_connected.
  destruct (connections sc0 !! (t, a)) as [src|] eqn:Hsrc; cbn [pairs for_each].
  2:{ exists sc, S. rewrite bind_ret || idtac. unfold ret.
      repeat split; try done; try set_solver. }
  destruct (Hsources a src Ha Hsrc) as [Hd|(nd & Hnd & [Hty|[-> Hty]])].
  - (* from the applier *)
    assert (spared keep sc0 src = false) as ->.
    { unfold spared. rewrite Hd, Happlier, Happlier_type. apply andb_false_r. }
    erewrite bind_returned; cycle 1.
    { apply (remove_one_connection_applier keep S sc (t, a) src (m, pm) ndd);
        rewrite ?Hnodes, ?Hd; try done. intros [= ? ?]. done. }
    eexists _, _. split; [reflexivity|]. simpl.
    split; [done|]. split; [intros p Hp; by rewrite lookup_delete_ne|].
    split; [apply lookup_delete_eq|]. rewrite Hd. clear.
    split; [set_solver|]. split; [set_solver|]. intros _. set_solver.
  - (* from a scene object *)
    assert (spared keep sc0 src = false) as ->.
    { unfold spared. rewrite Hnd, scene_type_not_anim_curve by done. apply andb_false_r. }
    erewrite bind_returned; cycle 1.
    { apply (remove_one_connection_scene_object keep S sc (t, a) src nd);
        rewrite ?Hnodes; done. }
    eexists _, _. split; [reflexivity|]. simpl.
    split; [done|]. split; [intros p Hp; by rewrite lookup_delete_ne|].
    split; [apply lookup_delete_eq|].
    split; [set_solver|]. split; [set_solver|].
    intros (src' & [= <-] & Hd). exfalso.
    rewrite Hd, Happlier in Hnd. injection Hnd as <-.
    rewrite Happlier_type in Hty. revert Hty. by apply (bool_decide_unpack _).
  - (* from an animation curve that is kept *)
    assert (spared true sc0 src = true) as ->.
    { unfold spared. by rewrite Hnd, Hty. }
    erewrite bind_returned; cycle 1.
    { apply (remove_one_connection_spared S sc (t, a) src nd); rewrite ?Hnodes; done. }
    exists sc, S. split; [reflexivity|].
    split; [done|]. split; [done|]. split; [by rewrite Hconn|].
    split; [set_solver|]. split; [set_solver|].
    intros (src' & [= <-] & Hd). exfalso.
    rewrite Hd, Happlier in Hnd. injection Hnd as <-.
    rewrite Happlier_type in Hty. discriminate Hty.
Qed.

(** The whole loop over a list of distinct attributes. *)
Lemma disconnect_attrs_loop (attrs : list string) (S : gset string) (sc : scene) :
  NoDup attrs →
  (∀ a, a ∈ attrs → a ∈ transform_attrs) →
  nodes sc = nodes sc0 →
  (∀ a, a ∈ attrs → connections sc !! (t, a) = connections sc0 !! (t, a)) →
  connections sc !! (d, "inputMatrix") = Some (m, pm) →
  ∃ sc' S',
    for_each attrs S (λ nodes_to_delete attr,
      let full_attr := (t, attr) in
      let! conns := cmds.listConnections_plugs full_attr in
      for_each (pairs conns) nodes_to_delete (remove_one_connection keep)) sc
    = (sc', Returned S')
    ∧ nodes sc' = nodes sc
    ∧ (∀ p, (∀ a, a ∈ attrs → p ≠ (t, a)) → connections sc' !! p = connections sc !! p)
    ∧ (∀ a, a ∈ attrs → connections sc' !! (t, a) = left_connected keep sc0 (t, a))
    ∧ S ⊆ S' ∧ S' ⊆ {[d; m]} ∪ S
    ∧ ((∃ a src, a ∈ attrs ∧ connections sc0 !! (t, a) = Some src ∧ src.1 = d) →
       d ∈ S' ∧ m ∈ S').
Proof.
  revert S sc. induction attrs as [|a attrs IH]; intros S sc Hnodup Hattrs Hnodes Hconn Hin.
  - exists sc, S. split; [reflexivity|]. repeat split; try done; try set_solver.
    all: intros (a & src & Ha & _); by apply not_elem_of_nil in Ha.
  - apply NoDup_cons in Hnodup as [Ha Hnodup]. cbn [for_each].
    destruct (disconnect_attr_step a S sc) as (sc1 & S1 & Hrun1 & Hn1 & Hother1 & Hleft1 & HS1 & HS1' & Hd1);
      [apply Hattrs; left|done|apply Hconn; left|done|].
    erewrite bind_returned by exact Hrun1.
    destruct (IH S1 sc1) as (sc' & S' & Hrun & Hn & Hother & Hleft & HS & HS' & Hd');
      [done|intros; apply Hattrs; by right|congruence| |..].
    { intros a' Ha'. rewrite Hother1; [apply Hconn; by right|].
      intros [= ->]. done. }
    { rewrite Hother1; [done|]. intros [= ? ?]. done. }
    exists sc', S'. split; [exact Hrun|]. split; [congruence|]. split; [|split].
    + intros p Hp. rewrite Hother, Hother1; [done|apply Hp; left|].
      intros a' Ha'. apply Hp. by right.
    + intros a' [->|Ha']%elem_of_cons; [|by apply Hleft].
      rewrite Hother; [done|]. intros a' Ha' [= ->]. done.
    + split; [clear -HS1 HS; set_solver|]. split; [clear -HS1' HS'; set_solver|].
      intros (a' & src & [->|Ha']%elem_of_cons & Hsrc & Hsd).
      * destruct Hd1 as [? ?]; [eauto|]. clear -HS H H0. set_solver.
      * apply Hd'. eauto.
Qed.

End Disconnect.

Lemma transform_attrs_NoDup : NoDup transform_attrs.
Proof. apply (bool_decide_unpack _). vm_compute. exact I. Qed.

(** C8.  A target [t] driven by an offset-applier [d] (a [decomposeMatrix]
    node) whose [inputMatrix] is fed by an offset-combiner [m] (a
    [multMatrix] node); any other incoming connection on the eight transform
    attributes comes from a scene object (transform, joint, mesh,
    nurbsCurve, nurbsSurface) or, when [keep_anim_curves] is set, from a node
    of the animation-curve family.  Then [remove_connections_from_target]
    returns; the applier and the combiner are deleted; every other node,
    in particular every scene object and every spared animation curve, is as
    it was; and on each of the eight attributes the only connection left is
    one that was spared: none at all without [keep_anim_curves]. *)
Theorem remove_connections_cleans_applier_and_combiner
    (keep_anim_curves : bool) (sc : scene) (t d m pm : string) (ndd : node) :
  is_Some (nodes sc !! t) →
  nodes sc !! d = Some ndd →
  node_type ndd = "decomposeMatrix" →
  connections sc !! (d, "inputMatrix") = Some (m, pm) →
  node_type <$> nodes sc !! m = Some "multMatrix" →
  t ≠ d → t ≠ m →
  (∃ a src, a ∈ transform_attrs ∧ connections sc !! (t, a) = Some src ∧ src.1 = d) →
  (∀ a src, a ∈ transform_attrs → connections sc !! (t, a) = Some src →
     src.1 = d
     ∨ ∃ nd, nodes sc !! src.1 = Some nd
             ∧ (node_type nd ∈ scene_object_types
                ∨ (keep_anim_curves = true
                   ∧ String.prefix "animCurve" (node_type nd) = true))) →
  ∃ sc' : scene,
    remove_connections_from_target t keep_anim_curves sc = (sc', Returned tt)
    ∧ nodes sc' !! d = None
    ∧ nodes sc' !! m = None
    ∧ (∀ x, x ≠ d → x ≠ m → nodes sc' !! x = nodes sc !! x)
    ∧ (∀ a, a ∈ transform_attrs →
            connections sc' !! (t, a) = left_connected keep_anim_curves sc (t, a))
    ∧ (keep_anim_curves = false →
       ∀ a, a ∈ transform_attrs → connections sc' !! (t, a) = None).
Proof.
  intros Ht Hd Hdty Hfed Hm Htd Htm Hdriven Hsources.
  unfold remove_connections_from_target.
  destruct (disconnect_attrs_loop keep_anim_curves sc t d m pm ndd Ht Hd Hdty Hfed Htd
              Hsources transform_attrs ∅ sc)
    as (sc1 & S & Hrun & Hnodes & _ & Hleft & _ & HS & HdS);
    [apply transform_attrs_NoDup|done..|].
  erewrite bind_returned by exact Hrun.
  destruct HdS as [HdS HmS]; [destruct Hdriven as (a & src & ?); eauto|].
  assert (∀ x, x ∈ elements S ↔ x = d ∨ x = m) as Hmarked.
  { intros x. rewrite elem_of_elements. clear -HS HdS HmS. set_solver. }
  destruct (delete_marked_all (elements S) sc1) as (sc' & Hdel & Hn' & Hsub & Hkeep).
  exists sc'. split; [exact Hdel|].
  assert (∀ a, a ∈ transform_attrs →
            connections sc' !! (t, a) = left_connected keep_anim_curves sc (t, a)) as Hconn.
  { intros a Ha. specialize (Hleft a Ha).
    destruct (left_connected keep_anim_curves sc (t, a)) as [src|] eqn:Hl.
    - apply Hkeep; [done|rewrite Hmarked; simpl; intros [?|?]; done|].
      rewrite Hmarked. unfold left_connected, spared in Hl.
      destruct (connections sc !! (t, a)) as [src'|]; [|done].
      destruct keep_anim_curves; [|done]. simpl in Hl.
      destruct (nodes sc !! src'.1) as [nd|] eqn:Hnd; [|done].
      destruct (String.prefix "animCurve" (node_type nd)) eqn:Hpre; [|done].
      injection Hl as ->. intros [Heq|Heq]; rewrite Heq in Hnd.
      + rewrite Hd in Hnd. injection Hnd as <-. rewrite Hdty in Hpre. discriminate Hpre.
      + rewrite Hnd in Hm. injection Hm as Hm. rewrite Hm in Hpre. discriminate Hpre.
    - destruct (connections sc' !! (t, a)) as [src|] eqn:Hc; [|done].
      apply Hsub in Hc. congruence. }
  split; [|split; [|split; [|split]]].
  - rewrite Hn'. rewrite bool_decide_eq_true_2; [done|]. apply Hmarked. by left.
  - rewrite Hn'. rewrite bool_decide_eq_true_2; [done|]. apply Hmarked. by right.
  - intros x Hxd Hxm. rewrite Hn'.
    rewrite bool_decide_eq_false_2 by (rewrite Hmarked; intros [?|?]; done).
    by rewrite Hnodes.
  - exact Hconn.
  - intros -> a Ha. rewrite (Hconn a Ha). unfold left_connected, spared.
    by destruct (connections sc !! (t, a)).
Qed.

(** C8 on the built demo scene, where [prop2] is driven by the applier
    only. *)
Lemma remove_connections_cleans_applier_and_combiner_witness :
  ∃ sc' : scene,
    remove_connections_from_target "prop2" false demo_built_scene = (sc', Returned tt)
    ∧ nodes sc' !! "relMtxConstraint_decomposeMatrix1" = None
    ∧ nodes sc' !! "relMtxConstraint_multMatrix1" = None
    ∧ (∀ x, x ≠ "relMtxConstraint_decomposeMatrix1" → x ≠ "relMtxConstraint_multMatrix1" →
            nodes sc' !! x = nodes demo_built_scene !! x)
    ∧ (∀ a, a ∈ transform_attrs →
            connections sc' !! ("prop2", a) = left_connected false demo_built_scene ("prop2", a))
    ∧ (false = false →
       ∀ a, a ∈ transform_attrs → connections sc' !! ("prop2", a) = None).
Proof.
  apply (remove_connections_cleans_applier_and_combiner false demo_built_scene
           "prop2" "relMtxConstraint_decomposeMatrix1" "relMtxConstraint_multMatrix1"
           "matrixSum" (Node "decomposeMatrix" None ∅ ∅)).
  - eexists. vm_compute. reflexivity.
  - vm_compute. reflexivity.
  - reflexivity.
  - vm_compute. reflexivity.
  - vm_compute. reflexivity.
  - discriminate.
  - discriminate.
  - exists "translate", ("relMtxConstraint_decomposeMatrix1", "outputTranslate").
    split; [|split].
    + apply (bool_decide_unpack _). vm_compute. exact I.
    + vm_compute. reflexivity.
    + reflexivity.
  - intros a src Ha Hc. left. unfold transform_attrs in Ha.
    repeat (apply elem_of_cons in Ha as [->|Ha];
            [vm_compute in Hc; first [discriminate Hc | injection Hc as <-; reflexivity]|]).
    exfalso. exact (not_elem_of_nil _ Ha).
Defined.

(** With more drivers on the target: the applier and the combiner go, the
    locator stays; the animation curve stays, connected, with
    [keep_anim_curves], and goes without. *)
Example remove_connections_keep_demo :
  let sc' := (remove_connections_from_target "prop2" true demo_driven_scene).1 in
  (remove_connections_from_target "prop2" true demo_driven_scene).2 = Returned tt
  ∧ dom (nodes demo_driven_scene) ∖ dom (nodes sc')
    = {["relMtxConstraint_decomposeMatrix1"; "relMtxConstraint_multMatrix1"]}
  ∧ (λ a, connections sc' !! ("prop2", a)) <$> transform_attrs
    = [None; None; Some ("prop2_translateX", "output"); None; None; None; None; None].
Proof.
  split; [vm_compute; reflexivity|].
  split; apply (bool_decide_unpack _); vm_compute; exact I.
Qed.

Example remove_connections_no_keep_demo :
  let sc' := (remove_connections_from_target "prop2" false demo_driven_scene).1 in
  (remove_connections_from_target "prop2" false demo_driven_scene).2 = Returned tt
  ∧ dom (nodes demo_driven_scene) ∖ dom (nodes sc')
    = {["relMtxConstraint_decomposeMatrix1"; "relMtxConstraint_multMatrix1";
        "prop2_translateX"]}
  ∧ (λ a, connections sc' !! ("prop2", a)) <$> transform_attrs
    = [None; None; None; None; None; None; None; None].
Proof.
  split; [vm_compute; reflexivity|].
  split; apply (bool_decide_unpack _); vm_compute; exact I.
Qed.

(** Outside the scenario of C8: what feeds the applier's [inputMatrix] is
    marked without a look at its type, so a transform that feeds the applier
    directly is deleted with it. *)
Example applier_feeder_is_marked_demo :
  dom (nodes (remove_connections_from_target "prop2" false demo_direct_scene).1)
  = {["prop2"]}.
Proof. apply (bool_decide_unpack _). vm_compute. exact I. Qed.

(** * Further properties of the module *)

(** ** Names the host hands out *)

Local Transparent unique_name.

Lemma first_unused_form (taken : gset string) (base : string) (fuel k : nat) :
  ∃ j : nat, first_unused taken base fuel k = base +:+ pretty j.
Proof.
  revert k. induction fuel as [|fuel IH]; intros k; simpl; [by exists k|].
  case_bool_decide; [apply IH|by exists k].
Qed.

(** The names given to the combiner, the applier and the record node are not
    the empty string. *)
Lemma unique_name_nonempty (ns : gmap string node) (name : string) (c : Ascii.ascii)
    (rest : string) :
  strip_hash name = String c rest → unique_name ns name ≠ "".
Proof.
  intros Hname. unfold unique_name. rewrite Hname.
  destruct (first_unused_form (dom ns) (String c rest) (size ns) 1) as [j ->].
  discriminate.
Qed.

Local Opaque unique_name.

Lemma combiner_name_nonempty (ns : gmap string node) :
  unique_name ns (NETWORK_NODE_PREFIX +:+ "_multMatrix#") ≠ "".
Proof. by eapply unique_name_nonempty. Qed.

Lemma applier_name_nonempty (ns : gmap string node) :
  unique_name ns (NETWORK_NODE_PREFIX +:+ "_decomposeMatrix#") ≠ "".
Proof. by eapply unique_name_nonempty. Qed.

(** ** Building, reading, deleting *)

(** The record of a constraint that was just built reads back as the four
    participants and the two computation nodes. *)
Lemma read_built_scene (sc : scene) (sr sd tr td m d net : string) (parent : option string) :
  get_constraint_data net (built_scene sc sr sd tr td m d net parent)
  = (built_scene sc sr sd tr td m d net parent,
     Returned (ConstraintData net (sd +:+ " â†’ " +:+ td)
                 (Some sr) (Some sd) (Some tr) (Some td) (Some m) (Some d))).
Proof. unfold built_scene. apply read_record_scene. Qed.
(** X1.  In a well-formed scene, for four existing objects of which
    target_driven has free translate and rotate plugs: the record that
    [create_relative_matrix_constraint] returns reads back, through
    [get_constraint_data], as the four participants in their roles, a new
    [multMatrix] node as combiner and a new [decomposeMatrix] node as applier,
    under the label made of the two driven names. *)
Theorem build_then_read (sc : scene) (sr sd tr td : string) :
  scene_wf sc →
  Forall (λ x, is_Some (nodes sc !! x)) [sr; sd; tr; td] →
  connections sc !! (td, "translate") = None →
  connections sc !! (td, "rotate") = None →
  ∃ (net m d : string) (sc' : scene),
    create_relative_matrix_constraint sr sd tr td sc = (sc', Returned net)
    ∧ get_constraint_data net sc'
      = (sc', Returned (ConstraintData net (sd +:+ " â†’ " +:+ td)
                          (Some sr) (Some sd) (Some tr) (Some td) (Some m) (Some d)))
    ∧ nodes sc !! net = None ∧ nodes sc !! m = None ∧ nodes sc !! d = None
    ∧ node_type <$> nodes sc' !! net = Some "network"
    ∧ node_type <$> nodes sc' !! m = Some "multMatrix"
    ∧ node_type <$> nodes sc' !! d = Some "decomposeMatrix".
Proof.
  intros Hwf Hobjs Htrans Hrot.
  apply Forall_cons in Hobjs as [Hsr Hobjs]. apply Forall_cons in Hobjs as [Hsd Hobjs].
  apply Forall_cons in Hobjs as [Htr Hobjs]. apply Forall_cons in Hobjs as [[nd_td Htd] _].
  destruct (create_relative_matrix_constraint_eq sc sr sd tr td nd_td Hwf Htd
              ltac:(repeat constructor; assumption) Htrans Hrot)
    as (Hrun & Hm & Hd & Hnet & Hmd & Hmn & Hdn).
  eexists _, _, _, _. split; [exact Hrun|]. split; [apply read_built_scene|].
  split; [exact Hnet|]. split; [exact Hm|]. split; [exact Hd|].
  unfold built_scene. cbn [nodes].
  split; [by rewrite lookup_insert_eq|].
  split.
  - rewrite lookup_insert_ne by (intros Heq; apply Hmn; by rewrite Heq).
    rewrite lookup_insert_ne by (intros Heq; apply Hmd; by rewrite Heq).
    by rewrite lookup_insert_eq.
  - rewrite lookup_insert_ne by (intros Heq; apply Hdn; by rewrite Heq).
    by rewrite lookup_insert_eq.
Qed.

Lemma build_then_read_witness :
  ∃ (net m d : string) (sc' : scene),
    create_relative_matrix_constraint "hand1" "prop1" "hand2" "prop2" demo_scene
    = (sc', Returned net)
    ∧ get_constraint_data net sc'
      = (sc', Returned (ConstraintData net ("prop1" +:+ " â†’ " +:+ "prop2")
                          (Some "hand1") (Some "prop1") (Some "hand2") (Some "prop2")
                          (Some m) (Some d)))
    ∧ nodes demo_scene !! net = None ∧ nodes demo_scene !! m = None
    ∧ nodes demo_scene !! d = None
    ∧ node_type <$> nodes sc' !! net = Some "network"
    ∧ node_type <$> nodes sc' !! m = Some "multMatrix"
    ∧ node_type <$> nodes sc' !! d = Some "decomposeMatrix".
Proof.
  apply (build_then_read demo_scene "hand1" "prop1" "hand2" "prop2").
  - split; apply (bool_decide_unpack _); vm_compute; exact I.
  - repeat constructor; apply (bool_decide_unpack _); vm_compute; exact I.
  - vm_compute. reflexivity.
  - vm_compute. reflexivity.
Defined.
Lemma delete_if_exists_existing (x : string) (sc : scene) :
  x ≠ "" → is_Some (nodes sc !! x) →
  delete_if_exists (Some x) sc = (remove_node x sc, Returned tt).
Proof.
  intros Hx Hex. unfold delete_if_exists, truthy.
  rewrite bool_decide_eq_true_2 by exact Hx.
  erewrite bind_returned by apply objExists_eq.
  rewrite bool_decide_eq_true_2 by exact Hex.
  by apply delete_existing.
Qed.

Lemma guarded_delete_existing (x : string) (sc : scene) :
  is_Some (nodes sc !! x) →
  (let! found := cmds.objExists x in
   if found : bool then cmds.delete x else ret tt) sc = (remove_node x sc, Returned tt).
Proof.
  intros Hex.
  erewrite bind_returned by apply objExists_eq.
  rewrite bool_decide_eq_true_2 by exact Hex.
  by apply delete_existing.
Qed.

(** Deleting the three nodes of a constraint from the scene it was built in
    gives the scene from before the build. *)
Lemma built_scene_unbuilt (sc : scene) (sr sd tr td m d net : string) (parent : option string) :
  scene_wf sc →
  nodes sc !! m = None → nodes sc !! d = None → nodes sc !! net = None →
  m ≠ d → m ≠ net → d ≠ net →
  connections sc !! (td, "translate") = None →
  connections sc !! (td, "rotate") = None →
  remove_node net (remove_node m (remove_node d (built_scene sc sr sd tr td m d net parent)))
  = sc.
Proof.
  intros Hwf Hm Hd Hnet Hmd Hmn Hdn Htrans Hrot.
  pose proof (scene_wf_unused sc m Hwf Hm) as Hum.
  pose proof (scene_wf_unused sc d Hwf Hd) as Hud.
  pose proof (scene_wf_unused sc net Hwf Hnet) as Hun.
  destruct sc as [ns cs u]. unfold remove_node, built_scene, with_connections, with_nodes.
  cbn [nodes connections ui] in *. f_equal.
  - apply map_eq. intros x.
    rewrite !lookup_delete.
    destruct (decide (net = x)) as [<-|Hxn]; [by rewrite Hnet|].
    destruct (decide (m = x)) as [<-|Hxm]; [by rewrite Hm|].
    destruct (decide (d = x)) as [<-|Hxd]; [by rewrite Hd|].
    by rewrite !lookup_insert_ne by done.
  - apply map_eq. intros p. apply option_eq. intros s.
    rewrite !map_lookup_filter_Some. cbn [fst snd].
    split.
    + intros [[[Hc [Hpd Hsd]] [Hpm Hsm]] [Hpn Hsn]].
      unfold record_links in Hc.
      repeat (apply lookup_insert_Some in Hc as [[<- <-]|[_ Hc]]; [by cbn in *|]).
      destruct parent as [par|];
        repeat (apply lookup_insert_Some in Hc as [[<- <-]|[_ Hc]]; [by cbn in *|]);
        exact Hc.
    + intros Hc.
      destruct (Hum _ _ Hc) as [? ?], (Hud _ _ Hc) as [? ?], (Hun _ _ Hc) as [? ?].
      repeat split; try assumption.
      unfold record_links.
      rewrite !lookup_insert_ne by (intros <-; cbn in *; congruence).
      destruct parent as [par|];
        rewrite !lookup_insert_ne by (intros <-; cbn in *; congruence); exact Hc.
Qed.

(** X2.  Building a constraint and then deleting it by its record is a round
    trip: in a well-formed scene, for four existing objects of which
    target_driven has free translate and rotate plugs,
    [create_relative_matrix_constraint] followed by [delete_constraint] on
    the record it returned gives back the scene from before the build, node
    for node and connection for connection. *)
Theorem build_then_delete_restores (sc : scene) (sr sd tr td : string) :
  scene_wf sc →
  Forall (λ x, is_Some (nodes sc !! x)) [sr; sd; tr; td] →
  connections sc !! (td, "translate") = None →
  connections sc !! (td, "rotate") = None →
  ∃ (net : string) (sc' : scene),
    create_relative_matrix_constraint sr sd tr td sc = (sc', Returned net)
    ∧ sc' ≠ sc
    ∧ delete_constraint net sc' = (sc, Returned tt).
Proof.
  intros Hwf Hobjs Htrans Hrot.
  apply Forall_cons in Hobjs as [Hsr Hobjs]. apply Forall_cons in Hobjs as [Hsd Hobjs].
  apply Forall_cons in Hobjs as [Htr Hobjs]. apply Forall_cons in Hobjs as [[nd_td Htd] _].
  destruct (create_relative_matrix_constraint_eq sc sr sd tr td nd_td Hwf Htd
              ltac:(repeat constructor; assumption) Htrans Hrot)
    as (Hrun & Hm & Hd & Hnet & Hmd & Hmn & Hdn).
  eexists _, _. split; [exact Hrun|].
  set (m := unique_name (nodes sc) (NETWORK_NODE_PREFIX +:+ "_multMatrix#")) in *.
  set (d := unique_name (<[m := Node "multMatrix" None ∅ ∅]> (nodes sc))
              (NETWORK_NODE_PREFIX +:+ "_decomposeMatrix#")) in *.
  set (net := unique_name _ (NETWORK_NODE_PREFIX +:+ "_data#")) in *.
  set (B := built_scene sc sr sd tr td m d net (node_parent nd_td)).
  assert (nodes B !! net = Some (Node "network" None (record_attrs (sd +:+ " â†’ " +:+ td)) ∅))
    as HBnet by (unfold B, built_scene; cbn [nodes]; by rewrite lookup_insert_eq).
  split.
  { intros Heq. rewrite Heq, Hnet in HBnet. discriminate HBnet. }
  assert (is_Some (nodes B !! d)) as HBd.
  { unfold B, built_scene. cbn [nodes].
    rewrite lookup_insert_ne by congruence. rewrite lookup_insert_eq. eauto. }
  assert (is_Some (nodes B !! m)) as HBm.
  { unfold B, built_scene. cbn [nodes].
    rewrite lookup_insert_ne by congruence. rewrite lookup_insert_ne by congruence.
    rewrite lookup_insert_eq. eauto. }
  unfold delete_constraint.
  erewrite bind_returned by apply read_built_scene.
  cbn [decompose_matrix mult_matrix].
  erewrite bind_returned
    by (apply delete_if_exists_existing; [apply applier_name_nonempty|exact HBd]).
  erewrite bind_returned; cycle 1.
  { apply delete_if_exists_existing; [apply combiner_name_nonempty|].
    rewrite remove_node_nodes, decide_False by congruence. exact HBm. }
  rewrite guarded_delete_existing; cycle 1.
  { rewrite !remove_node_nodes, !decide_False by congruence. eauto. }
  f_equal. by apply built_scene_unbuilt.
Qed.

Lemma build_then_delete_restores_witness :
  ∃ (net : string) (sc' : scene),
    create_relative_matrix_constraint "hand1" "prop1" "hand2" "prop2" demo_scene
    = (sc', Returned net)
    ∧ sc' ≠ demo_scene
    ∧ delete_constraint net sc' = (demo_scene, Returned tt).
Proof.
  apply (build_then_delete_restores demo_scene "hand1" "prop1" "hand2" "prop2").
  - split; apply (bool_decide_unpack _); vm_compute; exact I.
  - repeat constructor; apply (bool_decide_unpack _); vm_compute; exact I.
  - vm_compute. reflexivity.
  - vm_compute. reflexivity.
Defined.

Lemma connectAttr_driven (src dst old : plug) (sc : scene) :
  connections sc !! dst = Some old →
  cmds.connectAttr src dst sc = (sc, Raised RuntimeError).
Proof.
  intros Hc. unfold cmds.connectAttr. rewrite Hc.
  by destruct (nodes sc !! src.1), (nodes sc !! dst.1).
Qed.

(** X3.  [create_relative_matrix_constraint] checks nothing before it starts
    to build.  When the translate plug of target_driven is already driven,
    the call raises the host's error at the connection to that plug, and
    what it built up to there stays in the scene: the new combiner and the new
    applier, wired to each other and to the three other participants.  No
    record node is made, every node of the scene is as it was, and the
    target stays driven by what drove it. *)
Theorem build_on_driven_target_fails
    (sc : scene) (sr sd tr td : string) (nd_td : node) (old : plug) :
  scene_wf sc →
  nodes sc !! td = Some nd_td →
  Forall (λ x, is_Some (nodes sc !! x)) [sr; sd; tr] →
  connections sc !! (td, "translate") = Some old →
  ∃ (m d : string) (sc' : scene),
    create_relative_matrix_constraint sr sd tr td sc = (sc', Raised RuntimeError)
    ∧ nodes sc !! m = None ∧ nodes sc !! d = None ∧ m ≠ d
    ∧ nodes sc'
      = <[d := Node "decomposeMatrix" None ∅ ∅]>
          (<[m := Node "multMatrix" None ∅ ∅]> (nodes sc))
    ∧ connections sc' !! (d, "inputMatrix") = Some (m, "matrixSum")
    ∧ connections sc' !! (m, "matrixIn[0]") = Some (sd, "worldMatrix[0]")
    ∧ (∀ p, p.1 ≠ m → p.1 ≠ d → connections sc' !! p = connections sc !! p).
Proof.
  intros Hwf Htd Hobjs Hdriven.
  set (m := unique_name (nodes sc) (NETWORK_NODE_PREFIX +:+ "_multMatrix#")).
  set (ns1 := <[m := Node "multMatrix" None ∅ ∅]> (nodes sc)).
  set (d := unique_name ns1 (NETWORK_NODE_PREFIX +:+ "_decomposeMatrix#")).
  set (ns2 := <[d := Node "decomposeMatrix" None ∅ ∅]> ns1).
  assert (nodes sc !! m = None) as Hm by exact (unique_name_fresh _ _).
  assert (ns1 !! d = None) as Hd1 by exact (unique_name_fresh _ _).
  assert (m ≠ d) as Hmd.
  { intros Heq. unfold ns1 in Hd1. rewrite <- Heq, lookup_insert_eq in Hd1.
    discriminate Hd1. }
  assert (nodes sc !! d = None) as Hd.
  { unfold ns1 in Hd1. rewrite lookup_insert_ne in Hd1 by exact Hmd. exact Hd1. }
  repeat match goal with H : Forall _ (_ :: _) |- _ =>
    apply Forall_cons in H; destruct H as [? H] end.
  assert (is_Some (nodes sc !! td)) as Htd' by (exists nd_td; exact Htd).
  assert (td ≠ m ∧ td ≠ d) as [Htm Htdd].
  { split; intros Heq; rewrite Heq in Htd; congruence. }
  assert (match node_parent nd_td with
          | Some p => is_Some (nodes sc !! p) | None => True end) as Hparent.
  { destruct (node_parent nd_td) as [p|] eqn:Hp; [|exact I].
    exact (scene_wf_parent sc td p nd_td Hwf Htd Hp). }
  pose proof (λ a, scene_wf_free sc m a Hwf Hm) as Hfree_m.
  pose proof (λ a, scene_wf_free sc d a Hwf Hd) as Hfree_d.
  exists m, d. destruct sc as [ns cs u]. simpl in *.
  unfold create_relative_matrix_constraint.
  py_run createNode_eq_scene idtac. fold m ns1.
  do 3 py_run connectAttr_free ltac:(first [solve_node_exists | solve_plug_free]).
  py_run (listRelatives_parent_eq td nd_td)
    ltac:(unfold ns1; rewrite lookup_insert_ne by congruence; exact Htd).
  destruct (node_parent nd_td) as [p|]; unfold option_list, option_rect; cbv beta iota.
  - py_run connectAttr_free ltac:(first [solve_node_exists | solve_plug_free]).
    py_run createNode_eq_scene idtac. fold d ns2.
    py_run connectAttr_free ltac:(first [solve_node_exists | solve_plug_free]).
    erewrite bind_raised; cycle 1.
    { apply (connectAttr_driven _ _ old). simpl.
      rewrite !lookup_insert_ne by solve_key_ne. exact Hdriven. }
    eexists. split; [reflexivity|]. simpl.
    split; [exact Hm|]. split; [exact Hd|]. split; [exact Hmd|]. split; [reflexivity|].
    split; [apply lookup_insert_eq|].
    split; [by rewrite !lookup_insert_ne by solve_key_ne; rewrite lookup_insert_eq|].
    intros q Hqm Hqd. by rewrite !lookup_insert_ne by (intros <-; done).
  - rewrite bind_ret.
    py_run createNode_eq_scene idtac. fold d ns2.
    py_run connectAttr_free ltac:(first [solve_node_exists | solve_plug_free]).
    erewrite bind_raised; cycle 1.
    { apply (connectAttr_driven _ _ old). simpl.
      rewrite !lookup_insert_ne by solve_key_ne. exact Hdriven. }
    eexists. split; [reflexivity|]. simpl.
    split; [exact Hm|]. split; [exact Hd|]. split; [exact Hmd|]. split; [reflexivity|].
    split; [apply lookup_insert_eq|].
    split; [by rewrite !lookup_insert_ne by solve_key_ne; rewrite lookup_insert_eq|].
    intros q Hqm Hqd. by rewrite !lookup_insert_ne by (intros <-; done).
Qed.

Lemma demo_built_scene_wf : scene_wf demo_built_scene.
Proof. split; apply (bool_decide_unpack _); vm_compute; exact I. Qed.

(** A second build on the target of the demo constraint. *)
Lemma build_on_driven_target_fails_witness :
  ∃ (m d : string) (sc' : scene),
    create_relative_matrix_constraint "hand1" "prop1" "hand2" "prop2" demo_built_scene
    = (sc', Raised RuntimeError)
    ∧ nodes demo_built_scene !! m = None ∧ nodes demo_built_scene !! d = None ∧ m ≠ d
    ∧ nodes sc'
      = <[d := Node "decomposeMatrix" None ∅ ∅]>
          (<[m := Node "multMatrix" None ∅ ∅]> (nodes demo_built_scene))
    ∧ connections sc' !! (d, "inputMatrix") = Some (m, "matrixSum")
    ∧ connections sc' !! (m, "matrixIn[0]") = Some ("prop1", "worldMatrix[0]")
    ∧ (∀ p, p.1 ≠ m → p.1 ≠ d → connections sc' !! p = connections demo_built_scene !! p).
Proof.
  apply (build_on_driven_target_fails demo_built_scene "hand1" "prop1" "hand2" "prop2"
           (Node "transform" (Some "propGrp2") ∅ ∅)
           ("relMtxConstraint_decomposeMatrix1", "outputTranslate")).
  - split; apply (bool_decide_unpack _); vm_compute; exact I.
  - vm_compute. reflexivity.
  - repeat constructor; apply (bool_decide_unpack _); vm_compute; exact I.
  - vm_compute. reflexivity.
Defined.

Example build_on_driven_target_demo :
  let r := create_relative_matrix_constraint "hand1" "prop1" "hand2" "prop2" demo_built_scene in
  r.2 = Raised RuntimeError
  ∧ dom (nodes r.1) ∖ dom (nodes demo_built_scene)
    = {["relMtxConstraint_multMatrix2"; "relMtxConstraint_decomposeMatrix2"]}.
Proof.
  split; [vm_compute; reflexivity|].
  apply (bool_decide_unpack _). vm_compute. exact I.
Qed.

(** X4.  After a successful build, discovery lists the new record and, next
    to it, exactly the records it listed before: the combiner and the applier
    are not mistaken for records, and no record is lost. *)
Theorem build_then_discover (sc : scene) (sr sd tr td : string) :
  scene_wf sc →
  Forall (λ x, is_Some (nodes sc !! x)) [sr; sd; tr; td] →
  connections sc !! (td, "translate") = None →
  connections sc !! (td, "rotate") = None →
  ∃ (net : string) (sc' : scene) (before after : list string),
    create_relative_matrix_constraint sr sd tr td sc = (sc', Returned net)
    ∧ find_constraint_network_nodes sc = (sc, Returned before)
    ∧ find_constraint_network_nodes sc' = (sc', Returned after)
    ∧ (net ∉ before)
    ∧ ∀ x, x ∈ after ↔ x = net ∨ x ∈ before.
Proof.
  intros Hwf Hobjs Htrans Hrot.
  apply Forall_cons in Hobjs as [Hsr Hobjs]. apply Forall_cons in Hobjs as [Hsd Hobjs].
  apply Forall_cons in Hobjs as [Htr Hobjs]. apply Forall_cons in Hobjs as [[nd_td Htd] _].
  destruct (create_relative_matrix_constraint_eq sc sr sd tr td nd_td Hwf Htd
              ltac:(repeat constructor; assumption) Htrans Hrot)
    as (Hrun & Hm & Hd & Hnet & Hmd & Hmn & Hdn).
  set (m := unique_name (nodes sc) (NETWORK_NODE_PREFIX +:+ "_multMatrix#")) in *.
  set (d := unique_name (<[m := Node "multMatrix" None ∅ ∅]> (nodes sc))
              (NETWORK_NODE_PREFIX +:+ "_decomposeMatrix#")) in *.
  set (net := unique_name _ (NETWORK_NODE_PREFIX +:+ "_data#")) in *.
  set (B := built_scene sc sr sd tr td m d net (node_parent nd_td)) in *.
  destruct (find_constraint_network_nodes_spec sc) as (before & Hfind & Hbefore).
  destruct (find_constraint_network_nodes_spec B) as (after & Hfind' & Hafter).
  exists net, B, before, after.
  split; [exact Hrun|]. split; [exact Hfind|]. split; [exact Hfind'|].
  split.
  { intros (nd & Hn & _)%Hbefore. congruence. }
  intros x. rewrite Hafter, Hbefore. unfold B, built_scene. cbn [nodes].
  split.
  - intros (nd & Hx & Hty & Hmark).
    apply lookup_insert_Some in Hx as [[<- <-]|[Hxn Hx]]; [by left|].
    apply lookup_insert_Some in Hx as [[<- <-]|[Hxd Hx]]; [discriminate Hty|].
    apply lookup_insert_Some in Hx as [[<- <-]|[Hxm Hx]]; [discriminate Hty|].
    right. by exists nd.
  - intros [->|(nd & Hx & Hty & Hmark)].
    + eexists. split; [apply lookup_insert_eq|]. split; [reflexivity|].
      cbn [node_attrs]. rewrite record_attrs_marker. eauto.
    + exists nd. split; [|done].
      rewrite !lookup_insert_ne by congruence. exact Hx.
Qed.

Lemma build_then_discover_witness :
  ∃ (net : string) (sc' : scene) (before after : list string),
    create_relative_matrix_constraint "hand1" "prop1" "hand2" "prop2" demo_scene
    = (sc', Returned net)
    ∧ find_constraint_network_nodes demo_scene = (demo_scene, Returned before)
    ∧ find_constraint_network_nodes sc' = (sc', Returned after)
    ∧ (net ∉ before)
    ∧ ∀ x, x ∈ after ↔ x = net ∨ x ∈ before.
Proof.
  apply (build_then_discover demo_scene "hand1" "prop1" "hand2" "prop2").
  - split; apply (bool_decide_unpack _); vm_compute; exact I.
  - repeat constructor; apply (bool_decide_unpack _); vm_compute; exact I.
  - vm_compute. reflexivity.
  - vm_compute. reflexivity.
Defined.

(** ** Discovery *)

(** What [find_constraint_network_nodes] returns, in closed form. *)
Lemma find_constraint_network_nodes_eq (sc : scene) :
  find_constraint_network_nodes sc
  = (sc, Returned (filter (λ x, has_marker sc x = true)
                     ((filter (λ kv : string * node, node_type kv.2 = "network")
                         (map_to_list (nodes sc))).*1))).
Proof.
  unfold find_constraint_network_nodes. unfold bind at 1.
  unfold cmds.ls_type at 1, query at 1. by rewrite find_loop by apply ls_type_nodes.
Qed.

(** X5.  [find_constraint_network_nodes] never raises and changes nothing.
    It lists a name exactly when the name is a node of type [network] that
    has the marker attribute, so a node of another type is not listed even if
    it carries the marker, and it lists no name twice. *)
Theorem discovery_is_exact (sc : scene) :
  ∃ l : list string,
    find_constraint_network_nodes sc = (sc, Returned l)
    ∧ NoDup l
    ∧ (∀ n, n ∈ l ↔ ∃ nd, nodes sc !! n = Some nd
                          ∧ node_type nd = "network"
                          ∧ is_Some (node_attrs nd !! NETWORK_NODE_IDENTIFIER))
    ∧ (∀ n nd, nodes sc !! n = Some nd → node_type nd ≠ "network" → n ∉ l).
Proof.
  eexists. split; [apply find_constraint_network_nodes_eq|].
  assert (∀ n, n ∈ filter (λ x, has_marker sc x = true)
                 ((filter (λ kv : string * node, node_type kv.2 = "network")
                     (map_to_list (nodes sc))).*1)
               ↔ ∃ nd, nodes sc !! n = Some nd
                       ∧ node_type nd = "network"
                       ∧ is_Some (node_attrs nd !! NETWORK_NODE_IDENTIFIER)) as Hin.
  { intros n. rewrite list_elem_of_filter, list_elem_of_fmap. split.
    - intros [Hm ([n' nd] & -> & [Hty Hin%elem_of_map_to_list]%list_elem_of_filter)].
      simpl in *. exists nd. unfold has_marker in Hm. rewrite Hin in Hm.
      by apply bool_decide_eq_true in Hm.
    - intros (nd & Hn & Hty & Hattr). split.
      + unfold has_marker. rewrite Hn. by apply bool_decide_eq_true.
      + exists (n, nd). split; [done|].
        apply list_elem_of_filter. split; [done|]. by apply elem_of_map_to_list. }
  split; [|split; [exact Hin|]].
  - apply NoDup_filter.
    eapply sublist_NoDup; [apply (NoDup_fst_map_to_list (nodes sc))|].
    apply fmap_sublist, sublist_filter.
  - intros n nd Hn Hty (nd' & Hn' & Hty' & _)%Hin. congruence.
Qed.

(** ** The bake decorator, seen from the wrapped call *)

(** The wrapper in closed form. *)
Lemma viewport_off_eq {A} (func : py scene A) (sc : scene) :
  let mode := evaluation_mode (ui sc) in
  let parallel := bool_decide (mode = "parallel") in
  let ran :=
    func (Scene (nodes sc) (connections sc)
            (UiState (if parallel then "off" else mode) false true false)) in
  viewport_off func sc
  = (Scene (nodes ran.1) (connections ran.1)
       (UiState (if parallel then "parallel" else evaluation_mode (ui ran.1))
          true false true),
     ran.2).
Proof.
  unfold viewport_off.
  rewrite mel_eval_pane_off, mel_eval_pane_on, mel_eval_slider_off, mel_eval_slider_on.
  destruct sc as [ns cs [mode pane susp slider]].
  unfold bind at 1. unfold cmds.evaluationManager_query_mode at 1, query at 1.
  cbn [ui evaluation_mode nodes connections].
  destruct (decide (mode = "parallel")) as [->|Hmode].
  - rewrite bool_decide_eq_true_2 by (apply list_elem_of_singleton; done).
    rewrite bool_decide_eq_true_2 by done.
    unfold try_finally, try_except, bind, ret, raise, update, cmds.refresh,
      cmds.refresh_suspend, cmds.evaluationManager_mode, with_ui; cbn.
    by destruct (func (Scene ns cs (UiState "off" false true false))) as [[ns' cs' u'] [a|e]].
  - rewrite bool_decide_eq_false_2 by (rewrite list_elem_of_singleton; done).
    rewrite bool_decide_eq_false_2 by done.
    unfold try_finally, try_except, bind, ret, raise, update, cmds.refresh,
      cmds.refresh_suspend, cmds.evaluationManager_mode, with_ui; cbn.
    by destruct (func (Scene ns cs (UiState mode false true false))) as [[ns' cs' u'] [a|e]].
Qed.

(** X6.  The call that [viewport_off] wraps runs with the viewport off: in
    the state it starts from, the main pane is not managed, the redraw is
    suspended, the time slider is hidden, and the evaluation mode is [off] if
    it was [parallel] on entry (any other mode is left alone).  The nodes and
    the connections it starts from are those of the caller, and what it
    leaves of them, with its outcome, is what the wrapper leaves. *)
Theorem viewport_off_call_runs_with_viewport_off
    (A : Type) (func : py scene A) (sc : scene) :
  let mode := evaluation_mode (ui sc) in
  let sc_in :=
    Scene (nodes sc) (connections sc)
      (UiState (if bool_decide (mode = "parallel") then "off" else mode) false true false) in
  (viewport_off func sc).2 = (func sc_in).2
  ∧ nodes (viewport_off func sc).1 = nodes (func sc_in).1
  ∧ connections (viewport_off func sc).1 = connections (func sc_in).1.
Proof. intros mode sc_in. by rewrite viewport_off_eq. Qed.

(** ** Verification and numbers that are not numbers *)

(** X7.  The figure [_verify_constraint] reports is never a NaN and never
    negative, whatever the matrices hold: the loop starts from 0.0 and
    [max] keeps its first argument unless the second compares greater, which
    a NaN never does.  So an entry whose difference is a NaN is skipped:
    every entry is a NaN or at most the reported figure, and when all sixteen
    differences are NaN the reported figure is 0.0. *)
Theorem verify_constraint_skips_nan
    (Host Matrix : Type)
    (transformation : Host → string → option Matrix)
    (mmul : Matrix → Matrix → Matrix) (inverse : Matrix → Matrix)
    (getElement : Matrix → nat → nat → float)
    (h : Host) (sr sd tr td : string) (tolerance : option float)
    (m_sr m_sd m_tr m_td : Matrix) :
  transformation h sr = Some m_sr →
  transformation h sd = Some m_sd →
  transformation h tr = Some m_tr →
  transformation h td = Some m_td →
  let source_offset := mmul m_sd (inverse m_sr) in
  let target_offset := mmul m_td (inverse m_tr) in
  let diff := abs_diff Matrix getElement source_offset target_offset in
  ∃ (passed : bool) (max_abs_diff : float),
    _verify_constraint Host Matrix transformation mmul inverse getElement
      sr sd tr td tolerance h
    = (h, Returned (passed, max_abs_diff))
    ∧ (0 <=? max_abs_diff)%float = true
    ∧ PrimFloat.is_nan max_abs_diff = false
    ∧ (∀ i j, (i < 4)%nat → (j < 4)%nat →
         PrimFloat.is_nan (diff i j) = true ∨ (diff i j <=? max_abs_diff)%float = true)
    ∧ ((∀ i j, (i < 4)%nat → (j < 4)%nat → PrimFloat.is_nan (diff i j) = true) →
       max_abs_diff = 0%float
       ∧ passed = (0 <? default default_tolerance tolerance)%float).
Proof.
  intros Hsr Hsd Htr Htd source_offset target_offset diff.
  set (l := all_abs_diffs Matrix getElement source_offset target_offset).
  assert (_verify_constraint Host Matrix transformation mmul inverse getElement
            sr sd tr td tolerance h
          = (h, Returned ((foldl py_max 0%float l <? default default_tolerance tolerance)%float,
                          foldl py_max 0%float l))) as Hrun.
  { unfold _verify_constraint.
    unfold bind at 1.
    rewrite (get_local_offset_returns _ _ _ _ _ _ _ _ Hsr Hsd).
    unfold bind at 1.
    rewrite (get_local_offset_returns _ _ _ _ _ _ _ _ Htr Htd).
    reflexivity. }
  assert ((0 <=? foldl py_max 0%float l)%float = true) as Hpos
    by (by apply foldl_py_max_nonneg).
  assert (SFeqb (Prim2SF (foldl py_max 0%float l)) (Prim2SF (foldl py_max 0%float l)) = true)
    as Hnum by (rewrite leb_spec in Hpos; by eapply SFleb_not_nan).
  eexists _, _. split; [exact Hrun|]. split; [exact Hpos|].
  split; [by rewrite is_nan_spec, Hnum|]. split.
  - intros i j Hi Hj.
    destruct (PrimFloat.is_nan (diff i j)) eqn:Hnan; [by left|right].
    rewrite is_nan_spec in Hnan. apply negb_false_iff in Hnan.
    pose proof (foldl_py_max_upper l [] 0%float (Forall_nil_2 _)) as Hup.
    rewrite Forall_forall in Hup.
    assert ((foldl py_max 0%float l <? diff i j)%float = false) as Hlt.
    { apply Hup. simpl. apply all_abs_diffs_elem. by exists i, j. }
    rewrite leb_spec. rewrite ltb_spec in Hlt. by apply SFleb_total.
  - intros Hall. 
    assert (foldl py_max 0%float l = 0%float) as Hzero.
    { apply foldl_py_max_all_nan. apply Forall_forall. intros x Hx.
      apply all_abs_diffs_elem in Hx as (i & j & Hi & Hj & ->). by apply Hall. }
    by rewrite Hzero.
Qed.

(** At a host where the transform of [prop2] holds no numbers. *)
Lemma verify_constraint_skips_nan_witness :
  ∃ (passed : bool) (max_abs_diff : float),
    _verify_constraint _ _ demo_lookup m4_mul m4_translation_inverse m4_get
      "hand1" "prop1" "hand2" "prop2" None demo_nan_transforms
    = (demo_nan_transforms, Returned (passed, max_abs_diff))
    ∧ (0 <=? max_abs_diff)%float = true
    ∧ PrimFloat.is_nan max_abs_diff = false
    ∧ (∀ i j, (i < 4)%nat → (j < 4)%nat →
         PrimFloat.is_nan
           (abs_diff _ m4_get
              (m4_mul (m4_translate 3 2 0) (m4_translation_inverse (m4_translate 1 0 0)))
              (m4_mul m4_nan (m4_translation_inverse (m4_translate 10 5 0)))
              i j) = true
         ∨ (abs_diff _ m4_get
              (m4_mul (m4_translate 3 2 0) (m4_translation_inverse (m4_translate 1 0 0)))
              (m4_mul m4_nan (m4_translation_inverse (m4_translate 10 5 0)))
              i j <=? max_abs_diff)%float = true)
    ∧ ((∀ i j, (i < 4)%nat → (j < 4)%nat →
          PrimFloat.is_nan
            (abs_diff _ m4_get
               (m4_mul (m4_translate 3 2 0) (m4_translation_inverse (m4_translate 1 0 0)))
               (m4_mul m4_nan (m4_translation_inverse (m4_translate 10 5 0)))
               i j) = true) →
       max_abs_diff = 0%float
       ∧ passed = (0 <? default default_tolerance None)%float).
Proof.
  apply (verify_constraint_skips_nan _ _ demo_lookup m4_mul m4_translation_inverse m4_get
           demo_nan_transforms "hand1" "prop1" "hand2" "prop2" None
           (m4_translate 1 0 0) (m4_translate 3 2 0)
           (m4_translate 10 5 0) m4_nan);
    reflexivity.
Defined.

(** The check passes there, with a reported difference of zero. *)
Example verify_constraint_nan_demo :
  _verify_constraint _ _ demo_lookup m4_mul m4_translation_inverse m4_get
    "hand1" "prop1" "hand2" "prop2" None demo_nan_transforms
  = (demo_nan_transforms, Returned (true, 0%float)).
Proof. vm_compute. reflexivity. Qed.

(** ** The list of the tool window *)

(** Filling the list widget, in closed form. *)
Lemma refresh_rows_eq (l : list string) (w : window) :
  Forall (λ x, is_Some (nodes (host w) !! x)) l →
  for_in l (λ network_node,
    let! data := in_host (get_constraint_data network_node) in
    let shown := if bool_decide (display_name data ≠ "")
                 then display_name data else network_node in
    update (λ w, Window (host w) (start_frame_spin w) (end_frame_spin w)
                   (status_label w)
                   (constraints_list w ++ [(network_node, shown)]))) w
  = (Window (host w) (start_frame_spin w) (end_frame_spin w) (status_label w)
       (constraints_list w ++ ((λ n, (n, shown_label (host w) n)) <$> l)), Returned tt).
Proof.
  unfold for_in. revert w. induction l as [|x l IH]; intros w Hl.
  - simpl. rewrite app_nil_r. by destruct w.
  - apply Forall_cons in Hl as [Hx Hl]. cbn [for_each].
    erewrite bind_returned; cycle 1.
    { erewrite bind_returned by (by apply in_host_eq, get_constraint_data_eq). reflexivity. }
    rewrite IH by exact Hl.
    cbn [host start_frame_spin end_frame_spin status_label constraints_list display_name].
    by rewrite <- app_assoc.
Qed.

Lemma refresh_constraint_list_eq (w : window) (l : list string) :
  find_constraint_network_nodes (host w) = (host w, Returned l) →
  _refresh_constraint_list w
  = (Window (host w) (start_frame_spin w) (end_frame_spin w) (count_status (length l))
       ((λ n, (n, shown_label (host w) n)) <$> l), Returned tt).
Proof.
  intros Hfind. unfold _refresh_constraint_list.
  erewrite bind_returned by reflexivity.
  erewrite bind_returned by (apply in_host_eq; simpl; exact Hfind).
  erewrite bind_returned by (apply refresh_rows_eq; simpl; by eapply found_are_nodes).
  unfold count_status. by case_bool_decide.
Qed.

(** X8.  [_refresh_constraint_list] never raises and leaves the host scene
    and the frame range alone.  It drops the rows the list had and shows one
    row for each record discovery finds, in discovery's order; the text of a
    row is the record's stored label, or the record's name when the label is
    empty or missing.  The status line tells how many rows there are. *)
Theorem refresh_shows_discovered_records (w : window) :
  ∃ l : list string,
    find_constraint_network_nodes (host w) = (host w, Returned l)
    ∧ _refresh_constraint_list w
      = (Window (host w) (start_frame_spin w) (end_frame_spin w)
           (if bool_decide (length l = 0%nat)
            then ("No constraints found in scene", StatusPlain)
            else ("Found " +:+ pretty (length l) +:+ " constraint(s)", StatusPlain))
           ((λ n, (n, if bool_decide (stored_label (host w) n ≠ "")
                      then stored_label (host w) n else n)) <$> l),
         Returned tt).
Proof.
  eexists. split; [apply find_constraint_network_nodes_eq|].
  by rewrite (refresh_constraint_list_eq w _ (find_constraint_network_nodes_eq _)).
Qed.

Example refresh_demo :
  let w' := (_refresh_constraint_list demo_window).1 in
  constraints_list w' = [("relMtxConstraint_data1", "prop1 â†’ prop2")]
  ∧ status_label w' = ("Found 1 constraint(s)", StatusPlain).
Proof. split; vm_compute; reflexivity. Qed.

(** ** The Bake button of a row *)

(** X9.  [_on_bake_single] on a record node of the scene never raises and
    leaves the frame range alone.  It ends in one of three ways.  The bake
    was refused: the host scene and the rows are as they were and the status
    line reads "Target object not found" as an error.  Or the bake and the
    deletion went through: the record node is gone, the rows are the records
    discovery finds in the scene that is left, and the status line is the
    one the refresh writes, the count of the rows in the plain style.  Or
    the host raised inside the [try] block: the status line reads
    "Bake error: ..." as an error.  In no case does the slot leave the
    message "Baked ... and removed constraint": it is set just before the
    refresh and overwritten by it. *)
Theorem bake_single_returns_and_reports (w : window) (n : string) :
  is_Some (nodes (host w) !! n) →
  ∃ w' : window,
    _on_bake_single n w = (w', Returned tt)
    ∧ start_frame_spin w' = start_frame_spin w
    ∧ end_frame_spin w' = end_frame_spin w
    ∧ (status_label w').2 ≠ StatusSuccess
    ∧ ((host w' = host w
        ∧ constraints_list w' = constraints_list w
        ∧ status_label w' = ("Target object not found", StatusError))
       ∨ (nodes (host w') !! n = None
          ∧ ∃ l : list string,
              find_constraint_network_nodes (host w') = (host w', Returned l)
              ∧ constraints_list w'
                = (λ x, (x, if bool_decide (stored_label (host w') x ≠ "")
                            then stored_label (host w') x else x)) <$> l
              ∧ status_label w'
                = (if bool_decide (length l = 0%nat)
                   then ("No constraints found in scene", StatusPlain)
                   else ("Found " +:+ pretty (length l) +:+ " constraint(s)", StatusPlain)))
       ∨ (∃ e : exn, status_label w' = ("Bake error: " +:+ str_exn e, StatusError))).
Proof.
  intros Hn. unfold _on_bake_single.
  erewrite bind_returned by (by apply in_host_eq, get_constraint_data_eq).
  cbn [target_driven].
  assert (∀ w0 : window,
            w0 = Window (host w0) (start_frame_spin w0) (end_frame_spin w0)
                   (status_label w0) (constraints_list w0)) as Heta by (by intros []).
  destruct (resolved (host w) n "targetDriven") as [t|] eqn:Ht; cycle 1.
  { rewrite bind_ret. rewrite <- Heta. eexists. split; [reflexivity|]. simpl.
    split; [done|]. split; [done|]. split; [done|]. by left. }
  unfold truthy. case_bool_decide as Hne; cycle 1.
  { rewrite bind_ret. rewrite <- Heta. eexists. split; [reflexivity|]. simpl.
    split; [done|]. split; [done|]. split; [done|]. by left. }
  erewrite bind_returned by (apply in_host_eq, objExists_eq).
  case_bool_decide as Hex; cycle 1.
  { rewrite <- Heta. eexists. split; [reflexivity|]. simpl.
    split; [done|]. split; [done|]. split; [done|]. by left. }
  destruct Hex as [nd Hnd].
  erewrite bind_returned by reflexivity.
  erewrite bind_returned by reflexivity.
  erewrite bind_returned by reflexivity.
  destruct (bake_with_viewport_off_eq (host w) t nd (start_frame_spin w) (end_frame_spin w) Hnd)
    as (u' & Hbake).
  set (sc_b := Scene _ _ u') in Hbake.
  destruct (delete_constraint_nodes sc_b n) as (sc1 & Hdel & Hgone & _ & _).
  { unfold sc_b. cbn [nodes]. rewrite lookup_insert_is_Some'. by right. }
  pose proof (find_constraint_network_nodes_eq sc1) as Hfind.
  set (l := filter _ _) in Hfind.
  match goal with |- context [try_except ?body ?h ?w0] =>
    assert (body w0
            = (Window sc1 (start_frame_spin w) (end_frame_spin w) (count_status (length l))
                 ((λ x, (x, shown_label sc1 x)) <$> l), Returned tt)) as Hbody
  end.
  { erewrite bind_returned by (apply in_host_eq; simpl; exact Hbake).
    erewrite bind_returned by (apply in_host_eq; simpl; exact Hdel).
    erewrite bind_returned by reflexivity.
    by rewrite (refresh_constraint_list_eq _ l) by exact Hfind. }
  rewrite (try_except_returned _ _ _ _ _ Hbody).
  eexists. split; [reflexivity|]. simpl. split; [done|]. split; [done|].
  split; [unfold count_status; by case_bool_decide|].
  right. left. split; [exact Hgone|].
  exists l. split; [exact Hfind|]. split; done.
Qed.

Lemma bake_single_returns_and_reports_witness :
  ∃ w' : window,
    _on_bake_single "relMtxConstraint_data1" demo_window = (w', Returned tt)
    ∧ start_frame_spin w' = start_frame_spin demo_window
    ∧ end_frame_spin w' = end_frame_spin demo_window
    ∧ (status_label w').2 ≠ StatusSuccess
    ∧ ((host w' = host demo_window
        ∧ constraints_list w' = constraints_list demo_window
        ∧ status_label w' = ("Target object not found", StatusError))
       ∨ (nodes (host w') !! "relMtxConstraint_data1" = None
          ∧ ∃ l : list string,
              find_constraint_network_nodes (host w') = (host w', Returned l)
              ∧ constraints_list w'
                = (λ x, (x, if bool_decide (stored_label (host w') x ≠ "")
                            then stored_label (host w') x else x)) <$> l
              ∧ status_label w'
                = (if bool_decide (length l = 0%nat)
                   then ("No constraints found in scene", StatusPlain)
                   else ("Found " +:+ pretty (length l) +:+ " constraint(s)", StatusPlain)))
       ∨ (∃ e : exn, status_label w' = ("Bake error: " +:+ str_exn e, StatusError))).
Proof.
  apply (bake_single_returns_and_reports demo_window "relMtxConstraint_data1").
  eexists. vm_compute. reflexivity.
Defined.

(** ** Validation of the four fields *)

Lemma in_window_eq {A} (c : py window A) (d : dialog) (w' : window) (r : outcome A) :
  c (win d) = (w', r) →
  in_window c d
  = (Dialog w' (source_ref_field d) (source_driven_field d) (target_ref_field d)
       (target_driven_field d) (stdout d), r).
Proof. intros H. unfold in_window. by rewrite H. Qed.

Lemma in_window_in_host_eq {A} (c : py scene A) (d : dialog) (sc' : scene) (r : outcome A) :
  c (host (win d)) = (sc', r) →
  in_window (in_host c) d = (dialog_with_host d sc', r).
Proof. intros H. unfold in_window, in_host. by rewrite H. Qed.

Lemma dialog_with_host_id (d : dialog) : dialog_with_host d (host (win d)) = d.
Proof. by destruct d as [[] ? ? ? ? ?]. Qed.

(** A command that only reads the host scene leaves the dialog as it is. *)
Lemma in_window_in_host_read {A} (c : py scene A) (d : dialog) (r : outcome A) :
  c (host (win d)) = (host (win d), r) →
  in_window (in_host c) d = (d, r).
Proof. intros H. rewrite (in_window_in_host_eq _ _ _ _ H). by rewrite dialog_with_host_id. Qed.

Lemma in_window_set_status (msg : string) (st : status_style) (d : dialog) :
  in_window (_set_status msg st) d = (dialog_with_status d (msg, st), Returned tt).
Proof. reflexivity. Qed.

Section ValidationFacts.

Variable strip : string → string.

(** The loop of [_validate_objects]: it runs through while the entries are
    valid, and returns at the first one that is not. *)
Lemma validate_loop (l : list (string * string)) (d : dialog) :
  (Forall (valid_entry (host (win d))) l →
   for_return l (λ '(key, value),
     if bool_decide (value = "")
     then do! in_window (_set_status ("Missing: " +:+ key) StatusError) in
          ret (Some (None : option objects))
     else let! found := in_window (in_host (cmds.objExists value)) in
          if found : bool
          then ret None
          else do! in_window (_set_status ("Object not found: " +:+ value) StatusError) in
               ret (Some None)) d
   = (d, Returned None))
  ∧ (∀ pre key value post,
       l = pre ++ (key, value) :: post →
       Forall (valid_entry (host (win d))) pre →
       ¬ valid_entry (host (win d)) (key, value) →
       for_return l (λ '(key, value),
         if bool_decide (value = "")
         then do! in_window (_set_status ("Missing: " +:+ key) StatusError) in
              ret (Some (None : option objects))
         else let! found := in_window (in_host (cmds.objExists value)) in
              if found : bool
              then ret None
              else do! in_window (_set_status ("Object not found: " +:+ value) StatusError) in
                   ret (Some None)) d
       = (dialog_with_status d
            (if bool_decide (value = "") then "Missing: " +:+ key
             else "Object not found: " +:+ value, StatusError),
          Returned (Some None))).
Proof.
  assert (∀ k v, valid_entry (host (win d)) (k, v) →
            (if bool_decide (v = "")
             then do! in_window (_set_status ("Missing: " +:+ k) StatusError) in
                  ret (Some (None : option objects))
             else let! found := in_window (in_host (cmds.objExists v)) in
                  if found : bool
                  then ret None
                  else do! in_window (_set_status ("Object not found: " +:+ v) StatusError) in
                       ret (Some None)) d
            = (d, Returned None)) as Hstep.
  { intros k v [Hne Hex]. simpl in *. rewrite bool_decide_eq_false_2 by exact Hne.
    erewrite bind_returned by (apply in_window_in_host_read, objExists_eq).
    by rewrite bool_decide_eq_true_2 by exact Hex. }
  split.
  - induction l as [|[k v] l IH]; intros Hall; cbn [for_return]; [done|].
    apply Forall_cons in Hall as [Hkv Hall].
    erewrite bind_returned by (by apply Hstep). by apply IH.
  - intros pre key value post -> Hpre Hbad.
    induction pre as [|[k v] pre IH]; cbn [for_return app].
    + unfold valid_entry in Hbad. simpl in Hbad.
      case_bool_decide as Hempty.
      * erewrite bind_returned
          by (erewrite bind_returned by apply in_window_set_status; reflexivity).
        reflexivity.
      * erewrite bind_returned; cycle 1.
        { erewrite bind_returned by (apply in_window_in_host_read, objExists_eq).
          rewrite bool_decide_eq_false_2 by (intros ?; apply Hbad; done).
          erewrite bind_returned by apply in_window_set_status. reflexivity. }
        reflexivity.
    + apply Forall_cons in Hpre as [Hkv Hpre].
      erewrite bind_returned by (by apply Hstep). by apply IH.
Qed.

(** The two ways [_validate_objects] ends. *)
Lemma validate_objects_cases (d : dialog) :
  let objs := stripped_fields strip d in
  (Forall (valid_entry (host (win d))) (items objs) →
   _validate_objects strip d = (d, Returned (Some objs)))
  ∧ (∀ pre key value post,
       items objs = pre ++ (key, value) :: post →
       Forall (valid_entry (host (win d))) pre →
       ¬ valid_entry (host (win d)) (key, value) →
       _validate_objects strip d
       = (dialog_with_status d
            (if bool_decide (value = "") then "Missing: " +:+ key
             else "Object not found: " +:+ value, StatusError),
          Returned None)).
Proof.
  intros objs. unfold _validate_objects.
  erewrite bind_returned by reflexivity. fold (stripped_fields strip d). fold objs.
  destruct (validate_loop (items objs) d) as [Hok Hbad]. split.
  - intros Hall. erewrite bind_returned by (by apply Hok). reflexivity.
  - intros pre key value post Hitems Hpre Hinvalid.
    erewrite bind_returned by (by eapply Hbad). reflexivity.
Qed.


(** X10.  [_validate_objects] looks at the four fields, stripped, in the
    order source_ref, source_driven, target_ref, target_driven.  When each
    is non-empty and names a node of the scene it returns the four values and
    changes nothing.  Otherwise it returns [None] at the first field that is
    empty or names no node; all it changes is the status line, which reads
    "Missing: <key>" for an empty field and "Object not found: <value>" for
    a name that is no node, as an error.  Later fields are not looked at. *)
Theorem validate_objects_reports_first_invalid (d : dialog) :
  let objs := stripped_fields strip d in
  (Forall (valid_entry (host (win d))) (items objs) →
   _validate_objects strip d = (d, Returned (Some objs)))
  ∧ (∀ pre key value post,
       items objs = pre ++ (key, value) :: post →
       Forall (valid_entry (host (win d))) pre →
       ¬ valid_entry (host (win d)) (key, value) →
       _validate_objects strip d
       = (dialog_with_status d
            (if bool_decide (value = "") then "Missing: " +:+ key
             else "Object not found: " +:+ value, StatusError),
          Returned None)).
Proof. exact (validate_objects_cases d). Qed.

End ValidationFacts.

(** The first case on the demo dialog: four fields that name nodes. *)
Lemma validate_objects_reports_first_invalid_witness :
  _validate_objects strip_blanks demo_dialog
  = (demo_dialog, Returned (Some (stripped_fields strip_blanks demo_dialog))).
Proof.
  apply (proj1 (validate_objects_reports_first_invalid strip_blanks demo_dialog)).
  repeat constructor; try discriminate; apply (bool_decide_unpack _); vm_compute; exact I.
Defined.

Example validate_objects_demo :
  _validate_objects strip_blanks demo_dialog
  = (demo_dialog, Returned (Some (Objects "hand1" "prop1" "hand2" "prop2"))).
Proof. vm_compute. reflexivity. Qed.

(** The second field is reported; the third, which is empty, is not
    reached. *)
Example validate_objects_mistyped_demo :
  (_validate_objects strip_blanks demo_dialog_mistyped).2 = Returned None
  ∧ status_label (win (_validate_objects strip_blanks demo_dialog_mistyped).1)
    = ("Object not found: prop9", StatusError).
Proof. split; vm_compute; reflexivity. Qed.

(** ** The Create Constraint button *)

(** The loop that looks for a driven attribute of the target. *)
Lemma has_connections_loop (t : string) (attrs : list string) (acc : bool) (d : dialog) :
  is_Some (nodes (host (win d)) !! t) →
  for_each_break attrs acc (λ has_connections attr,
    let! conns := in_window (in_host (cmds.listConnections_sources (t, attr))) in
    match conns with
    | _ :: _ => ret (Break true)
    | [] => ret (Continue has_connections)
    end) d
  = (d, Returned (if bool_decide (Exists (λ a, is_Some (connections (host (win d)) !! (t, a)))
                                    attrs)
                  then true else acc)).
Proof.
  intros [nd Ht]. revert acc. induction attrs as [|a attrs IH]; intros acc; cbn [for_each_break].
  - rewrite bool_decide_eq_false_2; [done|]. by intros ?%Exists_nil.
  - assert (in_window (in_host (cmds.listConnections_sources (t, a))) d
            = (d, Returned (cmds.sources_of (host (win d)) (t, a)))) as Hrun.
    { apply in_window_in_host_read. unfold cmds.listConnections_sources. cbn [fst].
      by rewrite Ht. }
    rewrite bind_bind. erewrite bind_returned by exact Hrun.
    unfold cmds.sources_of.
    destruct (connections (host (win d)) !! (t, a)) as [src|] eqn:Hc; rewrite bind_ret.
    + unfold ret at 1.
      rewrite bool_decide_eq_true_2; [done|]. apply Exists_cons_hd. by rewrite Hc.
    + rewrite IH. f_equal. f_equal.
      destruct (decide (Exists (λ a0, is_Some (connections (host (win d)) !! (t, a0))) attrs))
        as [He|He].
      * rewrite !bool_decide_eq_true_2; [done|by apply Exists_cons_tl|done].
      * rewrite !bool_decide_eq_false_2; [done| |done].
        intros [Hhd|Htl]%Exists_cons; [|done]. rewrite Hc in Hhd. by destruct Hhd.
Qed.

Section CreateSlotFacts.

Variable strip : string → string.
Variable question : string → string → bool.

(** The slot after a validation that went through. *)
Lemma on_create_constraint_valid (d : dialog) :
  let objs := stripped_fields strip d in
  let target := objs_target_driven objs in
  let create : py dialog unit :=
    try_except
      (let! network_node :=
         in_window (in_host (create_relative_matrix_constraint
                               (objs_source_ref objs) (objs_source_driven objs)
                               (objs_target_ref objs) (objs_target_driven objs))) in
       do! in_window (_set_status "Constraint created successfully" StatusSuccess) in
       in_window _refresh_constraint_list)
      (λ e, in_window (_set_status ("Error: " +:+ str_exn e) StatusError)) in
  Forall (valid_entry (host (win d))) (items objs) →
  _on_create_constraint strip question d
  = (if has_incoming (host (win d)) target
     then if question "Existing Connections" (replace_question target)
          then do! in_window (in_host (remove_connections_from_target target false)) in
               create
          else ret tt
     else create) d.
Proof.
  intros objs target create Hvalid. unfold _on_create_constraint.
  erewrite bind_returned by (by apply validate_objects_cases).
  fold objs. cbv beta iota zeta. fold target.
  assert (is_Some (nodes (host (win d)) !! target)) as Htarget.
  { unfold items in Hvalid.
    do 3 apply Forall_cons in Hvalid as [_ Hvalid].
    apply Forall_cons in Hvalid as [[_ Ht] _]. exact Ht. }
  erewrite bind_returned by (by apply has_connections_loop).
  fold transform_attrs. fold (has_incoming (host (win d)) target).
  by destruct (has_incoming (host (win d)) target).
Qed.

(** X11.  The Create Constraint slot builds nothing unless the four fields are
    valid and, where the target is already driven, the user agrees.  With an
    invalid field it only reports the first one in the status line.  With
    valid fields, a target that has an incoming connection on one of its
    eight transform attributes, and the answer No to the question it then
    asks, it changes nothing at all: not the scene, not the rows, not the
    status line. *)
Theorem create_slot_needs_valid_fields_and_consent (d : dialog) :
  let objs := stripped_fields strip d in
  let target := objs_target_driven objs in
  (∀ pre key value post,
     items objs = pre ++ (key, value) :: post →
     Forall (valid_entry (host (win d))) pre →
     ¬ valid_entry (host (win d)) (key, value) →
     _on_create_constraint strip question d
     = (dialog_with_status d
          (if bool_decide (value = "") then "Missing: " +:+ key
           else "Object not found: " +:+ value, StatusError),
        Returned tt))
  ∧ (Forall (valid_entry (host (win d))) (items objs) →
     has_incoming (host (win d)) target = true →
     question "Existing Connections"
       (target +:+ " already has incoming connections." +:+ newline
        +:+ "Remove them and create new constraint?") = false →
     _on_create_constraint strip question d = (d, Returned tt)).
Proof.
  intros objs target. split.
  - intros pre key value post Hitems Hpre Hinvalid. unfold _on_create_constraint.
    erewrite bind_returned by (by eapply validate_objects_cases). reflexivity.
  - intros Hvalid Hdriven Hno.
    rewrite on_create_constraint_valid by exact Hvalid.
    fold objs target. rewrite Hdriven. unfold replace_question. by rewrite Hno.
Qed.

(** Nothing drives the eight attributes when [has_incoming] says so. *)
Lemma has_incoming_false (sc : scene) (t a : string) :
  has_incoming sc t = false → a ∈ transform_attrs → connections sc !! (t, a) = None.
Proof.
  intros Hfree Ha. apply bool_decide_eq_false in Hfree.
  destruct (connections sc !! (t, a)) as [src|] eqn:Hc; [|done].
  exfalso. apply Hfree. apply Exists_exists. exists a. split; [done|]. by rewrite Hc.
Qed.

(** X12.  With four valid fields, in a well-formed scene where nothing drives
    the eight transform attributes of the target, the Create Constraint slot
    asks nothing and builds the constraint: the host scene is the one
    [create_relative_matrix_constraint] leaves for the four stripped fields,
    the rows are the records discovery finds there, the new record among
    them, and the status line is the refresh's count of the rows; the
    message "Constraint created successfully" set just before the refresh is
    overwritten by it. *)
Theorem create_slot_builds_and_lists (d : dialog) :
  let objs := stripped_fields strip d in
  Forall (valid_entry (host (win d))) (items objs) →
  scene_wf (host (win d)) →
  has_incoming (host (win d)) (objs_target_driven objs) = false →
  ∃ (net : string) (sc' : scene) (l : list string),
    create_relative_matrix_constraint (objs_source_ref objs) (objs_source_driven objs)
      (objs_target_ref objs) (objs_target_driven objs) (host (win d))
    = (sc', Returned net)
    ∧ find_constraint_network_nodes sc' = (sc', Returned l)
    ∧ net ∈ l
    ∧ _on_create_constraint strip question d
      = (Dialog
           (Window sc' (start_frame_spin (win d)) (end_frame_spin (win d))
              ("Found " +:+ pretty (length l) +:+ " constraint(s)", StatusPlain)
              ((λ x, (x, if bool_decide (stored_label sc' x ≠ "")
                         then stored_label sc' x else x)) <$> l))
           (source_ref_field d) (source_driven_field d) (target_ref_field d)
           (target_driven_field d) (stdout d),
         Returned tt).
Proof.
  intros objs Hvalid Hwf Hfree.
  rewrite on_create_constraint_valid by exact Hvalid.
  fold objs. rewrite Hfree.
  pose proof Hvalid as Hobjs. unfold items in Hobjs.
  apply Forall_cons in Hobjs as [[_ Hsr] Hobjs].
  apply Forall_cons in Hobjs as [[_ Hsd] Hobjs].
  apply Forall_cons in Hobjs as [[_ Htr] Hobjs].
  apply Forall_cons in Hobjs as [[_ [nd_td Htd]] _]. cbn [snd] in *.
  assert (Forall (λ x, is_Some (nodes (host (win d)) !! x))
            [objs_source_ref objs; objs_source_driven objs; objs_target_ref objs]) as Hthree
    by (repeat constructor; assumption).
  assert ("translate" ∈ transform_attrs) as Htrans by (by apply (bool_decide_unpack _)).
  assert ("rotate" ∈ transform_attrs) as Hrot by (by apply (bool_decide_unpack _)).
  destruct (create_relative_matrix_constraint_eq (host (win d)) _ _ _ _ nd_td Hwf Htd Hthree
              (has_incoming_false _ _ _ Hfree Htrans) (has_incoming_false _ _ _ Hfree Hrot))
    as (Hrun & Hm & Hd & Hnet & Hmd & Hmn & Hdn).
  set (m := unique_name (nodes (host (win d))) (NETWORK_NODE_PREFIX +:+ "_multMatrix#")) in *.
  set (dn := unique_name (<[m := Node "multMatrix" None ∅ ∅]> (nodes (host (win d))))
               (NETWORK_NODE_PREFIX +:+ "_decomposeMatrix#")) in *.
  set (net := unique_name _ (NETWORK_NODE_PREFIX +:+ "_data#")) in *.
  set (B := built_scene _ _ _ _ _ m dn net (node_parent nd_td)) in *.
  pose proof (find_constraint_network_nodes_eq B) as Hfind.
  set (l := filter _ _) in Hfind.
  assert (net ∈ l) as Hin.
  { destruct (find_constraint_network_nodes_spec B) as (l' & Hfind' & Hl').
    rewrite Hfind in Hfind'. injection Hfind' as <-. apply Hl'.
    eexists. split; [unfold B, built_scene; cbn [nodes]; apply lookup_insert_eq|].
    split; [reflexivity|]. cbn [node_attrs]. rewrite record_attrs_marker. eauto. }
  exists net, B, l. split; [exact Hrun|]. split; [exact Hfind|]. split; [exact Hin|].
  apply try_except_returned.
  erewrite bind_returned by (apply in_window_in_host_eq; exact Hrun).
  erewrite bind_returned by apply in_window_set_status.
  erewrite in_window_eq; cycle 1.
  { cbn [win dialog_with_status dialog_with_host].
    apply (refresh_constraint_list_eq _ l). cbn [host]. exact Hfind. }
  cbn [host start_frame_spin end_frame_spin source_ref_field source_driven_field
       target_ref_field target_driven_field stdout dialog_with_status dialog_with_host win].
  unfold count_status, shown_label.
  rewrite bool_decide_eq_false_2; [reflexivity|].
  intros Hlen. apply length_zero_iff_nil in Hlen. rewrite Hlen in Hin.
  exact (not_elem_of_nil _ Hin).
Qed.

End CreateSlotFacts.

(** The second case on the built demo scene, where [prop2] is driven: after
    the answer No the dialog is as it was. *)
Lemma create_slot_needs_valid_fields_and_consent_witness :
  _on_create_constraint strip_blanks (λ _ _, false) demo_built_dialog
  = (demo_built_dialog, Returned tt).
Proof.
  apply (proj2 (create_slot_needs_valid_fields_and_consent strip_blanks (λ _ _, false)
                  demo_built_dialog)).
  - repeat constructor; try discriminate; apply (bool_decide_unpack _); vm_compute; exact I.
  - vm_compute. reflexivity.
  - reflexivity.
Defined.

Lemma create_slot_builds_and_lists_witness :
  ∃ (net : string) (sc' : scene) (l : list string),
    create_relative_matrix_constraint "hand1" "prop1" "hand2" "prop2" demo_scene
    = (sc', Returned net)
    ∧ find_constraint_network_nodes sc' = (sc', Returned l)
    ∧ net ∈ l
    ∧ _on_create_constraint strip_blanks (λ _ _, false) demo_dialog
      = (Dialog
           (Window sc' 1 3
              ("Found " +:+ pretty (length l) +:+ " constraint(s)", StatusPlain)
              ((λ x, (x, if bool_decide (stored_label sc' x ≠ "")
                         then stored_label sc' x else x)) <$> l))
           " hand1" "prop1 " "hand2" "prop2" [],
         Returned tt).
Proof.
  apply (create_slot_builds_and_lists strip_blanks (λ _ _, false) demo_dialog).
  - repeat constructor; try discriminate; apply (bool_decide_unpack _); vm_compute; exact I.
  - split; apply (bool_decide_unpack _); vm_compute; exact I.
  - vm_compute. reflexivity.
Defined.

Example create_slot_demo :
  let d' := (_on_create_constraint strip_blanks (λ _ _, false) demo_dialog).1 in
  constraints_list (win d') = [("relMtxConstraint_data1", "prop1 â†’ prop2")]
  ∧ status_label (win d') = ("Found 1 constraint(s)", StatusPlain).
Proof. split; vm_compute; reflexivity. Qed.

(** ** The Delete Selected button *)

Lemma shrinks_refl (sc : scene) : shrinks sc sc.
Proof. repeat split; auto. Qed.

Lemma shrinks_trans (sc1 sc2 sc3 : scene) :
  shrinks sc1 sc2 → shrinks sc2 sc3 → shrinks sc1 sc3.
Proof.
  intros (Hn1 & Hc1 & Hu1) (Hn2 & Hc2 & Hu2). split; [|split].
  - intros x. destruct (Hn2 x) as [H|H]; [by left|].
    rewrite H. apply Hn1.
  - intros p s H. by apply Hc1, Hc2.
  - congruence.
Qed.

Lemma shrinks_remove_node (sc : scene) (x : string) : shrinks sc (remove_node x sc).
Proof.
  split; [|split].
  - intros y. rewrite remove_node_nodes. case_decide; auto.
  - intros p s H. by apply remove_node_connections in H as [? _].
  - reflexivity.
Qed.

(** A node that is gone stays gone. *)
Lemma shrinks_gone (sc sc' : scene) (x : string) :
  shrinks sc sc' → nodes sc !! x = None → nodes sc' !! x = None.
Proof. intros (Hn & _) Hx. destruct (Hn x) as [H|H]; congruence. Qed.

(** What [cmds.listConnections] answers for a plug can only shrink while the
    connections do, and what a reference resolves to is among it. *)
Lemma linked_fewer (sc sc' : scene) (p : plug) (x : string) :
  (∀ q s, connections sc' !! q = Some s → connections sc !! q = Some s) →
  x ∈ linked sc' p → x ∈ linked sc p.
Proof.
  intros Hc. unfold linked. rewrite !elem_of_app. intros [Hx|Hx]; [left|right].
  - unfold cmds.sources_of in *.
    destruct (connections sc' !! p) as [s|] eqn:Hs; [|by apply not_elem_of_nil in Hx].
    by rewrite (Hc _ _ Hs).
  - apply elem_of_destinations_of in Hx as (dst & Hd%Hc & <-).
    apply elem_of_destinations_of. eauto.
Qed.

Lemma resolved_linked (sc : scene) (n attr x : string) :
  resolved sc n attr = Some x → x ∈ linked sc (n, attr).
Proof.
  unfold resolved, linked. destruct (nodes sc !! n); [|done].
  case_bool_decide; [|done]. apply head_Some_elem_of.
Qed.

(** [delete_constraint] on a record node that is there only removes: the
    record node for sure, and besides it only nodes its applier and combiner
    references resolve to. *)
Lemma delete_constraint_shrinks (sc : scene) (n : string) :
  is_Some (nodes sc !! n) →
  ∃ sc1 : scene,
    delete_constraint n sc = (sc1, Returned tt)
    ∧ nodes sc1 !! n = None
    ∧ shrinks sc sc1
    ∧ (∀ x, x ≠ n → (∀ attr, attr ∈ computation_attrs → (x ∉ linked sc (n, attr))) →
            nodes sc1 !! x = nodes sc !! x).
Proof.
  intros Hn.
  destruct (delete_constraint_nodes sc n Hn) as (sc1 & Hrun & Hgone & _ & Hothers).
  exists sc1. split; [exact Hrun|]. split; [exact Hgone|]. split; cycle 1.
  { intros x Hx Hfree. apply Hothers; [done| |].
    - intros ?%resolved_linked. eapply Hfree; [|done]. set_solver.
    - intros ?%resolved_linked. eapply Hfree; [|done]. set_solver. }
  revert Hrun. unfold delete_constraint.
  erewrite bind_returned by (by apply get_constraint_data_eq).
  cbn [decompose_matrix mult_matrix].
  destruct (delete_if_exists_spec (resolved sc n "decomposeMatrixNode") sc)
    as (sca & Hrun_a & Hstep_a & _).
  destruct (delete_if_exists_spec (resolved sc n "multMatrixNode") sca)
    as (scb & Hrun_b & Hstep_b & _).
  destruct (guarded_delete_spec n scb) as (sc2 & Hrun_n & Hstep_n & _).
  erewrite bind_returned by exact Hrun_a.
  erewrite bind_returned by exact Hrun_b.
  rewrite Hrun_n. intros [= <-].
  apply (shrinks_trans _ sca); [|apply (shrinks_trans _ scb)].
  - destruct Hstep_a as [->|(x & _ & ->)]; [apply shrinks_refl|apply shrinks_remove_node].
  - destruct Hstep_b as [->|(x & _ & ->)]; [apply shrinks_refl|apply shrinks_remove_node].
  - destruct Hstep_n as [->| ->]; [apply shrinks_refl|apply shrinks_remove_node].
Qed.

(** The loop of [_on_delete_selected], over rows whose record nodes are
    there and are not connected to each other's applier and combiner
    references. *)
Lemma delete_selected_loop (sel : list (string * string)) (w : window) :
  NoDup sel.*1 →
  Forall (λ item, is_Some (nodes (host w) !! item.1)) sel →
  (∀ i j attr, i ∈ sel.*1 → j ∈ sel.*1 → attr ∈ computation_attrs →
               (j ∉ linked (host w) (i, attr))) →
  ∃ sc' : scene,
    for_in sel (λ item, in_host (delete_constraint item.1)) w
    = (Window sc' (start_frame_spin w) (end_frame_spin w) (status_label w)
         (constraints_list w), Returned tt)
    ∧ shrinks (host w) sc'
    ∧ ∀ item, item ∈ sel → nodes sc' !! item.1 = None.
Proof.
  unfold for_in. revert w.
  induction sel as [|item sel IH]; intros w Hdup Hex Hsep; cbn [for_each].
  - exists (host w). split; [by destruct w|]. split; [apply shrinks_refl|].
    intros item Hin. exfalso. exact (not_elem_of_nil _ Hin).
  - rewrite fmap_cons in Hdup, Hsep. apply NoDup_cons in Hdup as [Hfresh Hdup].
    apply Forall_cons in Hex as [Hitem Hex].
    destruct (delete_constraint_shrinks (host w) item.1 Hitem)
      as (sc1 & Hdel & Hgone & Hsh & Hothers).
    erewrite bind_returned by (apply in_host_eq; exact Hdel).
    match goal with |- context [for_each sel tt _ ?w1] =>
      destruct (IH w1) as (sc' & Hrun & Hsh' & Hall) end.
    { exact Hdup. }
    { cbn [host]. apply Forall_forall. intros it Hit.
      rewrite Hothers.
      - by apply (proj1 (Forall_forall _ _) Hex).
      - intros Heq. apply Hfresh. rewrite <- Heq. apply list_elem_of_fmap. eauto.
      - intros attr Hattr. apply Hsep; [by left| |done].
        right. apply list_elem_of_fmap. eauto. }
    { cbn [host]. intros i j attr Hi Hj Hattr Hin.
      apply (Hsep i j attr); [by right|by right|done|].
      eapply linked_fewer; [|exact Hin]. apply Hsh. }
    cbn [host start_frame_spin end_frame_spin status_label constraints_list] in *.
    exists sc'. split; [exact Hrun|]. split; [by eapply shrinks_trans|].
    intros item' [->|Hin]%elem_of_cons; [|by apply Hall].
    by eapply shrinks_gone.
Qed.

(** X13.  The Delete Selected slot.  With nothing selected it only reports
    "No constraints selected".  With a selection and the answer No it
    changes nothing at all.  With the answer Yes, for selected rows that are
    distinct, whose record nodes are in the scene and of which none is
    connected to the applier or combiner reference of another, it does not
    raise; afterwards the record node of every selected row is gone and no
    selected row is shown any more, the scene has only lost nodes and
    connections (no node that is left was altered), the rows are the records
    discovery finds in what is left, and the status line is the refresh's
    count of the rows: the message "Deleted ... constraint(s)" set just
    before the refresh is overwritten by it. *)
Theorem delete_selected_slot
    (question : string → string → bool) (sel : list (string * string)) (w : window) :
  (sel = [] →
   _on_delete_selected question sel w
   = (Window (host w) (start_frame_spin w) (end_frame_spin w)
        ("No constraints selected", StatusError) (constraints_list w), Returned tt))
  ∧ (sel ≠ [] →
     question "Delete Constraints"
       ("Delete " +:+ pretty (length sel) +:+ " constraint(s) without baking?") = false →
     _on_delete_selected question sel w = (w, Returned tt))
  ∧ (sel ≠ [] →
     question "Delete Constraints"
       ("Delete " +:+ pretty (length sel) +:+ " constraint(s) without baking?") = true →
     NoDup sel.*1 →
     Forall (λ item, is_Some (nodes (host w) !! item.1)) sel →
     (∀ i j attr, i ∈ sel.*1 → j ∈ sel.*1 →
                  attr ∈ ["decomposeMatrixNode"; "multMatrixNode"] →
                  (j ∉ linked (host w) (i, attr))) →
     ∃ (sc' : scene) (l : list string),
       find_constraint_network_nodes sc' = (sc', Returned l)
       ∧ _on_delete_selected question sel w
         = (Window sc' (start_frame_spin w) (end_frame_spin w)
              (if bool_decide (length l = 0%nat)
               then ("No constraints found in scene", StatusPlain)
               else ("Found " +:+ pretty (length l) +:+ " constraint(s)", StatusPlain))
              ((λ x, (x, if bool_decide (stored_label sc' x ≠ "")
                         then stored_label sc' x else x)) <$> l),
            Returned tt)
       ∧ (∀ item, item ∈ sel → nodes sc' !! item.1 = None ∧ (item.1 ∉ l))
       ∧ (∀ x, nodes sc' !! x = None ∨ nodes sc' !! x = nodes (host w) !! x)
       ∧ (∀ p s, connections sc' !! p = Some s → connections (host w) !! p = Some s)).
Proof.
  split; [|split].
  - intros ->. unfold _on_delete_selected. by rewrite bool_decide_eq_true_2.
  - intros Hsel Hno. unfold _on_delete_selected.
    rewrite bool_decide_eq_false_2 by exact Hsel. by rewrite Hno.
  - intros Hsel Hyes Hdup Hex Hsep. unfold _on_delete_selected.
    rewrite bool_decide_eq_false_2 by exact Hsel. rewrite Hyes.
    destruct (delete_selected_loop sel w Hdup Hex Hsep)
      as (sc' & Hloop & (Hnodes & Hconns & _) & Hgone).
    pose proof (find_constraint_network_nodes_eq sc') as Hfind.
    set (l := filter _ _) in Hfind.
    exists sc', l. split; [exact Hfind|]. split; [|split; [|split; assumption]].
    + erewrite bind_returned by exact Hloop.
      erewrite bind_returned by reflexivity.
      by rewrite (refresh_constraint_list_eq _ l) by exact Hfind.
    + intros item Hin. split; [by apply Hgone|].
      destruct (find_constraint_network_nodes_spec sc') as (l' & Hfind' & Hl').
      rewrite Hfind in Hfind'. injection Hfind' as <-.
      intros (nd & Hnd & _)%Hl'. rewrite (Hgone item Hin) in Hnd. discriminate Hnd.
Qed.

(** The third case on the demo window, with its one row selected. *)
Lemma delete_selected_slot_witness :
  ∃ (sc' : scene) (l : list string),
    find_constraint_network_nodes sc' = (sc', Returned l)
    ∧ _on_delete_selected (λ _ _, true)
        [("relMtxConstraint_data1", "prop1 â†’ prop2")] demo_window
      = (Window sc' (start_frame_spin demo_window) (end_frame_spin demo_window)
           (if bool_decide (length l = 0%nat)
            then ("No constraints found in scene", StatusPlain)
            else ("Found " +:+ pretty (length l) +:+ " constraint(s)", StatusPlain))
           ((λ x, (x, if bool_decide (stored_label sc' x ≠ "")
                      then stored_label sc' x else x)) <$> l),
         Returned tt)
    ∧ (∀ item, item ∈ [("relMtxConstraint_data1", "prop1 â†’ prop2")] →
         nodes sc' !! item.1 = None ∧ (item.1 ∉ l))
    ∧ (∀ x, nodes sc' !! x = None ∨ nodes sc' !! x = nodes (host demo_window) !! x)
    ∧ (∀ p s, connections sc' !! p = Some s → connections (host demo_window) !! p = Some s).
Proof.
  apply (proj2 (proj2 (delete_selected_slot (λ _ _, true)
                         [("relMtxConstraint_data1", "prop1 â†’ prop2")] demo_window))).
  - discriminate.
  - reflexivity.
  - apply (bool_decide_unpack _). vm_compute. exact I.
  - apply Forall_singleton. eexists. vm_compute. reflexivity.
  - intros i j attr ->%list_elem_of_singleton ->%list_elem_of_singleton Hattr.
    apply elem_of_cons in Hattr as [->|Hattr];
      [|apply list_elem_of_singleton in Hattr as ->];
      apply (bool_decide_unpack _); vm_compute; exact I.
Defined.

(** A row that is left over from before an earlier deletion makes the slot
    raise: nothing catches the failure of [delete_constraint]. *)
Example delete_selected_stale_row_demo :
  let w := (_refresh_constraint_list demo_window).1 in
  let w' := (_on_delete_selected (λ _ _, true) (constraints_list w) w).1 in
  (_on_delete_selected (λ _ _, true) (constraints_list w) w').2 = Raised RuntimeError.
Proof. vm_compute. reflexivity. Qed.

Example delete_selected_demo :
  let w := (_refresh_constraint_list demo_window).1 in
  let w' := (_on_delete_selected (λ _ _, true) (constraints_list w) w).1 in
  constraints_list w = [("relMtxConstraint_data1", "prop1 â†’ prop2")]
  ∧ (_on_delete_selected (λ _ _, true) (constraints_list w) w).2 = Returned tt
  ∧ constraints_list w' = []
  ∧ status_label w' = ("No constraints found in scene", StatusPlain)
  ∧ dom (nodes (host w')) = dom (nodes demo_scene).
Proof.
  split; [vm_compute; reflexivity|]. split; [vm_compute; reflexivity|].
  split; [vm_compute; reflexivity|]. split; [vm_compute; reflexivity|].
  apply (bool_decide_unpack _). vm_compute. exact I.
Qed.

(** ** Disconnecting a target, in general *)

(** One incoming connection whose source is a node of the scene: it is left
    alone when it is spared, and removed otherwise; nothing else changes and
    nothing raises. *)
Lemma remove_one_connection_general (keep : bool) (S : gset string) (sc : scene)
    (dst src : plug) :
  connections sc !! dst = Some src →
  is_Some (nodes sc !! src.1) →
  ∃ S' : gset string,
    remove_one_connection keep S (dst, src) sc
    = (if spared keep sc src then sc else with_connections (delete dst) sc, Returned S').
Proof.
  intros Hc [nd Hn]. unfold remove_one_connection, spared. rewrite Hn.
  erewrite bind_returned by (by apply nodeType_eq).
  destruct (keep && String.prefix "animCurve" (node_type nd)) eqn:Hspared; [by eexists|].
  erewrite bind_returned
    by (apply try_except_pass_returned; by apply disconnectAttr_connected).
  case_bool_decide; [|by eexists].
  case_bool_decide; [|by eexists].
  unfold bind, cmds.listConnections, with_connections. cbn [nodes fst]. rewrite Hn.
  match goal with |- context [match ?l with [] => _ | _ :: _ => _ end] =>
    destruct l end; by eexists.
Qed.

(** The first loop of [remove_connections_from_target], on any list of
    attributes. *)
Lemma disconnect_loop_general (keep : bool) (t : string) (attrs : list string)
    (S : gset string) (sc : scene) :
  is_Some (nodes sc !! t) →
  (∀ p s, connections sc !! p = Some s → is_Some (nodes sc !! s.1)) →
  ∃ (sc' : scene) (S' : gset string),
    for_each attrs S (λ nodes_to_delete attr,
      let full_attr := (t, attr) in
      let! conns := cmds.listConnections_plugs full_attr in
      for_each (pairs conns) nodes_to_delete (remove_one_connection keep)) sc
    = (sc', Returned S')
    ∧ nodes sc' = nodes sc
    ∧ ui sc' = ui sc
    ∧ (∀ p s, connections sc' !! p = Some s → connections sc !! p = Some s)
    ∧ (∀ a s, a ∈ attrs → connections sc' !! (t, a) = Some s → spared keep sc s = true).
Proof.
  intros [ndt Ht]. revert S sc Ht.
  induction attrs as [|a attrs IH]; intros S sc Ht Hwf; cbn [for_each].
  - exists sc, S. repeat split; try done.
    intros a s Ha. exfalso. exact (not_elem_of_nil _ Ha).
  - assert (∃ sc1 S1,
              (let! conns := cmds.listConnections_plugs (t, a) in
               for_each (pairs conns) S (remove_one_connection keep)) sc
              = (sc1, Returned S1)
              ∧ nodes sc1 = nodes sc ∧ ui sc1 = ui sc
              ∧ (∀ p s, connections sc1 !! p = Some s → connections sc !! p = Some s)
              ∧ (∀ s, connections sc1 !! (t, a) = Some s → spared keep sc s = true))
      as (sc1 & S1 & Hrun1 & Hn1 & Hu1 & Hsub1 & Hsp1).
    { unfold bind at 1, cmds.listConnections_plugs at 1. cbn [fst]. rewrite Ht.
      destruct (connections sc !! (t, a)) as [src|] eqn:Hc; cbn [pairs for_each].
      - destruct (remove_one_connection_general keep S sc (t, a) src Hc (Hwf _ _ Hc))
          as (S1 & Hrun).
        erewrite bind_returned by exact Hrun. unfold ret.
        destruct (spared keep sc src) eqn:Hsp.
        + exists sc, S1. repeat split; try done. intros s Hs. congruence.
        + eexists _, S1. split; [reflexivity|]. cbn [nodes ui connections with_connections].
          repeat split; try done.
          * intros p s Hp. apply lookup_delete_Some in Hp as [_ Hp]. exact Hp.
          * intros s Hs. rewrite lookup_delete_eq in Hs. discriminate Hs.
      - exists sc, S. repeat split; try done. intros s Hs. congruence. }
    erewrite bind_returned by exact Hrun1.
    destruct (IH S1 sc1) as (sc' & S' & Hrun & Hn & Hu & Hsub & Hsp).
    { by rewrite Hn1. }
    { intros p s Hp. rewrite Hn1. eapply Hwf, Hsub1, Hp. }
    exists sc', S'. split; [exact Hrun|]. split; [congruence|]. split; [congruence|].
    split; [intros p s Hp; by apply Hsub1, Hsub|].
    intros a' s [->|Ha']%elem_of_cons Hs.
    + apply Hsp1. by apply Hsub.
    + assert (spared keep sc1 s = true) as Hs1 by (by eapply Hsp).
      unfold spared in *. by rewrite <- Hn1.
Qed.

(** The second loop only removes. *)
Lemma delete_marked_loop_shrinks (l : list string) (sc : scene) :
  ∃ sc' : scene, for_in l delete_marked sc = (sc', Returned tt) ∧ shrinks sc sc'.
Proof.
  unfold for_in. revert sc. induction l as [|x l IH]; intros sc; cbn [for_each].
  - exists sc. split; [done|apply shrinks_refl].
  - assert (∃ sc1, delete_marked x sc = (sc1, Returned tt) ∧ shrinks sc sc1)
      as (sc1 & Hrun & Hsh).
    { unfold delete_marked, bind, cmds.objExists, query. case_bool_decide as Hex.
      - eexists. split; [|apply (shrinks_remove_node sc x)].
        apply try_except_pass_returned. by apply delete_existing.
      - exists sc. split; [done|apply shrinks_refl]. }
    erewrite bind_returned by exact Hrun.
    destruct (IH sc1) as (sc' & Hrun' & Hsh').
    exists sc'. split; [exact Hrun'|]. by eapply shrinks_trans.
Qed.

(** The whole function, on any well-formed scene. *)
Lemma remove_connections_from_target_general (keep : bool) (sc : scene) (t : string) :
  scene_wf sc →
  is_Some (nodes sc !! t) →
  ∃ sc' : scene,
    remove_connections_from_target t keep sc = (sc', Returned tt)
    ∧ shrinks sc sc'
    ∧ (∀ a s, a ∈ transform_attrs → connections sc' !! (t, a) = Some s →
         connections sc !! (t, a) = Some s ∧ spared keep sc s = true).
Proof.
  intros [Hwf _] Ht. unfold remove_connections_from_target.
  destruct (disconnect_loop_general keep t transform_attrs ∅ sc Ht)
    as (sc1 & S & Hrun & Hn & Hu & Hsub & Hsp).
  { intros p s Hc. by destruct (Hwf p s Hc) as [_ ?]. }
  erewrite bind_returned by exact Hrun.
  destruct (delete_marked_loop_shrinks (elements S) sc1) as (sc' & Hdel & Hn' & Hc' & Hu').
  exists sc'. split; [exact Hdel|]. split; [split; [|split]|].
  - intros x. rewrite <- Hn. apply Hn'.
  - intros p s Hp. by apply Hsub, Hc'.
  - congruence.
  - intros a s Ha Hs. apply Hc' in Hs. split; [by apply Hsub|by eapply Hsp].
Qed.

(** X14.  On a well-formed scene and for a target that is a node of it,
    [remove_connections_from_target] never raises, whatever drives the
    target.  Afterwards nothing drives any of the eight transform attributes
    of the target, except, with [keep_anim_curves], a connection from an
    animation curve that was there before.  The call only removes: every node
    that is left is as it was, and every connection that is left was
    there. *)
Theorem remove_connections_frees_target (keep_anim_curves : bool) (sc : scene) (t : string) :
  scene_wf sc →
  is_Some (nodes sc !! t) →
  ∃ sc' : scene,
    remove_connections_from_target t keep_anim_curves sc = (sc', Returned tt)
    ∧ (∀ a s, a ∈ transform_attrs → connections sc' !! (t, a) = Some s →
         keep_anim_curves = true
         ∧ connections sc !! (t, a) = Some s
         ∧ ∃ nd, nodes sc !! s.1 = Some nd
                 ∧ String.prefix "animCurve" (node_type nd) = true)
    ∧ (keep_anim_curves = false →
       ∀ a, a ∈ transform_attrs → connections sc' !! (t, a) = None)
    ∧ (∀ x, nodes sc' !! x = None ∨ nodes sc' !! x = nodes sc !! x)
    ∧ (∀ p s, connections sc' !! p = Some s → connections sc !! p = Some s)
    ∧ ui sc' = ui sc.
Proof.
  intros Hwf Ht.
  destruct (remove_connections_from_target_general keep_anim_curves sc t Hwf Ht)
    as (sc' & Hrun & (Hnodes & Hconns & Hui) & Hleft).
  assert (∀ a s, a ∈ transform_attrs → connections sc' !! (t, a) = Some s →
            keep_anim_curves = true
            ∧ connections sc !! (t, a) = Some s
            ∧ ∃ nd, nodes sc !! s.1 = Some nd
                    ∧ String.prefix "animCurve" (node_type nd) = true) as Hkept.
  { intros a s Ha Hs. destruct (Hleft a s Ha Hs) as [Hc Hsp].
    unfold spared in Hsp. apply andb_true_iff in Hsp as [-> Hsp].
    split; [done|]. split; [done|].
    destruct (nodes sc !! s.1) as [nd|]; [|discriminate Hsp]. by exists nd. }
  exists sc'. split; [exact Hrun|]. split; [exact Hkept|].
  split; [|split; [exact Hnodes|split; [exact Hconns|exact Hui]]].
  intros -> a Ha. destruct (connections sc' !! (t, a)) as [s|] eqn:Hs; [|done].
  by destruct (Hkept a s Ha Hs) as [? _].
Qed.

Lemma demo_driven_scene_wf : scene_wf demo_driven_scene.
Proof. split; apply (bool_decide_unpack _); vm_compute; exact I. Qed.

Lemma remove_connections_frees_target_witness :
  ∃ sc' : scene,
    remove_connections_from_target "prop2" true demo_driven_scene = (sc', Returned tt)
    ∧ (∀ a s, a ∈ transform_attrs → connections sc' !! ("prop2", a) = Some s →
         true = true
         ∧ connections demo_driven_scene !! ("prop2", a) = Some s
         ∧ ∃ nd, nodes demo_driven_scene !! s.1 = Some nd
                 ∧ String.prefix "animCurve" (node_type nd) = true)
    ∧ (true = false →
       ∀ a, a ∈ transform_attrs → connections sc' !! ("prop2", a) = None)
    ∧ (∀ x, nodes sc' !! x = None ∨ nodes sc' !! x = nodes demo_driven_scene !! x)
    ∧ (∀ p s, connections sc' !! p = Some s → connections demo_driven_scene !! p = Some s)
    ∧ ui sc' = ui demo_driven_scene.
Proof.
  apply (remove_connections_frees_target true demo_driven_scene "prop2").
  - split; apply (bool_decide_unpack _); vm_compute; exact I.
  - eexists. vm_compute. reflexivity.
Defined.

(** ** The Create Constraint button never raises *)

(** A list passes a decidable test throughout, or has a first entry that
    fails it. *)
Lemma Forall_or_first_failure {A} (P : A → Prop) `{!∀ x, Decision (P x)} (l : list A) :
  Forall P l ∨ ∃ pre x post, l = pre ++ x :: post ∧ Forall P pre ∧ ¬ P x.
Proof.
  induction l as [|y l IH]; [by left|].
  destruct (decide (P y)) as [Hy|Hy].
  - destruct IH as [Hall|(pre & x & post & -> & Hpre & Hx)].
    + left. by constructor.
    + right. exists (y :: pre), x, post. repeat split; [|done]. by constructor.
  - right. exists [], y, l. repeat split; [constructor|done].
Qed.

(** The part of the slot under [try]: whatever it does, the slot returns. *)
Lemma try_except_set_status_returns (body : py dialog unit) (prefix : string) (d : dialog) :
  ∃ d' : dialog,
    try_except body (λ e, in_window (_set_status (prefix +:+ str_exn e) StatusError)) d
    = (d', Returned tt).
Proof.
  unfold try_except. destruct (body d) as [d1 [[]|e]]; [by eexists|].
  rewrite in_window_set_status. by eexists.
Qed.

(** X15.  On a well-formed scene the Create Constraint slot never raises,
    whatever the four fields hold and whatever the user answers: an invalid
    field is reported in the status line, the removal of what drives the
    target goes through, and an error of the host during the build is caught
    and reported in the status line as "Error: ...". *)
Theorem create_slot_never_raises
    (strip : string → string) (question : string → string → bool) (d : dialog) :
  scene_wf (host (win d)) →
  ∃ d' : dialog, _on_create_constraint strip question d = (d', Returned tt).
Proof.
  intros Hwf.
  destruct (Forall_or_first_failure (valid_entry (host (win d)))
              (items (stripped_fields strip d)))
    as [Hvalid|(pre & [key value] & post & Hitems & Hpre & Hbad)].
  - rewrite on_create_constraint_valid by exact Hvalid.
    assert (is_Some (nodes (host (win d)) !! objs_target_driven (stripped_fields strip d)))
      as Htarget.
    { unfold items in Hvalid.
      do 3 apply Forall_cons in Hvalid as [_ Hvalid].
      apply Forall_cons in Hvalid as [[_ Ht] _]. exact Ht. }
    destruct (has_incoming _ _); [|apply try_except_set_status_returns].
    destruct (question _ _); [|by eexists].
    destruct (remove_connections_from_target_general false _ _ Hwf Htarget)
      as (sc' & Hrun & _).
    erewrite bind_returned by (apply in_window_in_host_eq; exact Hrun).
    apply try_except_set_status_returns.
  - unfold _on_create_constraint.
    erewrite bind_returned by (by eapply validate_objects_cases). by eexists.
Qed.

Lemma create_slot_never_raises_witness :
  ∃ d' : dialog,
    _on_create_constraint strip_blanks (λ _ _, true) demo_built_dialog = (d', Returned tt).
Proof.
  apply (create_slot_never_raises strip_blanks (λ _ _, true) demo_built_dialog).
  split; apply (bool_decide_unpack _); vm_compute; exact I.
Defined.

(** Create on a target that is already constrained, with the answer Yes: the
    old applier and combiner are replaced by new ones, and the old record
    stays in the scene and in the list, next to the new one, with nothing
    left of its two computation nodes. *)
Example create_slot_replace_demo :
  let d' := (_on_create_constraint strip_blanks (λ _ _, true) demo_built_dialog).1 in
  constraints_list (win d')
  ≡ₚ [("relMtxConstraint_data1", "prop1 â†’ prop2");
      ("relMtxConstraint_data2", "prop1 â†’ prop2")]
  ∧ status_label (win d') = ("Found 2 constraint(s)", StatusPlain)
  ∧ (get_constraint_data "relMtxConstraint_data1" (host (win d'))).2
    = Returned (ConstraintData "relMtxConstraint_data1" "prop1 â†’ prop2"
                  (Some "hand1") (Some "prop1") (Some "hand2") (Some "prop2") None None).
Proof.
  split; [apply (bool_decide_unpack _); vm_compute; exact I|].
  split; vm_compute; reflexivity.
Qed.

(** ** The Bake All button *)

Lemma evolves_refl (sc : scene) : evolves sc sc.
Proof. split; [|done]. intros x nd Hx. exists nd. done. Qed.

Lemma evolves_trans (sc1 sc2 sc3 : scene) :
  evolves sc1 sc2 → evolves sc2 sc3 → evolves sc1 sc3.
Proof.
  intros [Hn1 Hc1] [Hn2 Hc2]. split.
  - intros x nd3 Hx. destruct (Hn2 x nd3 Hx) as (nd2 & Hx2 & Hty & Hp & Ha & Hk).
    destruct (Hn1 x nd2 Hx2) as (nd1 & Hx1 & Hty' & Hp' & Ha' & Hk').
    exists nd1. repeat split; [done|congruence..|].
    intros ch. etrans; [apply Hk'|apply Hk].
  - intros p s H. by apply Hc1, Hc2.
Qed.

Lemma evolves_remove_node (sc : scene) (x : string) : evolves sc (remove_node x sc).
Proof.
  split.
  - intros y nd Hy. rewrite remove_node_nodes in Hy. case_decide; [done|]. by exists nd.
  - intros p s H. by apply remove_node_connections in H as [? _].
Qed.

Lemma evolves_removed (xs : list string) (sc : scene) : evolves sc (removed xs sc).
Proof.
  induction xs as [|x xs IH]; [apply evolves_refl|].
  eapply evolves_trans; [exact IH|apply evolves_remove_node].
Qed.

Lemma evolves_gone (sc sc' : scene) (x : string) :
  evolves sc sc' → nodes sc !! x = None → nodes sc' !! x = None.
Proof.
  intros [Hn _] Hx. destruct (nodes sc' !! x) as [nd'|] eqn:Hx'; [|done].
  destruct (Hn x nd' Hx') as (nd & Hnd & _). congruence.
Qed.

(** A node that is still there has at least the keys it had. *)
Lemma evolves_keyed (sc sc' : scene) (x ch : string) (f : Z) :
  evolves sc sc' → is_Some (nodes sc' !! x) →
  f ∈ keyed_frames sc x ch → f ∈ keyed_frames sc' x ch.
Proof.
  intros [Hn _] [nd' Hx']. unfold keyed_frames. rewrite Hx'.
  destruct (Hn x nd' Hx') as (nd & -> & _ & _ & _ & Hk). apply Hk.
Qed.

Lemma connections_wf_remove_node (sc : scene) (x : string) :
  connections_wf sc → connections_wf (remove_node x sc).
Proof.
  intros Hwf p s (Hc & Hp & Hs)%remove_node_connections.
  destruct (Hwf p s Hc) as [? ?].
  rewrite !remove_node_nodes, !decide_False by congruence. done.
Qed.

Lemma connections_wf_removed (xs : list string) (sc : scene) :
  connections_wf sc → connections_wf (removed xs sc).
Proof.
  intros Hwf. induction xs as [|x xs IH]; [done|]. by apply connections_wf_remove_node.
Qed.

Lemma scene_wf_connections_wf (sc : scene) : scene_wf sc → connections_wf sc.
Proof. intros [Hwf _] p s Hc. exact (Hwf p s Hc). Qed.

Lemma removed_nodes (xs : list string) (sc : scene) (x : string) :
  nodes (removed xs sc) !! x = if decide (x ∈ xs) then None else nodes sc !! x.
Proof.
  induction xs as [|y xs IH]; [done|]. cbn [removed foldr]. fold (removed xs sc).
  rewrite remove_node_nodes, IH.
  destruct (decide (y = x)) as [->|Hne].
  - rewrite decide_True; [done|by left].
  - destruct (decide (x ∈ xs)).
    + rewrite decide_True; [done|by right].
    + rewrite decide_False; [done|]. intros [?|?]%elem_of_cons; congruence.
Qed.

Lemma removed_connections (xs : list string) (sc : scene) (p s : plug) :
  connections (removed xs sc) !! p = Some s
  ↔ connections sc !! p = Some s ∧ (p.1 ∉ xs) ∧ (s.1 ∉ xs).
Proof.
  induction xs as [|y xs IH].
  - simpl. split; [|by intros [? _]]. intros H. split; [done|]. split; apply not_elem_of_nil.
  - cbn [removed foldr]. fold (removed xs sc).
    rewrite remove_node_connections, IH, !not_elem_of_cons. naive_solver.
Qed.

(** [delete_constraint] on a record node that is there deletes the record
    node and, besides it, only nodes connected to its applier and combiner
    references. *)
Lemma delete_constraint_removed (sc : scene) (n : string) :
  is_Some (nodes sc !! n) →
  ∃ xs : list string,
    delete_constraint n sc = (removed xs sc, Returned tt)
    ∧ nodes (removed xs sc) !! n = None
    ∧ ∀ x, x ∈ xs → x = n ∨ ∃ attr, attr ∈ computation_attrs ∧ x ∈ linked sc (n, attr).
Proof.
  intros Hn. unfold delete_constraint.
  erewrite bind_returned by (by apply get_constraint_data_eq).
  cbn [decompose_matrix mult_matrix].
  destruct (delete_if_exists_spec (resolved sc n "decomposeMatrixNode") sc)
    as (sca & Hrun_a & Hstep_a & _).
  destruct (delete_if_exists_spec (resolved sc n "multMatrixNode") sca)
    as (scb & Hrun_b & Hstep_b & _).
  destruct (guarded_delete_spec n scb) as (sc1 & Hrun_n & Hstep_n & Hgone_n).
  erewrite bind_returned by exact Hrun_a.
  erewrite bind_returned by exact Hrun_b.
  rewrite Hrun_n.
  assert (∃ xa, sca = removed xa sc
                ∧ ∀ x, x ∈ xa → ∃ attr, attr ∈ computation_attrs ∧ x ∈ linked sc (n, attr))
    as (xa & -> & Hxa).
  { destruct Hstep_a as [->|(x & Hx%resolved_linked & ->)].
    - exists []. split; [done|]. intros x Hx. by apply not_elem_of_nil in Hx.
    - exists [x]. split; [done|]. intros ? ->%list_elem_of_singleton.
      exists "decomposeMatrixNode". split; [by left|done]. }
  assert (∃ xb, scb = removed xb sc
                ∧ ∀ x, x ∈ xb → ∃ attr, attr ∈ computation_attrs ∧ x ∈ linked sc (n, attr))
    as (xb & -> & Hxb).
  { destruct Hstep_b as [->|(x & Hx%resolved_linked & ->)]; [by exists xa|].
    exists (x :: xa). split; [done|]. intros y [->|Hy]%elem_of_cons; [|by apply Hxa].
    exists "multMatrixNode". split; [right; by left|done]. }
  assert (∃ xn, sc1 = removed xn sc
                ∧ ∀ x, x ∈ xn →
                       x = n ∨ ∃ attr, attr ∈ computation_attrs ∧ x ∈ linked sc (n, attr))
    as (xn & -> & Hxn).
  { destruct Hstep_n as [->| ->].
    - exists xb. split; [done|]. intros x Hx. right. by apply Hxb.
    - exists (n :: xb). split; [done|]. intros x [->|Hx]%elem_of_cons; [by left|].
      right. by apply Hxb. }
  by exists xn.
Qed.

(** The bake of a target that is there adds keys to it and changes nothing
    else of the nodes and the connections. *)
Lemma bake_evolves (sc : scene) (t : string) (start stop : Z) :
  is_Some (nodes sc !! t) →
  ∃ sc_b : scene,
    _bake_with_viewport_off t start stop sc = (sc_b, Returned tt)
    ∧ evolves sc sc_b
    ∧ connections sc_b = connections sc
    ∧ (∀ x, is_Some (nodes sc !! x) → is_Some (nodes sc_b !! x))
    ∧ (∀ x, x ≠ t → nodes sc_b !! x = nodes sc !! x)
    ∧ (∀ ch f, ch ∈ ["tx"; "ty"; "tz"; "rx"; "ry"; "rz"] → (start ≤ f ≤ stop)%Z →
               f ∈ keyed_frames sc_b t ch).
Proof.
  intros [nd Hnd].
  destruct (bake_with_viewport_off_eq sc t nd start stop Hnd) as (u' & Hbake).
  eexists. split; [exact Hbake|]. cbn [nodes connections].
  split; [split|split; [|split; [|split]]].
  - intros x nd' Hx. cbn [nodes] in Hx.
    apply lookup_insert_Some in Hx as [[<- <-]|[Hne Hx]].
    + exists nd. repeat split; [done|]. intros ch f Hf. cbn [with_keys node_keys].
      by apply key_channels_keeps.
    + by exists nd'.
  - done.
  - done.
  - intros x Hx. rewrite lookup_insert_is_Some'. by right.
  - intros x Hx. by rewrite lookup_insert_ne.
  - intros ch f Hch Hf. unfold keyed_frames. cbn [nodes]. rewrite lookup_insert_eq.
    cbn [with_keys node_keys]. apply key_channels_elem; [done|].
    apply elem_of_list_to_set. by apply sampled_frames_elem.
Qed.

(** In a scene whose connections join nodes, what is connected to a plug of
    a node is a node. *)
Lemma linked_is_node (sc : scene) (p : plug) (t : string) :
  connections_wf sc → t ∈ linked sc p → is_Some (nodes sc !! t).
Proof.
  intros Hwf. unfold linked, cmds.sources_of. rewrite elem_of_app. intros [Ht|Ht].
  - destruct (connections sc !! p) as [src|] eqn:Hc; [|by apply not_elem_of_nil in Ht].
    apply list_elem_of_singleton in Ht as ->. by destruct (Hwf _ _ Hc) as [_ ?].
  - apply elem_of_destinations_of in Ht as (dst & Hdst & <-).
    by destruct (Hwf _ _ Hdst) as [? _].
Qed.

Lemma resolved_is_node (sc : scene) (n attr t : string) :
  connections_wf sc → resolved sc n attr = Some t → is_Some (nodes sc !! t).
Proof. intros Hwf Ht%resolved_linked. by eapply linked_is_node. Qed.

(** On a node that is there, a reference resolves unless the attribute is
    missing or nothing is connected to it. *)
Lemma resolved_None (sc : scene) (n attr : string) (nd : node) :
  nodes sc !! n = Some nd →
  resolved sc n attr = None ↔ node_attrs nd !! attr = None ∨ linked sc (n, attr) = [].
Proof.
  intros Hn. unfold resolved, linked. rewrite Hn. case_bool_decide as Ha.
  - rewrite head_None. split; [by right|]. intros [Hno|?]; [|done].
    rewrite Hno in Ha. by destruct Ha.
  - split; [|done]. intros _. left. by apply eq_None_not_Some.
Qed.

(** A record without a target stays without one while the scene only loses
    nodes and connections. *)
Lemma unresolved_stays (sc sc' : scene) (n attr : string) :
  evolves sc sc' →
  nodes sc !! n = None ∨ resolved sc n attr = None →
  nodes sc' !! n = None ∨ resolved sc' n attr = None.
Proof.
  intros [Hn Hc] Hun.
  destruct (nodes sc' !! n) as [nd'|] eqn:Hn'; [right|by left].
  destruct (Hn n nd' Hn') as (nd & Hnd & _ & _ & Hattrs & _).
  destruct Hun as [Hun|Hun]; [congruence|].
  apply (resolved_None _ _ _ _ Hnd) in Hun. apply (resolved_None _ _ _ _ Hn').
  rewrite Hattrs. destruct Hun as [?|Hnil]; [by left|right].
  apply elem_of_nil_inv. intros x Hx%(linked_fewer sc); [|exact Hc].
  rewrite Hnil in Hx. exact (not_elem_of_nil _ Hx).
Qed.

(** What stays connected to a plug while both ends are kept. *)
Lemma linked_kept (xs : list string) (sc sc' : scene) (n attr x : string) :
  kept xs sc sc' → (n ∉ xs) → (x ∉ xs) →
  x ∈ linked sc (n, attr) → x ∈ linked sc' (n, attr).
Proof.
  intros [_ Hc] Hn Hx. unfold linked, cmds.sources_of. rewrite !elem_of_app.
  intros [Hin|Hin]; [left|right].
  - destruct (connections sc !! (n, attr)) as [s|] eqn:Hs; [|by apply not_elem_of_nil in Hin].
    apply list_elem_of_singleton in Hin as ->.
    rewrite (Hc _ _ Hs) by done. by apply list_elem_of_singleton.
  - apply elem_of_destinations_of in Hin as (dst & Hd & <-).
    apply elem_of_destinations_of. exists dst. split; [|done]. by apply Hc.
Qed.

Lemma in_window_query {A} (f : window → A) (d : dialog) :
  in_window (query f) d = (d, Returned (f (win d))).
Proof. by destruct d. Qed.

Section BakeAllFacts.

(** The scene the slot starts from and the records discovery found in it:
    no record is connected to the applier or combiner reference of a record,
    and what is connected to the target reference of a record is neither a
    record nor connected to such a reference. *)
Variable sc0 : scene.
Variable l : list string.
Variables start stop : Z.
Hypothesis Hwf0 : connections_wf sc0.
Hypothesis Hsep : ∀ i j attr,
  i ∈ l → j ∈ l → attr ∈ computation_attrs → (j ∉ linked sc0 (i, attr)).
Hypothesis Htgt : ∀ i j t attr,
  i ∈ l → j ∈ l → t ∈ linked sc0 (i, "targetDriven") → attr ∈ computation_attrs →
  t ≠ j ∧ (t ∉ linked sc0 (j, attr)).

Lemma target_not_removable (n t : string) :
  n ∈ l → t ∈ linked sc0 (n, "targetDriven") → ¬ removable sc0 l t.
Proof.
  intros Hn Ht [(j & attr & Hj & Hattr & Hin)|[Htl _]].
  - by destruct (Htgt n j t attr Hn Hj Ht Hattr) as [_ ?].
  - by destruct (Htgt n t t "multMatrixNode" Hn Htl Ht ltac:(right; by left)) as [? _].
Qed.

(** One pass of the loop of [_on_bake_all], for a record that is still
    there. *)
Lemma bake_all_step (baked_count : nat) (n : string) (d : dialog) (xs : list string) :
  n ∈ l → is_Some (nodes sc0 !! n) → (n ∉ xs) →
  (∀ x, x ∈ xs → removable sc0 l x) →
  evolves sc0 (host (win d)) → kept xs sc0 (host (win d)) →
  connections_wf (host (win d)) → nodes (host (win d)) !! "" = None →
  ∃ (sc' : scene) (count' : nat) (ys : list string),
    (let! data := in_window (in_host (get_constraint_data n)) in
     let target := target_driven data in
     let! found :=
       match target with
       | Some t => if truthy target then in_window (in_host (cmds.objExists t))
                   else ret false
       | None => ret false
       end in
     match target, found with
     | Some target, true =>
         try_except
           (do! in_window (in_host (_bake_with_viewport_off target start stop)) in
            do! in_window (in_host (delete_constraint n)) in
            ret (S baked_count))
           (λ e, do! print ("Error baking " +:+ target +:+ ": " +:+ str_exn e) in
                 ret baked_count)
     | _, _ => ret baked_count
     end) d
    = (dialog_with_host d sc', Returned count')
    ∧ evolves (host (win d)) sc'
    ∧ connections_wf sc'
    ∧ nodes sc' !! "" = None
    ∧ kept (ys ++ xs) sc0 sc'
    ∧ (∀ x, x ∈ ys → x = n ∧ is_Some (resolved sc0 n "targetDriven") ∨ deletable sc0 l x)
    ∧ (is_Some (resolved sc0 n "targetDriven") →
       nodes sc' !! n = None
       ∧ ∀ t p, connections sc0 !! (n, "targetDriven") = Some (t, p) →
                is_Some (nodes sc' !! t)
                ∧ ∀ ch f, ch ∈ ["tx"; "ty"; "tz"; "rx"; "ry"; "rz"] →
                          (start ≤ f ≤ stop)%Z → f ∈ keyed_frames sc' t ch).
Proof.
  intros Hnl Hn0 Hnxs Hxs Hev Hkept Hwf Hempty.
  set (sc := host (win d)) in *.
  destruct (proj1 Hkept n Hnxs Hn0) as [nd' Hnd'].
  destruct (proj1 Hev n nd' Hnd') as (nd0 & Hnd0 & _ & _ & Hattrs & _).
  (* what is connected to the target reference is still connected to it *)
  assert (∀ t, t ∈ linked sc0 (n, "targetDriven") → t ∈ linked sc (n, "targetDriven"))
    as Hstill.
  { intros t Ht. eapply linked_kept; [exact Hkept|exact Hnxs| |exact Ht].
    intros Hin. by eapply target_not_removable, Hxs. }
  erewrite bind_returned by (apply in_window_in_host_read, get_constraint_data_eq; by eexists).
  cbn [target_driven]. cbv zeta. fold sc.
  destruct (resolved sc n "targetDriven") as [t|] eqn:Ht; cycle 1.
  { (* no target now, so none at the start: the record is skipped *)
    assert (resolved sc0 n "targetDriven" = None) as Ht0.
    { apply (resolved_None _ _ _ _ Hnd') in Ht. apply (resolved_None _ _ _ _ Hnd0).
      rewrite <- Hattrs. destruct Ht as [?|Hnil]; [by left|right].
      apply elem_of_nil_inv. intros x Hx%Hstill. rewrite Hnil in Hx.
      exact (not_elem_of_nil _ Hx). }
    rewrite bind_ret. exists sc, baked_count, [].
    unfold sc. rewrite dialog_with_host_id. split; [done|]. split; [apply evolves_refl|].
    split; [done|]. split; [done|]. split; [done|]. split.
    - intros x Hx. by apply not_elem_of_nil in Hx.
    - rewrite Ht0. by intros [? ?]. }
  (* a target: it is a node, it is baked, and the record is deleted *)
  assert (t ∈ linked sc0 (n, "targetDriven")) as Ht0.
  { eapply linked_fewer; [apply Hev|]. by apply resolved_linked. }
  assert (is_Some (resolved sc0 n "targetDriven")) as Hres0.
  { apply not_eq_None_Some. intros Hnone.
    apply (resolved_None _ _ _ _ Hnd0) in Hnone.
    assert (resolved sc n "targetDriven" = None) as Hnone'; [|congruence].
    apply (resolved_None _ _ _ _ Hnd'). rewrite Hattrs.
    destruct Hnone as [?|Hnil]; [by left|]. rewrite Hnil in Ht0.
    by apply not_elem_of_nil in Ht0. }
  pose proof (resolved_is_node _ _ _ _ Hwf Ht) as Hex.
  assert (t ≠ "") as Hne.
  { intros ->. fold sc in Hex. rewrite Hempty in Hex. by destruct Hex. }
  assert (t ≠ n ∧ ∀ attr, attr ∈ computation_attrs → (t ∉ linked sc0 (n, attr))) as [Htn Htfree].
  { split.
    - by destruct (Htgt n n t "multMatrixNode" Hnl Hnl Ht0 ltac:(right; by left)) as [? _].
    - intros attr Hattr. by destruct (Htgt n n t attr Hnl Hnl Ht0 Hattr) as [_ ?]. }
  unfold truthy. rewrite bool_decide_eq_true_2 by exact Hne.
  erewrite bind_returned by (apply in_window_in_host_read, objExists_eq).
  rewrite bool_decide_eq_true_2 by exact Hex.
  destruct (bake_evolves sc t start stop Hex)
    as (sc_b & Hbake & Hev_b & Hconn_b & Hnodes_b & Hothers_b & Hkeyed).
  destruct (delete_constraint_removed sc_b n) as (ys & Hdel & Hgone & Hys).
  { apply Hnodes_b. by eexists. }
  assert (∀ p x, x ∈ linked sc_b p → x ∈ linked sc0 p) as Hlinked.
  { intros p x Hx. eapply linked_fewer; [apply Hev|].
    eapply linked_fewer; [apply Hev_b|exact Hx]. }
  assert (t ∉ ys) as Htys.
  { intros [->|(attr & Hattr & Hin%Hlinked)]%Hys; [done|]. by eapply Htfree. }
  exists (removed ys sc_b), (S baked_count), ys.
  split; [|split; [|split; [|split; [|split; [|split]]]]].
  - apply try_except_returned.
    erewrite bind_returned by (apply in_window_in_host_eq; exact Hbake).
    erewrite bind_returned by (apply in_window_in_host_eq; cbn; exact Hdel).
    reflexivity.
  - eapply evolves_trans; [exact Hev_b|apply evolves_removed].
  - apply connections_wf_removed. intros p s Hc. rewrite Hconn_b in Hc.
    destruct (Hwf p s Hc). split; by apply Hnodes_b.
  - eapply evolves_gone; [apply evolves_removed|].
    eapply evolves_gone; [exact Hev_b|exact Hempty].
  - split.
    + intros x [Hy Hx]%not_elem_of_app Hx0.
      rewrite removed_nodes, decide_False by done.
      apply Hnodes_b. by apply (proj1 Hkept).
    + intros p s Hc [Hpy Hpx]%not_elem_of_app [Hsy Hsx]%not_elem_of_app.
      apply removed_connections. split; [|done].
      rewrite Hconn_b. by apply (proj2 Hkept).
  - intros x [->|(attr & Hattr & Hin%Hlinked)]%Hys; [by left|].
    right. by exists n, attr.
  - intros _. split; [exact Hgone|]. intros t' p Hc.
    assert (t' = t) as ->.
    { assert (t' ∈ linked sc0 (n, "targetDriven")) as Ht'.
      { unfold linked, cmds.sources_of. rewrite Hc. by left. }
      assert (connections sc !! (n, "targetDriven") = Some (t', p)) as Hc'.
      { apply (proj2 Hkept); [done|done|].
        intros Hin. by eapply target_not_removable, Hxs. }
      apply (resolved_driven sc n "targetDriven" nd' (t', p)) in Hc';
        [simpl in Hc'; congruence|done|].
      rewrite Hattrs. unfold resolved in Hres0. rewrite Hnd0 in Hres0.
      case_bool_decide; [done|by destruct Hres0]. }
    assert (nodes (removed ys sc_b) !! t = nodes sc_b !! t) as Heq
      by (by rewrite removed_nodes, decide_False).
    split; [rewrite Heq; by apply Hnodes_b|].
    intros ch f Hch Hf. unfold keyed_frames. rewrite Heq. by apply Hkeyed.
Qed.

(** The loop of [_on_bake_all], over records that are still there. *)
Lemma bake_all_loop (rest : list string) (baked_count : nat) (d : dialog) (xs : list string) :
  NoDup rest →
  (∀ n, n ∈ rest → n ∈ l ∧ is_Some (nodes sc0 !! n) ∧ (n ∉ xs)) →
  (∀ x, x ∈ xs → removable sc0 l x) →
  evolves sc0 (host (win d)) → kept xs sc0 (host (win d)) →
  connections_wf (host (win d)) → nodes (host (win d)) !! "" = None →
  ∃ (sc' : scene) (count' : nat) (ys : list string),
    for_each rest baked_count (λ baked_count network_node,
      let! data := in_window (in_host (get_constraint_data network_node)) in
      let target := target_driven data in
      let! found :=
        match target with
        | Some t => if truthy target then in_window (in_host (cmds.objExists t))
                    else ret false
        | None => ret false
        end in
      match target, found with
      | Some target, true =>
          try_except
            (do! in_window (in_host (_bake_with_viewport_off target start stop)) in
             do! in_window (in_host (delete_constraint network_node)) in
             ret (S baked_count))
            (λ e, do! print ("Error baking " +:+ target +:+ ": " +:+ str_exn e) in
                  ret baked_count)
      | _, _ => ret baked_count
      end) d
    = (dialog_with_host d sc', Returned count')
    ∧ evolves (host (win d)) sc'
    ∧ kept ys sc0 sc'
    ∧ (∀ x, x ∈ ys → removable sc0 l x)
    ∧ ∀ n, n ∈ rest → is_Some (resolved sc0 n "targetDriven") →
           nodes sc' !! n = None
           ∧ ∀ t p, connections sc0 !! (n, "targetDriven") = Some (t, p) →
                    ∀ ch f, ch ∈ ["tx"; "ty"; "tz"; "rx"; "ry"; "rz"] →
                            (start ≤ f ≤ stop)%Z → f ∈ keyed_frames sc' t ch.
Proof.
  revert baked_count d xs.
  induction rest as [|n rest IH];
    intros baked_count d xs Hdup Hrest Hxs Hev Hkept Hwf Hempty; cbn [for_each].
  - exists (host (win d)), baked_count, xs. rewrite dialog_with_host_id.
    split; [done|]. split; [apply evolves_refl|]. split; [done|]. split; [done|].
    intros n Hn. exfalso. exact (not_elem_of_nil _ Hn).
  - apply NoDup_cons in Hdup as [Hfresh Hdup].
    destruct (Hrest n ltac:(by left)) as (Hnl & Hn0 & Hnxs).
    destruct (bake_all_step baked_count n d xs Hnl Hn0 Hnxs Hxs Hev Hkept Hwf Hempty)
      as (sc1 & count1 & ys & Hstep & Hev1 & Hwf1 & Hempty1 & Hkept1 & Hys & Hn1).
    erewrite bind_returned by exact Hstep.
    destruct (IH count1 (dialog_with_host d sc1) (ys ++ xs)) as (sc' & count' & zs & Hrun & Hev' & Hkept' & Hzs & Hall).
    { exact Hdup. }
    { intros m Hm. destruct (Hrest m ltac:(by right)) as (Hml & Hm0 & Hmxs).
      split; [done|]. split; [done|]. apply not_elem_of_app. split; [|done].
      intros [[-> _]|(j & attr & Hj & Hattr & Hin)]%Hys; [done|].
      by apply (Hsep j m attr). }
    { intros x [[[-> ?]|?]%Hys|?]%elem_of_app; [by right|by left|by apply Hxs]. }
    { cbn [host win dialog_with_host]. by eapply evolves_trans. }
    { exact Hkept1. }
    { exact Hwf1. }
    { exact Hempty1. }
    cbn [host win dialog_with_host] in Hev'.
    exists sc', count', zs. split; [exact Hrun|]. split; [by eapply evolves_trans|].
    split; [exact Hkept'|]. split; [exact Hzs|].
    intros m [->|Hin]%elem_of_cons Hres; [|by apply Hall].
    destruct (Hn1 Hres) as [Hgone Hkeys].
    split; [by eapply evolves_gone|].
    intros t p Hc ch f Hch Hf.
    destruct (Hkeys t p Hc) as [_ Hkeyed].
    eapply evolves_keyed; [exact Hev'| |by apply Hkeyed].
    apply (proj1 Hkept').
    + intros Hin. eapply (target_not_removable n t); [done| |by apply Hzs].
      unfold linked, cmds.sources_of. rewrite Hc. by left.
    + destruct (Hwf0 _ _ Hc) as [_ ?]. done.
Qed.

End BakeAllFacts.

(** The slot as a whole, for the list discovery finds. *)
Lemma on_bake_all_eq (d : dialog) (l : list string) :
  scene_wf (host (win d)) →
  nodes (host (win d)) !! "" = None →
  find_constraint_network_nodes (host (win d)) = (host (win d), Returned l) →
  (∀ i j attr, i ∈ l → j ∈ l → attr ∈ computation_attrs →
     (j ∉ linked (host (win d)) (i, attr))) →
  (∀ i j t attr, i ∈ l → j ∈ l → t ∈ linked (host (win d)) (i, "targetDriven") →
     attr ∈ computation_attrs → t ≠ j ∧ (t ∉ linked (host (win d)) (j, attr))) →
  l ≠ [] →
  ∃ (sc' : scene) (l' : list string) (ys : list string),
    find_constraint_network_nodes sc' = (sc', Returned l')
    ∧ _on_bake_all d
      = (Dialog
           (Window sc' (start_frame_spin (win d)) (end_frame_spin (win d))
              (count_status (length l')) (rows_of sc' l'))
           (source_ref_field d) (source_driven_field d) (target_ref_field d)
           (target_driven_field d) (stdout d),
         Returned tt)
    ∧ evolves (host (win d)) sc'
    ∧ kept ys (host (win d)) sc'
    ∧ (∀ x, x ∈ ys → removable (host (win d)) l x)
    ∧ ∀ n, n ∈ l → is_Some (resolved (host (win d)) n "targetDriven") →
           nodes sc' !! n = None
           ∧ ∀ t p, connections (host (win d)) !! (n, "targetDriven") = Some (t, p) →
                    ∀ ch f, ch ∈ ["tx"; "ty"; "tz"; "rx"; "ry"; "rz"] →
                            (start_frame_spin (win d) ≤ f ≤ end_frame_spin (win d))%Z →
                            f ∈ keyed_frames sc' t ch.
Proof.
  intros Hwf Hempty Hfind Hsep Htgt Hl. unfold _on_bake_all.
  erewrite bind_returned by (apply in_window_in_host_read; exact Hfind).
  rewrite bool_decide_eq_false_2 by exact Hl.
  erewrite bind_returned by apply in_window_query.
  erewrite bind_returned by apply in_window_query.
  erewrite bind_returned by apply in_window_set_status.
  pose proof (scene_wf_connections_wf _ Hwf) as Hcwf.
  pose proof (found_are_nodes _ _ _ Hfind) as Hnodes.
  rewrite Forall_forall in Hnodes.
  assert (NoDup l) as Hdup.
  { rewrite find_constraint_network_nodes_eq in Hfind. injection Hfind as <-.
    apply NoDup_filter.
    eapply sublist_NoDup; [apply (NoDup_fst_map_to_list (nodes (host (win d))))|].
    apply fmap_sublist, sublist_filter. }
  match goal with |- context [bind (for_each l 0%nat _) _ ?d0] =>
    destruct (bake_all_loop (host (win d)) l (start_frame_spin (win d))
                (end_frame_spin (win d)) Hcwf Hsep Htgt l 0%nat d0 [])
      as (sc' & count' & ys & Hloop & Hev & Hkept & Hys & Hall)
  end.
  { exact Hdup. }
  { intros n Hn. split; [done|]. split; [by apply Hnodes|apply not_elem_of_nil]. }
  { intros x Hx. by apply not_elem_of_nil in Hx. }
  { apply evolves_refl. }
  { split; [done|]. intros p s Hc _ _. exact Hc. }
  { exact Hcwf. }
  { exact Hempty. }
  erewrite bind_returned by exact Hloop.
  erewrite bind_returned by apply in_window_set_status.
  pose proof (find_constraint_network_nodes_eq sc') as Hfind'.
  set (l' := filter _ _) in Hfind'.
  exists sc', l', ys. split; [exact Hfind'|].
  split; [|split; [exact Hev|split; [exact Hkept|split; [exact Hys|exact Hall]]]].
  erewrite in_window_eq; cycle 1.
  { cbn [win dialog_with_status dialog_with_host].
    apply (refresh_constraint_list_eq _ l'). cbn [host]. exact Hfind'. }
  reflexivity.
Qed.

(** X16.  The Bake All slot.  When discovery finds no record it only reports
    "No constraints to bake".  Otherwise, in a well-formed scene without a
    node of the empty name, whose records are not connected to each other's
    applier and combiner references and whose targets are objects of their
    own (neither records nor connected to such a reference), the slot does not
    raise and prints no error.  It bakes and deletes every record whose
    target resolves: the record node is gone, and the target the record
    points to through the incoming link of its target reference is keyed on
    tx, ty, tz, rx, ry, rz at every integer frame from the start frame to the
    end frame.  It skips the records without a target: the rows that are
    left are exactly these records, and the status line is the refresh's
    count of them.  What is left of the scene stems from the scene before: a
    node that is left has its type, parent and attributes and at least the
    keys it had, and a connection that is left was there. *)
Theorem bake_all_leaves_only_records_without_target (d : dialog) (l : list string) :
  scene_wf (host (win d)) →
  nodes (host (win d)) !! "" = None →
  find_constraint_network_nodes (host (win d)) = (host (win d), Returned l) →
  (∀ i j attr, i ∈ l → j ∈ l → attr ∈ ["decomposeMatrixNode"; "multMatrixNode"] →
     (j ∉ linked (host (win d)) (i, attr))) →
  (∀ i j t attr, i ∈ l → j ∈ l → t ∈ linked (host (win d)) (i, "targetDriven") →
     attr ∈ ["decomposeMatrixNode"; "multMatrixNode"] →
     t ≠ j ∧ (t ∉ linked (host (win d)) (j, attr))) →
  (l = [] →
   _on_bake_all d
   = (dialog_with_status d ("No constraints to bake", StatusError), Returned tt))
  ∧ (l ≠ [] →
     ∃ (sc' : scene) (l' : list string),
       find_constraint_network_nodes sc' = (sc', Returned l')
       ∧ _on_bake_all d
         = (Dialog
              (Window sc' (start_frame_spin (win d)) (end_frame_spin (win d))
                 (if bool_decide (length l' = 0%nat)
                  then ("No constraints found in scene", StatusPlain)
                  else ("Found " +:+ pretty (length l') +:+ " constraint(s)", StatusPlain))
                 ((λ x, (x, if bool_decide (stored_label sc' x ≠ "")
                            then stored_label sc' x else x)) <$> l'))
              (source_ref_field d) (source_driven_field d) (target_ref_field d)
              (target_driven_field d) (stdout d),
            Returned tt)
       ∧ (∀ n t, n ∈ l → resolved (host (win d)) n "targetDriven" = Some t →
            nodes sc' !! n = None
            ∧ (is_Some (connections (host (win d)) !! (n, "targetDriven")) →
               ∀ ch f, ch ∈ ["tx"; "ty"; "tz"; "rx"; "ry"; "rz"] →
                       (start_frame_spin (win d) ≤ f ≤ end_frame_spin (win d))%Z →
                       f ∈ keyed_frames sc' t ch))
       ∧ (∀ n, n ∈ l' ↔ n ∈ l ∧ resolved (host (win d)) n "targetDriven" = None)
       ∧ (∀ n, n ∈ l' → resolved sc' n "targetDriven" = None)
       ∧ (∀ x nd', nodes sc' !! x = Some nd' →
            ∃ nd, nodes (host (win d)) !! x = Some nd
                  ∧ node_type nd' = node_type nd
                  ∧ node_parent nd' = node_parent nd
                  ∧ node_attrs nd' = node_attrs nd
                  ∧ ∀ ch, default ∅ (node_keys nd !! ch) ⊆ default ∅ (node_keys nd' !! ch))
       ∧ (∀ p s, connections sc' !! p = Some s → connections (host (win d)) !! p = Some s)).
Proof.
  intros Hwf Hempty Hfind Hsep Htgt. split.
  - intros ->. unfold _on_bake_all.
    erewrite bind_returned by (apply in_window_in_host_read; exact Hfind).
    by rewrite bool_decide_eq_true_2.
  - intros Hl.
    destruct (on_bake_all_eq d l Hwf Hempty Hfind Hsep Htgt Hl)
      as (sc' & l' & ys & Hfind' & Hrun & Hev & Hkept & Hys & Hall).
    pose proof Hev as [Hnodes Hconns].
    destruct (find_constraint_network_nodes_spec sc') as (l1 & Hfind1 & Hl1).
    rewrite Hfind' in Hfind1. injection Hfind1 as <-.
    destruct (find_constraint_network_nodes_spec (host (win d))) as (l0 & Hfind0 & Hl0).
    rewrite Hfind in Hfind0. injection Hfind0 as <-.
    assert (∀ n, n ∈ l' → n ∈ l ∧ resolved (host (win d)) n "targetDriven" = None) as Hleft.
    { intros n (nd' & Hnd' & Hty & Hmark)%Hl1.
      destruct (Hnodes n nd' Hnd') as (nd & Hnd & Hty' & _ & Hattrs & _).
      assert (n ∈ l) as Hin.
      { apply Hl0. exists nd. split; [done|]. split; [congruence|]. by rewrite <- Hattrs. }
      split; [exact Hin|].
      destruct (resolved (host (win d)) n "targetDriven") as [t|] eqn:Ht; [|done].
      destruct (Hall n Hin ltac:(by eexists)) as [Hgone _]. congruence. }
    exists sc', l'. split; [exact Hfind'|]. split; [exact Hrun|].
    split; [|split; [|split; [|split; [exact Hnodes|exact Hconns]]]].
    + intros n t Hn Ht. destruct (Hall n Hn ltac:(by eexists)) as [Hgone Hkeys].
      split; [exact Hgone|]. intros [[t' p] Hc].
      assert (t' = t) as ->; [|by eapply Hkeys].
      unfold resolved, cmds.sources_of in Ht. rewrite Hc in Ht.
      destruct (nodes (host (win d)) !! n); [|done].
      case_bool_decide; [|done]. by injection Ht.
    + intros n. split; [apply Hleft|]. intros [Hn Hnone].
      apply Hl0 in Hn as Hn0. destruct Hn0 as (nd & Hnd & Hty & Hmark).
      assert (n ∉ ys) as Hnys.
      { intros [(j & attr & Hj & Hattr & Hin)|[_ Hres]]%Hys.
        - by apply (Hsep j n attr).
        - rewrite Hnone in Hres. by destruct Hres. }
      destruct (proj1 Hkept n Hnys ltac:(by eexists)) as [nd' Hnd'].
      destruct (Hnodes n nd' Hnd') as (nd0 & Hnd0 & Hty' & _ & Hattrs & _).
      apply Hl1. exists nd'. split; [done|].
      rewrite Hnd in Hnd0. injection Hnd0 as <-. split; [congruence|by rewrite Hattrs].
    + intros n [Hn Hnone]%Hleft.
      destruct (unresolved_stays _ _ n "targetDriven" Hev (or_intror Hnone)) as [Hgone|?];
        [|done].
      unfold resolved. by rewrite Hgone.
Qed.

Lemma bake_all_leaves_only_records_without_target_witness :
  ("relMtxConstraint_data1" :: [] = [] →
   _on_bake_all demo_built_dialog
   = (dialog_with_status demo_built_dialog ("No constraints to bake", StatusError),
      Returned tt))
  ∧ ("relMtxConstraint_data1" :: [] ≠ [] →
     ∃ (sc' : scene) (l' : list string),
       find_constraint_network_nodes sc' = (sc', Returned l')
       ∧ _on_bake_all demo_built_dialog
         = (Dialog
              (Window sc' (start_frame_spin (win demo_built_dialog))
                 (end_frame_spin (win demo_built_dialog))
                 (if bool_decide (length l' = 0%nat)
                  then ("No constraints found in scene", StatusPlain)
                  else ("Found " +:+ pretty (length l') +:+ " constraint(s)", StatusPlain))
                 ((λ x, (x, if bool_decide (stored_label sc' x ≠ "")
                            then stored_label sc' x else x)) <$> l'))
              (source_ref_field demo_built_dialog) (source_driven_field demo_built_dialog)
              (target_ref_field demo_built_dialog) (target_driven_field demo_built_dialog)
              (stdout demo_built_dialog),
            Returned tt)
       ∧ (∀ n t, n ∈ ["relMtxConstraint_data1"] →
            resolved (host (win demo_built_dialog)) n "targetDriven" = Some t →
            nodes sc' !! n = None
            ∧ (is_Some (connections (host (win demo_built_dialog)) !! (n, "targetDriven")) →
               ∀ ch f, ch ∈ ["tx"; "ty"; "tz"; "rx"; "ry"; "rz"] →
                       (start_frame_spin (win demo_built_dialog) ≤ f
                        ≤ end_frame_spin (win demo_built_dialog))%Z →
                       f ∈ keyed_frames sc' t ch))
       ∧ (∀ n, n ∈ l' ↔ n ∈ ["relMtxConstraint_data1"]
                        ∧ resolved (host (win demo_built_dialog)) n "targetDriven" = None)
       ∧ (∀ n, n ∈ l' → resolved sc' n "targetDriven" = None)
       ∧ (∀ x nd', nodes sc' !! x = Some nd' →
            ∃ nd, nodes (host (win demo_built_dialog)) !! x = Some nd
                  ∧ node_type nd' = node_type nd
                  ∧ node_parent nd' = node_parent nd
                  ∧ node_attrs nd' = node_attrs nd
                  ∧ ∀ ch, default ∅ (node_keys nd !! ch) ⊆ default ∅ (node_keys nd' !! ch))
       ∧ (∀ p s, connections sc' !! p = Some s →
                 connections (host (win demo_built_dialog)) !! p = Some s)).
Proof.
  apply (bake_all_leaves_only_records_without_target demo_built_dialog
           ["relMtxConstraint_data1"]).
  - split; apply (bool_decide_unpack _); vm_compute; exact I.
  - vm_compute. reflexivity.
  - rewrite find_constraint_network_nodes_eq.
    match goal with |- (_, Returned ?a) = (_, Returned ?b) =>
      assert (a = b) as -> by (vm_compute; reflexivity) end.
    reflexivity.
  - intros i j attr ->%list_elem_of_singleton ->%list_elem_of_singleton Hattr.
    apply elem_of_cons in Hattr as [->|Hattr];
      [|apply list_elem_of_singleton in Hattr as ->];
      apply (bool_decide_unpack _); vm_compute; exact I.
  - intros i j t attr ->%list_elem_of_singleton ->%list_elem_of_singleton Ht Hattr.
    assert (t = "prop2") as ->.
    { assert (linked (host (win demo_built_dialog)) ("relMtxConstraint_data1", "targetDriven")
              = ["prop2"]) as Heq by (vm_compute; reflexivity).
      rewrite Heq in Ht. by apply list_elem_of_singleton in Ht. }
    split; [discriminate|].
    apply elem_of_cons in Hattr as [->|Hattr];
      [|apply list_elem_of_singleton in Hattr as ->];
      apply (bool_decide_unpack _); vm_compute; exact I.
Defined.

Example bake_all_demo :
  let d' := (_on_bake_all demo_built_dialog).1 in
  (_on_bake_all demo_built_dialog).2 = Returned tt
  ∧ elements (keyed_frames (host (win d')) "prop2" "tz") ≡ₚ [1; 2; 3]%Z
  ∧ constraints_list (win d') = []
  ∧ status_label (win d') = ("No constraints found in scene", StatusPlain)
  ∧ stdout d' = []
  ∧ dom (nodes (host (win d'))) = dom (nodes demo_scene).
Proof.
  split; [vm_compute; reflexivity|].
  split; [apply (bool_decide_unpack _); vm_compute; exact I|].
  split; [vm_compute; reflexivity|]. split; [vm_compute; reflexivity|].
  split; [vm_compute; reflexivity|].
  apply (bool_decide_unpack _). vm_compute. exact I.
Qed.

(** ** What a build adds *)

(** The scene a build leaves is well formed when the scene before was. *)
Lemma built_scene_wf (sc : scene) (sr sd tr td m d net : string) (parent : option string) :
  scene_wf sc →
  Forall (λ x, is_Some (nodes sc !! x)) [sr; sd; tr; td] →
  match parent with Some p => is_Some (nodes sc !! p) | None => True end →
  scene_wf (built_scene sc sr sd tr td m d net parent).
Proof.
  intros [Hconn Hpar] Hobjs Hparent.
  repeat match goal with H : Forall _ (_ :: _) |- _ =>
    apply Forall_cons in H; destruct H as [? H] end.
  assert (∀ x, is_Some (nodes sc !! x) →
            is_Some (nodes (built_scene sc sr sd tr td m d net parent) !! x)) as Hold.
  { intros x Hx. unfold built_scene. cbn [nodes].
    rewrite !lookup_insert_is_Some'. auto. }
  assert (is_Some (nodes (built_scene sc sr sd tr td m d net parent) !! m)) as Hm.
  { unfold built_scene. cbn [nodes]. rewrite !lookup_insert_is_Some'. auto. }
  assert (is_Some (nodes (built_scene sc sr sd tr td m d net parent) !! d)) as Hd.
  { unfold built_scene. cbn [nodes]. rewrite !lookup_insert_is_Some'. auto. }
  assert (is_Some (nodes (built_scene sc sr sd tr td m d net parent) !! net)) as Hnet.
  { unfold built_scene. cbn [nodes]. rewrite !lookup_insert_is_Some'. auto. }
  split.
  - intros p s Hc. unfold built_scene at 1, record_links in Hc. cbn [connections] in Hc.
    repeat (apply lookup_insert_Some in Hc as [[<- <-]|[_ Hc]]; [cbn [fst]; auto|]).
    destruct parent as [par|];
      repeat (apply lookup_insert_Some in Hc as [[<- <-]|[_ Hc]]; [cbn [fst]; auto|]);
      destruct (Hconn p s Hc); auto.
  - intros x nd Hx. unfold built_scene at 1 in Hx. cbn [nodes] in Hx.
    repeat (apply lookup_insert_Some in Hx as [[<- <-]|[_ Hx]]; [by left|]).
    destruct (Hpar x nd Hx) as [?|Hp]; [by left|right].
    destruct (node_parent nd) as [p|]; [|by destruct Hp]. cbn in *. by apply Hold.
Qed.

(** X17.  In a well-formed scene, for four existing objects of which
    target_driven has free translate and rotate plugs, a build wires the new
    applier between the new combiner and the target: the applier's
    [inputMatrix] is driven by the combiner's [matrixSum], and the target's
    translate and rotate are driven by the applier's [outputTranslate] and
    [outputRotate].  The build only adds: every node and every connection of
    the scene before is still there, unchanged.  The scene it leaves is well
    formed again. *)
Theorem build_wires_applier_and_only_adds (sc : scene) (sr sd tr td : string) :
  scene_wf sc →
  Forall (λ x, is_Some (nodes sc !! x)) [sr; sd; tr; td] →
  connections sc !! (td, "translate") = None →
  connections sc !! (td, "rotate") = None →
  ∃ (net m d : string) (sc' : scene),
    create_relative_matrix_constraint sr sd tr td sc = (sc', Returned net)
    ∧ resolved sc' net "multMatrixNode" = Some m
    ∧ resolved sc' net "decomposeMatrixNode" = Some d
    ∧ connections sc' !! (d, "inputMatrix") = Some (m, "matrixSum")
    ∧ connections sc' !! (td, "translate") = Some (d, "outputTranslate")
    ∧ connections sc' !! (td, "rotate") = Some (d, "outputRotate")
    ∧ (∀ x, is_Some (nodes sc !! x) → nodes sc' !! x = nodes sc !! x)
    ∧ (∀ p s, connections sc !! p = Some s → connections sc' !! p = Some s)
    ∧ ui sc' = ui sc
    ∧ scene_wf sc'.
Proof.
  intros Hwf Hobjs Htrans Hrot. pose proof Hobjs as Hfour.
  apply Forall_cons in Hobjs as [Hsr Hobjs]. apply Forall_cons in Hobjs as [Hsd Hobjs].
  apply Forall_cons in Hobjs as [Htr Hobjs]. apply Forall_cons in Hobjs as [[nd_td Htd] _].
  destruct (create_relative_matrix_constraint_eq sc sr sd tr td nd_td Hwf Htd
              ltac:(repeat constructor; assumption) Htrans Hrot)
    as (Hrun & Hm & Hd & Hnet & Hmd & Hmn & Hdn).
  set (m := unique_name (nodes sc) (NETWORK_NODE_PREFIX +:+ "_multMatrix#")) in *.
  set (d := unique_name (<[m := Node "multMatrix" None ∅ ∅]> (nodes sc))
              (NETWORK_NODE_PREFIX +:+ "_decomposeMatrix#")) in *.
  set (net := unique_name _ (NETWORK_NODE_PREFIX +:+ "_data#")) in *.
  set (B := built_scene sc sr sd tr td m d net (node_parent nd_td)) in *.
  assert (td ≠ m ∧ td ≠ d ∧ td ≠ net) as (Htm & Htdd & Htn).
  { repeat split; intros Heq; rewrite Heq in Htd; congruence. }
  pose proof (read_built_scene sc sr sd tr td m d net (node_parent nd_td)) as Hread.
  fold B in Hread.
  rewrite get_constraint_data_eq in Hread
    by (unfold B, built_scene; cbn [nodes]; rewrite lookup_insert_eq; eauto).
  injection Hread as _ _ _ _ _ Hrm Hrd.
  exists net, m, d, B. split; [exact Hrun|]. split; [exact Hrm|]. split; [exact Hrd|].
  assert (∀ p, p.1 ≠ net → connections B !! p
                            = (<[(td, "rotate") := (d, "outputRotate")]>
                                 (<[(td, "translate") := (d, "outputTranslate")]>
                                    (<[(d, "inputMatrix") := (m, "matrixSum")]>
                                       (match node_parent nd_td with
                                        | Some p0 =>
                                            <[(m, "matrixIn[3]") := (p0, "worldInverseMatrix[0]")]>
                                              (<[(m, "matrixIn[2]") := (tr, "worldMatrix[0]")]>
                                                 (<[(m, "matrixIn[1]") := (sr, "worldInverseMatrix[0]")]>
                                                    (<[(m, "matrixIn[0]") := (sd, "worldMatrix[0]")]>
                                                       (connections sc))))
                                        | None =>
                                            <[(m, "matrixIn[2]") := (tr, "worldMatrix[0]")]>
                                              (<[(m, "matrixIn[1]") := (sr, "worldInverseMatrix[0]")]>
                                                 (<[(m, "matrixIn[0]") := (sd, "worldMatrix[0]")]>
                                                    (connections sc)))
                                        end)))) !! p) as HB.
  { intros p Hp. unfold B, built_scene. cbn [connections].
    rewrite record_links_other by exact Hp. by destruct (node_parent nd_td). }
  split; [|split; [|split; [|split; [|split; [|split]]]]].
  - rewrite HB by (cbn; congruence).
    rewrite !lookup_insert_ne by solve_key_ne. apply lookup_insert_eq.
  - rewrite HB by (cbn; congruence).
    rewrite lookup_insert_ne by solve_key_ne. apply lookup_insert_eq.
  - rewrite HB by (cbn; congruence). apply lookup_insert_eq.
  - intros x [nd Hx]. unfold B, built_scene. cbn [nodes].
    rewrite !lookup_insert_ne by congruence. done.
  - intros p s Hc.
    destruct (scene_wf_unused sc m Hwf Hm _ _ Hc) as [Hpm _].
    destruct (scene_wf_unused sc d Hwf Hd _ _ Hc) as [Hpd _].
    destruct (scene_wf_unused sc net Hwf Hnet _ _ Hc) as [Hpn _].
    rewrite HB by exact Hpn.
    rewrite !lookup_insert_ne by (intros <-; congruence).
    destruct (node_parent nd_td);
      rewrite !lookup_insert_ne by (intros <-; cbn in *; congruence); exact Hc.
  - reflexivity.
  - apply built_scene_wf; [exact Hwf|exact Hfour|].
    destruct (node_parent nd_td) as [p|] eqn:Hp; [|exact I].
    exact (scene_wf_parent sc td p nd_td Hwf Htd Hp).
Qed.

Lemma build_wires_applier_and_only_adds_witness :
  ∃ (net m d : string) (sc' : scene),
    create_relative_matrix_constraint "hand1" "prop1" "hand2" "prop2" demo_scene
    = (sc', Returned net)
    ∧ resolved sc' net "multMatrixNode" = Some m
    ∧ resolved sc' net "decomposeMatrixNode" = Some d
    ∧ connections sc' !! (d, "inputMatrix") = Some (m, "matrixSum")
    ∧ connections sc' !! ("prop2", "translate") = Some (d, "outputTranslate")
    ∧ connections sc' !! ("prop2", "rotate") = Some (d, "outputRotate")
    ∧ (∀ x, is_Some (nodes demo_scene !! x) → nodes sc' !! x = nodes demo_scene !! x)
    ∧ (∀ p s, connections demo_scene !! p = Some s → connections sc' !! p = Some s)
    ∧ ui sc' = ui demo_scene
    ∧ scene_wf sc'.
Proof.
  apply (build_wires_applier_and_only_adds demo_scene "hand1" "prop1" "hand2" "prop2").
  - split; apply (bool_decide_unpack _); vm_compute; exact I.
  - repeat constructor; apply (bool_decide_unpack _); vm_compute; exact I.
  - vm_compute. reflexivity.
  - vm_compute. reflexivity.
Defined.

(** ** A record whose linking fails *)

Lemma connectAttr_missing_source (src dst : plug) (sc : scene) :
  nodes sc !! src.1 = None →
  cmds.connectAttr src dst sc = (sc, Raised RuntimeError).
Proof. intros Hs. unfold cmds.connectAttr. by rewrite Hs. Qed.

(** The loop that links the participants to the record node, when one of
    them is no node of the scene: it raises at the first such one. *)
Lemma link_loop_fails (net : string) (ns : gmap string node) (u : ui_state)
    (l : list (string * string)) (cs : gmap plug plug) :
  is_Some (ns !! net) →
  NoDup l.*2 →
  (∀ x, x ∈ l → cs !! (net, x.2) = None) →
  ¬ Forall (λ x : string * string, is_Some (ns !! x.1)) l →
  ∃ cs' : gmap plug plug,
    for_in l (λ '(obj, attr), cmds.connectAttr (obj, "message") (net, attr)) (Scene ns cs u)
    = (Scene ns cs' u, Raised RuntimeError)
    ∧ ∀ p, p.1 ≠ net → cs' !! p = cs !! p.
Proof.
  intros Hnet. unfold for_in. revert cs.
  induction l as [|[obj attr] l IH]; intros cs Hnodup Hfree Hbad; cbn [for_each].
  - exfalso. apply Hbad. constructor.
  - rewrite fmap_cons in Hnodup. apply NoDup_cons in Hnodup as [Hattr Hnodup].
    destruct (ns !! obj) as [nd|] eqn:Hobj.
    + erewrite bind_returned; cycle 1.
      { apply connectAttr_free; cbn [fst]; [by rewrite Hobj|exact Hnet|].
        apply (Hfree (obj, attr)). by left. }
      destruct (IH (<[(net, attr) := (obj, "message")]> cs)) as (cs' & Hrun & Hother).
      * exact Hnodup.
      * intros x Hx. rewrite lookup_insert_ne.
        -- apply Hfree. by right.
        -- intros [= Heq]. apply Hattr. rewrite Heq.
           apply list_elem_of_fmap. by exists x.
      * intros Hall. apply Hbad. constructor; [cbn; by rewrite Hobj|exact Hall].
      * exists cs'. split; [exact Hrun|]. intros p Hp.
        rewrite Hother by exact Hp. apply lookup_insert_ne. intros <-. by apply Hp.
    + erewrite bind_raised by (by apply connectAttr_missing_source).
      by exists cs.
Qed.

(** X18.  [create_constraint_network_node] checks nothing before it starts.
    When one of the six objects it is given is no node of the scene (nor the
    very name the host is about to give to the record node), it raises the
    host's error while linking, after the record node was made and marked:
    the new node, with its marker, its label and its six reference
    attributes, stays in the scene, and discovery lists it from then on.  No
    other node is touched, and no plug of another node. *)
Theorem record_node_left_behind_when_linking_fails (sc : scene) (a b c d m n : string) :
  scene_wf sc →
  ¬ Forall (λ x, is_Some (nodes sc !! x)
                 ∨ x = unique_name (nodes sc) (NETWORK_NODE_PREFIX +:+ "_data#"))
      [a; b; c; d; m; n] →
  ∃ (net : string) (sc' : scene) (l : list string),
    create_constraint_network_node a b c d m n sc = (sc', Raised RuntimeError)
    ∧ nodes sc !! net = None
    ∧ nodes sc'
      = <[net := Node "network" None (record_attrs (b +:+ " â†’ " +:+ d)) ∅]> (nodes sc)
    ∧ (∀ p, p.1 ≠ net → connections sc' !! p = connections sc !! p)
    ∧ ui sc' = ui sc
    ∧ find_constraint_network_nodes sc' = (sc', Returned l)
    ∧ net ∈ l.
Proof.
  intros Hwf Hbad.
  set (net := unique_name (nodes sc) (NETWORK_NODE_PREFIX +:+ "_data#")) in *.
  assert (nodes sc !! net = None) as Hnet by apply unique_name_fresh.
  pose proof (λ attr, scene_wf_free sc net attr Hwf Hnet) as Hfree.
  assert (∃ cs', create_constraint_network_node a b c d m n sc
                 = (Scene (<[net := Node "network" None (record_attrs (b +:+ " â†’ " +:+ d)) ∅]>
                             (nodes sc)) cs' (ui sc),
                    Raised RuntimeError)
                 ∧ ∀ p, p.1 ≠ net → cs' !! p = connections sc !! p) as (cs' & Hrun & Hother).
  { destruct sc as [ns cs u]. cbn [nodes connections ui] in *.
    unfold create_constraint_network_node.
    py_run createNode_eq_scene idtac. fold net.
    py_run addAttr_new ltac:(done).
    py_run setAttr_existing ltac:(cbn; rewrite lookup_insert_eq; eauto).
    py_run addAttr_new ltac:(done).
    py_run setAttr_existing ltac:(cbn; rewrite lookup_insert_eq; eauto).
    unfold for_in at 1. cbn [for_each].
    do 6 py_run addAttr_new ltac:(done).
    repeat first [rewrite bind_bind | rewrite bind_ret].
    match goal with |- context [bind (for_in ?l _) _ (Scene ?ns1 cs u)] =>
      destruct (link_loop_fails net ns1 u l cs) as (cs' & Hloop & Hother)
    end.
    - rewrite lookup_insert_eq. eauto.
    - apply (bool_decide_unpack _). vm_compute. exact I.
    - intros x _. apply Hfree.
    - intros Hall. apply Hbad.
      repeat match goal with H : Forall _ (_ :: _) |- _ =>
        apply Forall_cons in H; destruct H as [? H] end.
      cbn [fst] in *.
      repeat (apply Forall_cons; split;
              [match goal with
               | H : is_Some (<[net := _]> ns !! ?x) |- is_Some (ns !! ?x) ∨ ?x = net =>
                   apply lookup_insert_is_Some' in H as [Heq|H]; [right; congruence|left; exact H]
               end|]).
      apply Forall_nil_2.
    - exists cs'. split; [|exact Hother].
      erewrite bind_raised by exact Hloop. reflexivity. }
  pose proof (find_constraint_network_nodes_eq
                (Scene (<[net := Node "network" None (record_attrs (b +:+ " â†’ " +:+ d)) ∅]>
                          (nodes sc)) cs' (ui sc))) as Hfind.
  set (l := filter _ _) in Hfind.
  eexists net, _, l. split; [exact Hrun|]. split; [exact Hnet|]. split; [reflexivity|].
  split; [exact Hother|]. split; [reflexivity|]. split; [exact Hfind|].
  match type of Hfind with find_constraint_network_nodes ?s = _ =>
    destruct (find_constraint_network_nodes_spec s) as (l' & Hfind' & Hl') end.
  rewrite Hfind in Hfind'. injection Hfind' as <-. apply Hl'.
  eexists. split; [cbn [nodes]; apply lookup_insert_eq|]. split; [reflexivity|].
  cbn [node_attrs]. rewrite record_attrs_marker. eauto.
Qed.

Lemma record_node_left_behind_when_linking_fails_witness :
  ∃ (net : string) (sc' : scene) (l : list string),
    create_constraint_network_node "hand9" "prop1" "hand2" "prop2" "mult1" "decomp1" demo_scene
    = (sc', Raised RuntimeError)
    ∧ nodes demo_scene !! net = None
    ∧ nodes sc'
      = <[net := Node "network" None (record_attrs ("prop1" +:+ " â†’ " +:+ "prop2")) ∅]>
          (nodes demo_scene)
    ∧ (∀ p, p.1 ≠ net → connections sc' !! p = connections demo_scene !! p)
    ∧ ui sc' = ui demo_scene
    ∧ find_constraint_network_nodes sc' = (sc', Returned l)
    ∧ net ∈ l.
Proof.
  apply (record_node_left_behind_when_linking_fails demo_scene
           "hand9" "prop1" "hand2" "prop2" "mult1" "decomp1").
  - split; apply (bool_decide_unpack _); vm_compute; exact I.
  - intros Hall. apply Forall_cons in Hall as [[[nd Hex]|Heq] _].
    + vm_compute in Hex. discriminate Hex.
    + vm_compute in Heq. discriminate Heq.
Defined.

Example record_node_left_behind_demo :
  let r := create_constraint_network_node "hand9" "prop1" "hand2" "prop2" "mult1" "decomp1"
             demo_scene in
  r.2 = Raised RuntimeError
  ∧ (find_constraint_network_nodes r.1).2 = Returned ["relMtxConstraint_data1"]
  ∧ (get_constraint_data "relMtxConstraint_data1" r.1).2
    = Returned (ConstraintData "relMtxConstraint_data1" "prop1 â†’ prop2"
                  None None None None None None).
Proof. repeat split; vm_compute; reflexivity. Qed.
